(** * The guard supervisor of syncplify/kit: a shallow embedding

    The development follows the Go sources: [guard.go] (package gokit, the
    supervisor), [cmd/guard/main.go] (the command line front end) and
    [pkg/exec/exec_unix.go] (the child runner's output loop).  Go strings are
    byte strings and are modelled by [string]; Go integers are modelled by [Z]
    with their wrap-around written out; a slice that may be [nil] is an
    [option (list _)]. *)

From Stdlib Require Import ZArith Lia List String Ascii DecimalString.
From stdpp Require Import base option list strings gmap.

Open Scope Z_scope.

(** ** Go values shared by the packages *)

(** A slice whose nil-ness the code inspects: [None] is the nil slice. *)
Definition slice (A : Type) : Type := option (list A).

Definition elems {A : Type} (s : slice A) : list A := default [] s.

Definition len {A : Type} (s : slice A) : Z := Z.of_nat (length (elems s)).

(** The Go [error] interface, reduced to the message it carries. *)
Definition error : Type := string.

(** A call returns, panics, or leaves the process through [os.Exit]. *)
Inductive outcome (A : Type) : Type :=
| Ret (a : A)
| Panic (msg : string)
| Exit (code : Z).
Arguments Ret {A} a.
Arguments Panic {A} msg.
Arguments Exit {A} code.

(** Sequencing of calls that may panic, with stdpp's [x ← c; k] notation. *)
#[global] Instance outcome_ret : MRet outcome := fun A a => Ret a.

#[global] Instance outcome_bind : MBind outcome := fun A B k o =>
  match o with
  | Ret a => k a
  | Panic m => Panic m
  | Exit c => Exit c
  end.

(** The bytes of a Go string, as numbers below 256. *)
Definition bytes (s : string) : list Z :=
  map (fun a => Z.of_N (N_of_ascii a)) (list_ascii_of_string s).

(** [strings.Join(l, sep)]. *)
Fixpoint Join (l : list string) (sep : string) : string :=
  match l with
  | [] => ""
  | [x] => x
  | x :: rest => x +:+ sep +:+ Join rest sep
  end.

(** [fmt.Sprint] of an unsigned integer: its decimal digits. *)
Definition Sprint_uint (n : Z) : string :=
  NilZero.string_of_uint (N.to_uint (Z.to_N n)).

(** ** hash/fnv: the 32-bit FNV-1a hash *)
Module Fnv.

Definition offset32 : Z := 2166136261.
Definition prime32 : Z := 16777619.

(** One [Write] step of [sum32a]: xor the byte in, multiply, keep 32 bits. *)
Definition step32a (h b : Z) : Z := (Z.lxor h b * prime32) mod 2 ^ 32.

(** [h := fnv.New32a(); h.Write(bs); h.Sum32()]. *)
Definition Sum32a (bs : list Z) : Z := foldl step32a offset32 bs.

End Fnv.

(** ** regexp: splitting on the expression [[\n\r]+] *)
Module Regexp.

Definition is_break (c : ascii) : bool :=
  (Ascii.eqb c "010" || Ascii.eqb c "013")%bool.

(** [regexp.MustCompile(`[\n\r]+`).Split(s, -1)]: the pieces of [s] between
    the maximal runs of line breaks; a run at either end of [s] leaves an
    empty piece there, and the empty string splits into one empty piece.
    [cur] is the piece being read, [in_run] tells that the last byte
    belonged to a run. *)
Fixpoint split_breaks (s : string) (cur : string) (in_run : bool) : list string :=
  match s with
  | EmptyString => [cur]
  | String c rest =>
      if is_break c then
        if in_run then split_breaks rest cur true
        else cur :: split_breaks rest EmptyString true
      else split_breaks rest (cur +:+ String c EmptyString) false
  end.

Definition Split (s : string) : list string := split_breaks s EmptyString false.

End Regexp.

(** ** time: instants and durations *)
Module Time.

(** A [time.Duration] is an int64 count of nanoseconds. *)
Definition Duration : Type := Z.

Definition minDuration : Duration := - 2 ^ 63.
Definition maxDuration : Duration := 2 ^ 63 - 1.

Definition Millisecond : Duration := 1000000.

(** An instant, in nanoseconds since the zero [time.Time] (January 1 of the
    year 1); the zero value of the type is [0]. *)
Definition Time : Type := Z.

Definition zero : Time := 0.

(** [t.Sub(u)]: the difference, clamped to what a [Duration] can hold. *)
Definition Sub (t u : Time) : Duration :=
  if t - u <? minDuration then minDuration
  else if maxDuration <? t - u then maxDuration
  else t - u.

(** [time.Since(t)] when the clock reads [now]. *)
Definition Since (now t : Time) : Duration := Sub now t.

End Time.

(** ** github.com/radovskyb/watcher: event kinds and events *)
Module Watcher.

(** [type Op uint32], with the constants the library declares by [iota];
    [Create] is the zero value. *)
Inductive Op : Type := Create | Write | Remove | Rename | Chmod | Move.

#[global] Instance Op_eq_dec : EqDecision Op.
Proof. solve_decision. Defined.

(** [Op.String]: the library's table of names. *)
Definition Op_String (o : Op) : string :=
  match o with
  | Create => "CREATE"
  | Write => "WRITE"
  | Remove => "REMOVE"
  | Rename => "RENAME"
  | Chmod => "CHMOD"
  | Move => "MOVE"
  end.

(** [watcher.Event]; of the embedded [os.FileInfo] the supervisor only asks
    [IsDir]. *)
Record Event : Type := mkEvent {
  Op_ : Op;
  Path : string;
  OldPath : string;
  IsDir : bool
}.

(** [watcher.Event{}], the zero value. *)
Definition Event_zero : Event :=
  {| Op_ := Create; Path := ""; OldPath := ""; IsDir := false |}.

End Watcher.

(** ** The packages the sources call into, as interfaces *)

(** [path/filepath]: [Abs] consults the process's current directory, [Rel] and
    [Dir] are lexical.  [Abs] and [Rel] return their string and their error
    side by side, as in Go.  [Rel] answers ["."] for a path relative to
    itself. *)
Class Filepath : Type := {
  filepath_Abs : string -> string * option error;
  filepath_Rel : string -> string -> string * option error;
  filepath_Dir : string -> string;
  filepath_Rel_same : forall p, filepath_Rel p p = (".", None)
}.

(** [github.com/hoisie/mustache]: [mustache.Render(template, context)] with a
    [map[string]string] context. *)
Class Mustache : Type := {
  mustache_Render : string -> gmap string string -> string
}.

(** [kit.C(text, color)], the ANSI colouring helper of the repository. *)
Class Color : Type := {
  kit_C : string -> string -> string
}.

(** [kit.ReadFile]: the bytes of the file, or the error of the read. *)
Class Files : Type := {
  kit_ReadFile : string -> string + error
}.

(** ** guard.go: the supervisor *)
Module Gokit.
Import Time Watcher.

(** The predicate built by [NewMatcher]: [matcher.match(path, isDir)] gives
    [(matched, negated, err)], of which the supervisor reads the first and
    the last. *)
Definition Matcher : Type := string -> bool -> bool * option error.

(** The walking and polling code of the repository and of the watcher
    library that [Do] calls: [NewMatcher(dir, patterns)],
    [Glob(patterns, &WalkOptions{Dir, Matcher})] and the value
    [watcher.Start(interval)] returns once the watcher is closed. *)
Class Walking : Type := {
  NewMatcher : string -> list string -> Matcher + error;
  Glob : list string -> string -> Matcher -> list string + error;
  watcher_Start : Duration -> option error
}.

(** Modelled from the spec: the constant [WalkGitIgnore], declared outside
    the sources at hand; it is the special pattern [!g], which the help
    text of cmd/guard/main.go also names as the second default pattern. *)
Definition WalkGitIgnore : string := "!g".

(** Modelled from the spec: [ExecContext], the command description the
    child runner is started from (working directory, argv, raw mode and
    output prefix), with its builders. *)
Record ExecContext : Type := mkExec {
  exec_dir : string;
  exec_args : list string;
  exec_raw : bool;
  exec_prefix : string
}.

Definition Exec : ExecContext :=
  {| exec_dir := ""; exec_args := []; exec_raw := false; exec_prefix := "" |}.

Definition Exec_Dir (d : string) (c : ExecContext) : ExecContext :=
  {| exec_dir := d; exec_args := exec_args c; exec_raw := exec_raw c;
     exec_prefix := exec_prefix c |}.

Definition Exec_Args (a : list string) (c : ExecContext) : ExecContext :=
  {| exec_dir := exec_dir c; exec_args := a; exec_raw := exec_raw c;
     exec_prefix := exec_prefix c |}.

Definition Exec_Raw (c : ExecContext) : ExecContext :=
  {| exec_dir := exec_dir c; exec_args := exec_args c; exec_raw := true;
     exec_prefix := exec_prefix c |}.

Definition Exec_Prefix (p : string) (c : ExecContext) : ExecContext :=
  {| exec_dir := exec_dir c; exec_args := exec_args c; exec_raw := exec_raw c;
     exec_prefix := p |}.

(** [GuardContext], without its channel and its watcher handle. *)
Record GuardContext : Type := mkGuard {
  args : list string;
  patterns : slice string;
  dir : string;
  clearScreen : bool;
  interval : option Duration;
  execCtx : option ExecContext;
  debounce : option Duration;
  noInitRun : bool;
  prefix : string;
  count : Z
}.

Definition Guard `{Color} (a : list string) : GuardContext :=
  {| args := a; patterns := None; dir := ""; clearScreen := false;
     interval := None; execCtx := None; debounce := None; noInitRun := false;
     prefix := kit_C "[guard]" "cyan"; count := 0 |}.

Definition GuardDefaultPatterns : list string := ["**"; WalkGitIgnore].

Definition Dir (d : string) (ctx : GuardContext) : GuardContext :=
  {| args := args ctx; patterns := patterns ctx; dir := d;
     clearScreen := clearScreen ctx; interval := interval ctx;
     execCtx := execCtx ctx; debounce := debounce ctx;
     noInitRun := noInitRun ctx; prefix := prefix ctx; count := count ctx |}.

Definition Patterns (ps : slice string) (ctx : GuardContext) : GuardContext :=
  {| args := args ctx; patterns := ps; dir := dir ctx;
     clearScreen := clearScreen ctx; interval := interval ctx;
     execCtx := execCtx ctx; debounce := debounce ctx;
     noInitRun := noInitRun ctx; prefix := prefix ctx; count := count ctx |}.

Definition NoInitRun (ctx : GuardContext) : GuardContext :=
  {| args := args ctx; patterns := patterns ctx; dir := dir ctx;
     clearScreen := clearScreen ctx; interval := interval ctx;
     execCtx := execCtx ctx; debounce := debounce ctx;
     noInitRun := true; prefix := prefix ctx; count := count ctx |}.

Definition ClearScreen (ctx : GuardContext) : GuardContext :=
  {| args := args ctx; patterns := patterns ctx; dir := dir ctx;
     clearScreen := true; interval := interval ctx;
     execCtx := execCtx ctx; debounce := debounce ctx;
     noInitRun := noInitRun ctx; prefix := prefix ctx; count := count ctx |}.

Definition Interval (i : option Duration) (ctx : GuardContext) : GuardContext :=
  {| args := args ctx; patterns := patterns ctx; dir := dir ctx;
     clearScreen := clearScreen ctx; interval := i;
     execCtx := execCtx ctx; debounce := debounce ctx;
     noInitRun := noInitRun ctx; prefix := prefix ctx; count := count ctx |}.

Definition Debounce (d : option Duration) (ctx : GuardContext) : GuardContext :=
  {| args := args ctx; patterns := patterns ctx; dir := dir ctx;
     clearScreen := clearScreen ctx; interval := interval ctx;
     execCtx := execCtx ctx; debounce := d;
     noInitRun := noInitRun ctx; prefix := prefix ctx; count := count ctx |}.

Definition ExecCtx (c : option ExecContext) (ctx : GuardContext) : GuardContext :=
  {| args := args ctx; patterns := patterns ctx; dir := dir ctx;
     clearScreen := clearScreen ctx; interval := interval ctx;
     execCtx := c; debounce := debounce ctx;
     noInitRun := noInitRun ctx; prefix := prefix ctx; count := count ctx |}.

(** *** [Do]: defaults *)

(** [ctx.patterns] after the first statement of [Do]. *)
Definition Do_patterns (ctx : GuardContext) : slice string :=
  match patterns ctx with
  | None => Some GuardDefaultPatterns
  | Some ps => if len (Some ps) =? 0 then Some GuardDefaultPatterns else Some ps
  end.

(** [ctx.execCtx] after the second statement of [Do]. *)
Definition Do_execCtx (ctx : GuardContext) : option ExecContext :=
  match execCtx ctx with
  | None => Some Exec
  | Some c => Some c
  end.

(** The context once both defaults are in place. *)
Definition Do_defaults (ctx : GuardContext) : GuardContext :=
  ExecCtx (Do_execCtx ctx) (Patterns (Do_patterns ctx) ctx).

(** *** [Do]: the [unescapeArgs] closure *)

Definition errs (l : list (option error)) : list error :=
  omap (fun e => e) l.

(** One turn of the loop over [args]: the rendered token and the errors
    handed to [Err]. *)
Definition unescapeArg `{Filepath} `{Mustache}
    (ctx_dir : string) (e : Event) (arg : string) : string * list error :=
  let '(d, err1) := filepath_Abs ctx_dir in
  let '(p, err2) := filepath_Abs (Path e) in
  let '(p, err3) := filepath_Rel d p in
  (mustache_Render arg {[ "path" := p; "op" := Op_String (Op_ e) ]},
   errs [err1; err2; err3]).

(** [unescapeArgs(args, e)]; a nil [e] stands for [&watcher.Event{}]. *)
Definition unescapeArgs `{Filepath} `{Mustache}
    (ctx_dir : string) (a : list string) (e : option Event)
    : list string * list error :=
  let e := default Event_zero e in
  foldl (fun '(newArgs, logged) arg =>
           let '(r, l) := unescapeArg ctx_dir e arg in
           (newArgs ++ [r], logged ++ l))
        ([], []) a.

(** *** [Do]: the [run] closure *)

(** What one call of [run] does before it waits for the child: the screen
    is cleared when asked for, the counter is advanced, and the clone of
    the exec context is started with the rendered argv. *)
Record Run : Type := mkRun {
  run_cleared : bool;
  run_count : Z;
  run_exec : ExecContext;
  run_logged : list error
}.

Definition run `{Filepath} `{Mustache}
    (ctx : GuardContext) (e : option Event) : GuardContext * Run :=
  let n := count ctx + 1 in
  let ctx' :=
    {| args := args ctx; patterns := patterns ctx; dir := dir ctx;
       clearScreen := clearScreen ctx; interval := interval ctx;
       execCtx := execCtx ctx; debounce := debounce ctx;
       noInitRun := noInitRun ctx; prefix := prefix ctx; count := n |} in
  let '(rendered, logged) := unescapeArgs (dir ctx) (args ctx) e in
  let execCtxClone := default Exec (execCtx ctx) in
  (ctx',
   {| run_cleared := clearScreen ctx;
      run_count := n;
      run_exec := Exec_Args rendered (Exec_Dir (dir ctx) execCtxClone);
      run_logged := logged |}).

(** *** [Do]: the [watchFiles] closure *)

(** What the supervisor does to the world, in the order it does it. *)
Inductive Effect : Type :=
| EErr (err : error)                    (* Err(err) *)
| ELogEvent (e : Event)                 (* Log(ctx.prefix, e) *)
| ELogError (err : error)               (* Log(ctx.prefix, err) *)
| ELogWatched (n : Z) (watched : string)
| EAdd (p : string)                     (* ctx.watcher.Add(p) *)
| EKillTree                             (* KillTree(pid of the clone) *)
| EAwait                                (* <-ctx.wait *)
| EGoRun (e : Event).                   (* go run(&e) *)

(** The second loop of [watchFiles]: the directory of a listed path is
    added once, before the path, unless it is listed itself. *)
Definition watchFiles_adds `{Filepath} (l : list string) : list string :=
  (foldl (fun '(dict, adds) p =>
            let d := filepath_Dir p in
            if bool_decide (d ∈ dict) then (dict, adds ++ [p])
            else ({[ d ]} ∪ dict, adds ++ [d; p]))
         ((list_to_set l : gset string), []) l).2.

Definition watchFiles_summary (l : list string) : string :=
  if 10 <? Z.of_nat (length l) then Join (take 10 l ++ ["..."]) " "
  else Join l " ".

Definition watchFiles `{Filepath} `{Walking} `{Color}
    (ctx : GuardContext) (matcher : Matcher) (d : string)
    : list Effect * option error :=
  match Glob (elems (patterns ctx)) d matcher with
  | inr err => ([], Some err)
  | inl l =>
      (map EAdd (watchFiles_adds l)
         ++ [ELogWatched (Z.of_nat (length l))
               (kit_C (watchFiles_summary l) "green")],
       None)
  end.

(** *** [Do]: the event loop *)

(** What the loop observes while it serves one event: the clock read by
    [time.Since], the clock read by the [time.Now()] that follows, and
    whether [execCtxClone.GetCmd()] is non-nil. *)
Record Obs : Type := mkObs {
  now_since : Time;
  now_set : Time;
  cmd_started : bool
}.

(** What the [select] of the loop receives. *)
Inductive Msg : Type :=
| OnEvent (e : Event) (o : Obs)
| OnError (err : error)
| OnClosed.

(** The debounce interval the loop works with. *)
Definition Do_debounce (ctx : GuardContext) : Duration :=
  match debounce ctx with
  | None => Millisecond * 300
  | Some d => d
  end.

Definition Do_interval (ctx : GuardContext) : Duration :=
  match interval ctx with
  | None => Millisecond * 300
  | Some d => d
  end.

(** The case [e := <-ctx.watcher.Event]: the new [lastRun] and the effects
    of this turn. *)
Definition on_event `{Filepath} `{Walking} `{Color}
    (ctx : GuardContext) (matcher : Matcher) (d : Duration)
    (lastRun : Time) (e : Event) (o : Obs) : Time * list Effect :=
  let '(matched, err) := matcher (Path e) (IsDir e) in
  let logged := match err with Some x => [EErr x] | None => [] end in
  if negb matched then (lastRun, logged)
  else if Since (now_since o) lastRun <? d then (now_set o, logged)
  else
    let created :=
      if bool_decide (Op_ e = Create) then
        if IsDir e then
          match watchFiles ctx matcher (Path e) with
          | (eff, Some x) => eff ++ [EErr x]
          | (eff, None) => eff
          end
        else [EAdd (Path e)]
      else [] in
    let killed := if cmd_started o then [EKillTree; EAwait] else [] in
    (now_set o, logged ++ [ELogEvent e] ++ created ++ killed ++ [EGoRun e]).

(** The loop, fed with the messages its [select] receives; it returns when
    the watcher is closed.  [lastRun] starts as the zero time. *)
Fixpoint event_loop `{Filepath} `{Walking} `{Color}
    (ctx : GuardContext) (matcher : Matcher) (d : Duration)
    (lastRun : Time) (msgs : list Msg) : Time * list Effect :=
  match msgs with
  | [] => (lastRun, [])
  | OnEvent e o :: rest =>
      let '(lastRun', eff) := on_event ctx matcher d lastRun e o in
      let '(final, effs) := event_loop ctx matcher d lastRun' rest in
      (final, eff ++ effs)
  | OnError err :: rest =>
      let '(final, effs) := event_loop ctx matcher d lastRun rest in
      (final, ELogError err :: effs)
  | OnClosed :: _ => (lastRun, [])
  end.

(** The loop as [Do] starts it: on the context with the defaults in place,
    with its debounce interval, and with the zero time as the time of the
    last run. *)
Definition Do_event_loop `{Filepath} `{Walking} `{Color}
    (ctx0 : GuardContext) (matcher : Matcher) (msgs : list Msg)
    : Time * list Effect :=
  let ctx := Do_defaults ctx0 in
  event_loop ctx matcher (Do_debounce ctx) Time.zero msgs.

(** The restarts of a trace: its [go run(&e)] entries. *)
Definition is_restart (x : Effect) : bool :=
  match x with EGoRun _ => true | _ => false end.

Definition restarts (t : list Effect) : Z :=
  Z.of_nat (length (filter (fun x => is_restart x = true) t)).

(** *** [Do]: what it returns *)

Definition Do `{Filepath} `{Walking} `{Color}
    (ctx0 : GuardContext) : option error :=
  let ctx := Do_defaults ctx0 in
  match NewMatcher (dir ctx) (elems (patterns ctx)) with
  | inr err => Some err
  | inl matcher =>
      match watchFiles ctx matcher (dir ctx) with
      | (_, Some err) => Some err
      | (_, None) => watcher_Start (Do_interval ctx)
      end
  end.

(** The initial run of [Do]: [go run(nil)], with the defaults in place.  It
    is reached when the patterns compile and the first walk succeeds, for
    [Do] returns before it otherwise, and unless [noInitRun] is set. *)
Definition Do_initial_run `{Filepath} `{Mustache} `{Walking} `{Color}
    (ctx0 : GuardContext) : option Run :=
  let ctx := Do_defaults ctx0 in
  match NewMatcher (dir ctx) (elems (patterns ctx)) with
  | inr _ => None
  | inl matcher =>
      match watchFiles ctx matcher (dir ctx) with
      | (_, Some _) => None
      | (_, None) => if noInitRun ctx then None else Some (run ctx None).2
      end
  end.

(** Modelled from the spec: [MustDo], the panicking variant of [Do], which
    is declared outside the sources at hand; like [ReqContext.MustDo] it
    hands the error of [Do] to [E], which panics on it. *)
Definition MustDo `{Filepath} `{Walking} `{Color}
    (ctx : GuardContext) : outcome unit :=
  match Do ctx with
  | Some err => Panic err
  | None => Ret tt
  end.

End Gokit.

(** ** pkg/exec/exec_unix.go: the output loop of the child runner *)
Module PkgExec.

(** A rune is a Unicode code point. *)
Definition rune : Type := Z.

Definition newline_rune : rune := 10.

(** One [Stdout.Write]: the prefix, or the encoding of a rune. *)
Inductive Chunk : Type :=
| WPrefix (p : string)
| WRune (r : rune).

(** The loop of [run] over the runes [reader.ReadRune] delivers.  When the
    read fails (the input is exhausted) [r] is the zero rune; it is written
    and the loop is left. *)
Fixpoint output_loop (prefix : string) (newline : bool) (input : list rune)
    : list Chunk :=
  match input with
  | [] => [WRune 0]
  | r :: rest =>
      let '(w1, newline) :=
        if newline then ([WPrefix prefix], false) else ([], newline) in
      let newline := if r =? newline_rune then true else newline in
      w1 ++ [WRune r] ++ output_loop prefix newline rest
  end.

(** The writes of [run]: [newline] starts as [true]. *)
Definition run_output (prefix : string) (input : list rune) : list Chunk :=
  output_loop prefix true input.

(** [[]byte(string(r))]: the UTF-8 encoding of a rune, the replacement
    character standing in for what is not a code point. *)
Definition RuneError : rune := 65533.

Definition encode_valid (r : rune) : list Z :=
  if r <? 128 then [r]
  else if r <? 2048 then
    [Z.lor 192 (Z.shiftr r 6); Z.lor 128 (Z.land r 63)]
  else if r <? 65536 then
    [Z.lor 224 (Z.shiftr r 12); Z.lor 128 (Z.land (Z.shiftr r 6) 63);
     Z.lor 128 (Z.land r 63)]
  else
    [Z.lor 240 (Z.shiftr r 18); Z.lor 128 (Z.land (Z.shiftr r 12) 63);
     Z.lor 128 (Z.land (Z.shiftr r 6) 63); Z.lor 128 (Z.land r 63)].

Definition rune_bytes (r : rune) : list Z :=
  if (r <? 0) || (1114111 <? r) || ((55296 <=? r) && (r <=? 57343))
  then encode_valid RuneError
  else encode_valid r.

Definition chunk_bytes (c : Chunk) : list Z :=
  match c with
  | WPrefix p => bytes p
  | WRune r => rune_bytes r
  end.

(** The bytes that reach standard output. *)
Definition run_bytes (prefix : string) (input : list rune) : list Z :=
  concat (map chunk_bytes (run_output prefix input)).

End PkgExec.

(** ** cmd/guard/main.go: the command line *)
Module Main.

Record options : Type := mkOptions {
  patterns : slice string;
  dir : string;
  cmd : slice string;
  prefix : string;
  clearScreen : bool;
  noInitRun : bool;
  raw : bool;
  poll : Time.Duration;
  debounce : Time.Duration
}.

(** What [app.Parse(args)] of the kingpin application built in [genOptions]
    comes to: the flag values (with [cmd] still nil), an error, or the end
    of the process with status 0 once help or the version is printed. *)
Inductive Parsed : Type :=
| Flags (o : options)
| ParseError (err : error)
| Terminated.

Class Kingpin : Type := {
  kingpin_Parse : list string -> Parsed
}.

Definition filterEmpty (l : list string) : list string :=
  foldl (fun newList el =>
           if bool_decide (el ≠ "") then newList ++ [el] else newList)
        [] l.

(** [indexOf], the loop started at index [i]. *)
Fixpoint indexOf_from (i : Z) (l : list string) (str : string) : Z :=
  match l with
  | [] => -1
  | elem :: rest =>
      if bool_decide (elem = str) then i else indexOf_from (i + 1) rest str
  end.

Definition indexOf (l : list string) (str : string) : Z := indexOf_from 0 l str.

(** [parseArgs]: the command is nil when there is no ["--"]. *)
Definition parseArgs (a : list string) : list string * slice string :=
  let i := indexOf a "--" in
  if i =? -1 then (a, None)
  else (take (Z.to_nat i) a, Some (drop (Z.to_nat (i + 1)) a)).

(** [len(elem) > 1 && elem[0] == '@']. *)
Definition is_config_ref (elem : string) : bool :=
  match elem with
  | String c (String _ _) => Ascii.eqb c "@"
  | _ => false
  end.

(** [elem[1:]]. *)
Definition tail1 (elem : string) : string :=
  match elem with
  | String _ rest => rest
  | EmptyString => EmptyString
  end.

Fixpoint argsFromConfigFile_loop `{Files}
    (a : list string) (rest : list string) : list string :=
  match rest with
  | [] => a
  | elem :: rest' =>
      if is_config_ref elem then
        match kit_ReadFile (tail1 elem) with
        | inr _ => a
        | inl f => Regexp.Split f
        end
      else argsFromConfigFile_loop a rest'
  end.

Definition argsFromConfigFile `{Files} (a : list string) : list string :=
  argsFromConfigFile_loop a a.

(** [genPrefix]; [args[0]] panics on an empty command. *)
Definition genPrefix `{Color} (p : string) (a : list string) : outcome string :=
  if bool_decide (p = "auto") then
    let h := Fnv.Sum32a (bytes (Join a "")) in
    match a with
    | [] => Panic "runtime error: index out of range [0] with length 0"
    | a0 :: _ => Ret (kit_C (a0 +:+ " | ") (Sprint_uint (h mod 256)))
    end
  else Ret p.

(** [split]; the separator compared with is the literal ["---"]. *)
Definition split (a : list string) (sep : string) : list (list string) :=
  let '(l, tmp) :=
    foldl (fun '(l, tmp) arg =>
             if bool_decide (arg = "---") then (l ++ [tmp], [])
             else (l, tmp ++ [arg]))
          ([], []) a in
  l ++ [tmp].

Definition genOptions `{Kingpin} (a : list string) : outcome options :=
  let '(appArgs, cmdArgs) := parseArgs a in
  match kingpin_Parse appArgs with
  | Terminated => Exit 0
  | ParseError err => Panic err
  | Flags opts =>
      match cmdArgs with
      | None => Panic "empty command"
      | Some c =>
          Ret {| patterns := patterns opts; dir := dir opts; cmd := Some c;
                 prefix := prefix opts; clearScreen := clearScreen opts;
                 noInitRun := noInitRun opts; raw := raw opts;
                 poll := poll opts; debounce := debounce opts |}
      end
  end.

(** The supervisor one option set is turned into, as the closure in [main]
    builds it. *)
Definition guard_of `{Color} (opts : options) : outcome Gokit.GuardContext :=
  p ← genPrefix (prefix opts) (elems (cmd opts));
  let guard :=
    Gokit.ExecCtx
      (Some (Gokit.Exec_Prefix p (Gokit.Exec_Raw (Gokit.Exec_Dir (dir opts) Gokit.Exec))))
      (Gokit.Interval (Some (poll opts))
         (Gokit.Debounce (Some (debounce opts))
            (Gokit.Patterns (Some (filterEmpty (elems (patterns opts))))
               (Gokit.Guard (elems (cmd opts)))))) in
  let guard := if clearScreen opts then Gokit.ClearScreen guard else guard in
  let guard := if noInitRun opts then Gokit.NoInitRun guard else guard in
  Ret guard.

(** One of the functions handed to [kit.All]. *)
Definition supervise `{Color} `{Filepath} `{Gokit.Walking}
    (opts : options) : outcome unit :=
  guard ← guard_of opts;
  Gokit.MustDo guard.

(** Modelled from the spec: [kit.All], declared outside the sources at
    hand, which runs the functions in parallel and returns when all have
    returned.  A panic in any of them ends the process; which one is
    reported when several panic is a matter of scheduling, the first in
    the list stands for it here. *)
Fixpoint All (fns : list (outcome unit)) : outcome unit :=
  match fns with
  | [] => Ret tt
  | f :: rest =>
      match f with
      | Ret _ => All rest
      | Panic m => Panic m
      | Exit c => Exit c
      end
  end.

(** [main], given [os.Args[1:]]. *)
Definition main `{Files} `{Kingpin} `{Color} `{Filepath} `{Gokit.Walking}
    (osArgs : list string) : outcome unit :=
  optsList ← mapM genOptions (split (argsFromConfigFile osArgs) "---");
  All (map supervise optsList).

(** The exit status of the process: 0 when [main] returns, 2 when a panic
    is not recovered (the Go runtime), the argument of [os.Exit]
    otherwise. *)
Definition exit_status (o : outcome unit) : Z :=
  match o with
  | Ret _ => 0
  | Panic _ => 2
  | Exit c => c
  end.

End Main.

(** ** A reference environment

    The interfaces above are instantiated by models of the libraries on a
    Unix system, to run the definitions on concrete inputs. *)
Module Reference.

(** *** path/filepath on Unix *)

(** The pieces of [s] between the occurrences of [sep]. *)
Fixpoint split_on (sep : ascii) (s cur : string) : list string :=
  match s with
  | EmptyString => [cur]
  | String c rest =>
      if Ascii.eqb c sep then cur :: split_on sep rest EmptyString
      else split_on sep rest (cur +:+ String c EmptyString)
  end.

Definition IsAbs (path : string) : bool :=
  match path with
  | String c _ => Ascii.eqb c "/"
  | EmptyString => false
  end.

(** One element of the path met by [Clean]; the elements kept so far are
    on [stack], the last one first. *)
Definition clean_step (rooted : bool) (stack : list string) (seg : string)
    : list string :=
  if bool_decide (seg = "") || bool_decide (seg = ".") then stack
  else if bool_decide (seg = "..") then
    match stack with
    | top :: below => if bool_decide (top = "..") then seg :: stack else below
    | [] => if rooted then [] else [seg]
    end
  else seg :: stack.

Definition Clean (path : string) : string :=
  let rooted := IsAbs path in
  let out := Join (reverse (foldl (clean_step rooted) [] (split_on "/" path ""))) "/" in
  if rooted then "/" +:+ out
  else if bool_decide (out = "") then "." else out.

(** [filepath.Join(wd, path)]. *)
Definition Join2 (wd path : string) : string :=
  if bool_decide (wd = "") then
    if bool_decide (path = "") then "" else Clean path
  else Clean (wd +:+ "/" +:+ path).

(** [filepath.Abs], when [os.Getwd] gives [getwd]. *)
Definition Abs (getwd : string + error) (path : string) : string * option error :=
  if IsAbs path then (Clean path, None)
  else match getwd with
       | inr err => ("", Some err)
       | inl wd => (Join2 wd path, None)
       end.

(** The elements of a cleaned path that [Rel] walks over. *)
Definition elements (p : string) : list string :=
  let l := split_on "/" p "" in
  if bool_decide (last l = Some "") then removelast l else l.

Fixpoint strip_common (b t : list string) : list string * list string :=
  match b, t with
  | x :: b', y :: t' =>
      if bool_decide (x = y) then strip_common b' t' else (b, t)
  | _, _ => (b, t)
  end.

Definition Rel (basepath targpath : string) : string * option error :=
  let base := Clean basepath in
  let targ := Clean targpath in
  if bool_decide (targ = base) then (".", None)
  else
    let base := if bool_decide (base = ".") then "" else base in
    if negb (Bool.eqb (IsAbs base) (IsAbs targ)) then
      ("", Some ("Rel: can't make " +:+ targpath +:+ " relative to " +:+ basepath))
    else
      let '(rb, rt) := strip_common (elements base) (elements targ) in
      match rb, rt with
      | ".." :: _, _ :: _ =>
          ("", Some ("Rel: can't make " +:+ targpath +:+ " relative to " +:+ basepath))
      | [], _ => (Join rt "/", None)
      | _ :: _, [] => (Join (replicate (length rb) "..") "/", None)
      | _ :: _, _ :: _ =>
          (Join (replicate (length rb) "..") "/" +:+ "/" +:+ Join rt "/", None)
      end.

(** [filepath.Dir]: the cleaned path up to its last separator. *)
Definition Dir (path : string) : string :=
  let l := split_on "/" path "" in
  match removelast l with
  | [] => Clean ""
  | front => Clean (Join front "/" +:+ "/")
  end.

(** *** mustache: templates made of text and variable tags *)

(** [template.HTMLEscape]: the five characters of HTML by their entities,
    the zero byte by the replacement character. *)
Fixpoint HTMLEscape (s : string) : string :=
  match s with
  | EmptyString => EmptyString
  | String c rest =>
      (if Ascii.eqb c "000" then String "239" (String "191" (String "189" ""))
       else if Ascii.eqb c "034" then "&#34;"
       else if Ascii.eqb c "'" then "&#39;"
       else if Ascii.eqb c "&" then "&amp;"
       else if Ascii.eqb c "<" then "&lt;"
       else if Ascii.eqb c ">" then "&gt;"
       else String c EmptyString) +:+ HTMLEscape rest
  end.

Definition is_space (c : ascii) : bool :=
  Ascii.eqb c " " || Ascii.eqb c "009" || Ascii.eqb c "010"
  || Ascii.eqb c "011" || Ascii.eqb c "012" || Ascii.eqb c "013".

Fixpoint trim_left (s : string) : string :=
  match s with
  | String c rest => if is_space c then trim_left rest else s
  | EmptyString => EmptyString
  end.

Definition TrimSpace (s : string) : string :=
  String.rev (trim_left (String.rev (trim_left s))).

(** The first byte of a tag that is not a variable tag. *)
Definition is_sigil (c : ascii) : bool :=
  Ascii.eqb c "!" || Ascii.eqb c "#" || Ascii.eqb c "^" || Ascii.eqb c "/"
  || Ascii.eqb c ">" || Ascii.eqb c "=" || Ascii.eqb c "{" || Ascii.eqb c "&".

(** What a closed tag with inner text [inner] renders to: the escaped
    value of the variable it names, nothing when the context has none.  A
    tag that is not a variable tag is left as it is written. *)
Definition render_tag (ctx : gmap string string) (inner : string) : string :=
  match TrimSpace inner with
  | EmptyString => "{{" +:+ inner +:+ "}}"
  | String c _ as name =>
      if is_sigil c then "{{" +:+ inner +:+ "}}"
      else match ctx !! name with
           | Some v => HTMLEscape v
           | None => ""
           end
  end.

(** The renderer: [tag] is [None] in text, and holds the inner text read
    so far inside a tag.  A tag left open is put out as it is written. *)
Fixpoint render (ctx : gmap string string) (s : string) (tag : option string)
    : string :=
  match tag, s with
  | None, String "{" (String "{" rest) => render ctx rest (Some "")
  | None, String c rest => String c (render ctx rest None)
  | None, EmptyString => EmptyString
  | Some inner, String "}" (String "}" rest) =>
      render_tag ctx inner +:+ render ctx rest None
  | Some inner, String c rest =>
      render ctx rest (Some (inner +:+ String c EmptyString))
  | Some inner, EmptyString => "{{" +:+ inner
  end.

Definition Render (template : string) (ctx : gmap string string) : string :=
  render ctx template None.

(** *** Decimal numbers *)

Definition digit (c : ascii) : option Z :=
  let n := Z.of_N (N_of_ascii c) in
  if (48 <=? n) && (n <=? 57) then Some (n - 48) else None.

(** The number the leading digits of [s] write after [acc], and what is
    left of [s]. *)
Fixpoint number (s : string) (acc : Z) : Z * string :=
  match s with
  | String c rest =>
      match digit c with
      | Some d => number rest (acc * 10 + d)
      | None => (acc, s)
      end
  | EmptyString => (acc, s)
  end.

Fixpoint all_digits (s : string) : bool :=
  match s with
  | String c rest => bool_decide (is_Some (digit c)) && all_digits rest
  | EmptyString => true
  end.

(** *** kit.C: the text between the escape sequences of the colour

    [kit.C] colours the text with the ansi library: a colour written as a
    number is one of the 256 colours, a name is one of the eight colours of
    the terminal (an unknown name the first of them), and the reset
    sequence ends the text.  Styles and background colours are outside
    this model. *)
Definition colour_of_name (name : string) : Z :=
  if bool_decide (name = "red") then 1
  else if bool_decide (name = "green") then 2
  else if bool_decide (name = "yellow") then 3
  else if bool_decide (name = "blue") then 4
  else if bool_decide (name = "magenta") then 5
  else if bool_decide (name = "cyan") then 6
  else if bool_decide (name = "white") then 7
  else if bool_decide (name = "default") then 9
  else 0.

Definition colour_code (color : string) : string :=
  if all_digits color && negb (bool_decide (color = ""))
  then "38;5;" +:+ Sprint_uint (number color 0).1
  else "3" +:+ Sprint_uint (colour_of_name color).

Definition C (text color : string) : string :=
  String "027" ("[" +:+ colour_code color +:+ "m" +:+ text) +:+ String "027" "[0m".

(** *** kingpin: the flags of [genOptions], each token on its own *)

Definition unit_of (u : string) : option Z :=
  if bool_decide (u = "ns") then Some 1
  else if bool_decide (u = "us") then Some 1000
  else if bool_decide (u = "ms") then Some 1000000
  else if bool_decide (u = "s") then Some 1000000000
  else if bool_decide (u = "m") then Some 60000000000
  else if bool_decide (u = "h") then Some 3600000000000
  else None.

(** [time.ParseDuration] on ["0"] and on a decimal count followed by one
    unit; a duration that does not fit 64 bits is an error.  Signs,
    fractions and durations of several components are outside this model,
    which reports them as errors. *)
Definition ParseDuration (s : string) : option Z :=
  if bool_decide (s = "0") then Some 0
  else
    match s with
    | String c _ =>
        match digit c with
        | Some _ =>
            let '(n, u) := number s 0 in
            match unit_of u with
            | Some k => if n * k <=? Time.maxDuration then Some (n * k) else None
            | None => None
            end
        | None => None
        end
    | EmptyString => None
    end.

(** The values of the flags when none is given. *)
Definition flag_defaults : Main.options :=
  {| Main.patterns := None; Main.dir := ""; Main.cmd := None;
     Main.prefix := "auto"; Main.clearScreen := false;
     Main.noInitRun := false; Main.raw := false;
     Main.poll := Time.Millisecond * 300;
     Main.debounce := Time.Millisecond * 300 |}.

Definition set_patterns (v : string) (o : Main.options) : Main.options :=
  {| Main.patterns := Some (elems (Main.patterns o) ++ [v]);
     Main.dir := Main.dir o; Main.cmd := Main.cmd o;
     Main.prefix := Main.prefix o; Main.clearScreen := Main.clearScreen o;
     Main.noInitRun := Main.noInitRun o; Main.raw := Main.raw o;
     Main.poll := Main.poll o; Main.debounce := Main.debounce o |}.

Definition set_dir (v : string) (o : Main.options) : Main.options :=
  {| Main.patterns := Main.patterns o; Main.dir := v; Main.cmd := Main.cmd o;
     Main.prefix := Main.prefix o; Main.clearScreen := Main.clearScreen o;
     Main.noInitRun := Main.noInitRun o; Main.raw := Main.raw o;
     Main.poll := Main.poll o; Main.debounce := Main.debounce o |}.

Definition set_prefix (v : string) (o : Main.options) : Main.options :=
  {| Main.patterns := Main.patterns o; Main.dir := Main.dir o;
     Main.cmd := Main.cmd o; Main.prefix := v;
     Main.clearScreen := Main.clearScreen o;
     Main.noInitRun := Main.noInitRun o; Main.raw := Main.raw o;
     Main.poll := Main.poll o; Main.debounce := Main.debounce o |}.

Definition set_bools (c n r : bool) (o : Main.options) : Main.options :=
  {| Main.patterns := Main.patterns o; Main.dir := Main.dir o;
     Main.cmd := Main.cmd o; Main.prefix := Main.prefix o;
     Main.clearScreen := c || Main.clearScreen o;
     Main.noInitRun := n || Main.noInitRun o; Main.raw := r || Main.raw o;
     Main.poll := Main.poll o; Main.debounce := Main.debounce o |}.

Definition set_durations (p d : option Z) (o : Main.options) : Main.options :=
  {| Main.patterns := Main.patterns o; Main.dir := Main.dir o;
     Main.cmd := Main.cmd o; Main.prefix := Main.prefix o;
     Main.clearScreen := Main.clearScreen o;
     Main.noInitRun := Main.noInitRun o; Main.raw := Main.raw o;
     Main.poll := default (Main.poll o) p;
     Main.debounce := default (Main.debounce o) d |}.

(** The flag a token names, and whether that flag takes a value. *)
Definition flag_of (f : string) : option (string * bool) :=
  if bool_decide (f ∈ ["-w"; "--watch"]) then Some ("watch", true)
  else if bool_decide (f ∈ ["-d"; "--dir"]) then Some ("dir", true)
  else if bool_decide (f ∈ ["-p"; "--prefix"]) then Some ("prefix", true)
  else if bool_decide (f = "--poll") then Some ("poll", true)
  else if bool_decide (f = "--debounce") then Some ("debounce", true)
  else if bool_decide (f ∈ ["-c"; "--clear-screen"]) then Some ("clear-screen", false)
  else if bool_decide (f ∈ ["-n"; "--no-init-run"]) then Some ("no-init-run", false)
  else if bool_decide (f = "--raw") then Some ("raw", false)
  else None.

(** A token that reads as a flag, and so is no value of the flag before
    it. *)
Definition is_flag_token (v : string) : bool :=
  match v with
  | String c _ => Ascii.eqb c "-"
  | EmptyString => false
  end.

Definition unknown_token (f : string) : error :=
  match f with
  | String "-" (String "-" _) => "unknown long flag '" +:+ f +:+ "'"
  | String "-" _ => "unknown short flag '" +:+ f +:+ "'"
  | _ => "unexpected " +:+ f
  end.

(** The first pass of the parser, over flags written as separate tokens
    ([-w x], [--watch x], [-c], ...): the flags with their values, in the
    order of the command line.  [--help] and [--version] end the process
    where they are met.  The other spellings kingpin accepts (a value
    joined by [=], short flags run together, arguments read from a file)
    are outside this model, which reports them as errors. *)
Fixpoint flag_elements (a : list string) (acc : list (string * string))
    : list (string * string) + Main.Parsed :=
  match a with
  | [] => inl acc
  | f :: rest =>
      if bool_decide (f = "--help") || bool_decide (f = "--version")
      then inr Main.Terminated
      else
        match flag_of f with
        | None => inr (Main.ParseError (unknown_token f))
        | Some (name, false) => flag_elements rest (acc ++ [(name, "true")])
        | Some (name, true) =>
            match rest with
            | [] =>
                inr (Main.ParseError ("expected argument for flag '" +:+ f +:+ "'"))
            | v :: rest' =>
                if is_flag_token v
                then inr (Main.ParseError
                            ("expected argument for flag '" +:+ f +:+ "'"))
                else flag_elements rest' (acc ++ [(name, v)])
            end
        end
  end.

(** The value of one flag put into the options. *)
Definition set_flag (name v : string) (o : Main.options) : Main.options + error :=
  if bool_decide (name = "watch") then inl (set_patterns v o)
  else if bool_decide (name = "dir") then inl (set_dir v o)
  else if bool_decide (name = "prefix") then inl (set_prefix v o)
  else if bool_decide (name = "poll") then
    match ParseDuration v with
    | Some d => inl (set_durations (Some d) None o)
    | None => inr ("time: invalid duration " +:+ v)
    end
  else if bool_decide (name = "debounce") then
    match ParseDuration v with
    | Some d => inl (set_durations None (Some d) o)
    | None => inr ("time: invalid duration " +:+ v)
    end
  else if bool_decide (name = "clear-screen") then inl (set_bools true false false o)
  else if bool_decide (name = "no-init-run") then inl (set_bools false true false o)
  else inl (set_bools false false true o).

(** The second pass: the values are set one after the other; of the flags
    only [--watch] may be given more than once. *)
Fixpoint set_values (els : list (string * string)) (seen : list string)
    (o : Main.options) : Main.Parsed :=
  match els with
  | [] => Main.Flags o
  | (name, v) :: rest =>
      if bool_decide (name ∈ seen) && negb (bool_decide (name = "watch"))
      then Main.ParseError ("flag '" +:+ name +:+ "' cannot be repeated")
      else
        match set_flag name v o with
        | inl o' => set_values rest (name :: seen) o'
        | inr err => Main.ParseError err
        end
  end.

Definition Parse (a : list string) (o : Main.options) : Main.Parsed :=
  match flag_elements a [] with
  | inl els => set_values els [] o
  | inr ended => ended
  end.

(** *** The instances *)

(** The process runs in [/home/u/proj]. *)
Definition filepath : Filepath :=
  {| filepath_Abs := Abs (inl "/home/u/proj");
     filepath_Rel := Rel;
     filepath_Dir := Dir;
     filepath_Rel_same :=
       ltac:(intros p; unfold Rel; cbv zeta;
             rewrite bool_decide_eq_true_2 by reflexivity; reflexivity) |}.

Definition mustache : Mustache := {| mustache_Render := Render |}.

Definition color : Color := {| kit_C := C |}.

(** A file system with the one file [guard.conf]. *)
Definition files : Files :=
  {| kit_ReadFile := fun p =>
       if bool_decide (p = "guard.conf")
       then inl ("-w" +:+ String "010" ("*.go" +:+ String "010" ("--"
                 +:+ String "010" ("go" +:+ String "010" "test"))))
       else inr ("open " +:+ p +:+ ": no such file or directory") |}.

Definition kingpin : Main.Kingpin :=
  {| Main.kingpin_Parse := fun a => Parse a flag_defaults |}.

(** A world in which every pattern list compiles to a matcher that admits
    every path, the walk lists nothing, and the watcher, once closed,
    returns [start]. *)
Definition walking (start : option error) : Gokit.Walking :=
  {| Gokit.NewMatcher := fun _ _ => inl (fun _ _ => (true, None));
     Gokit.Glob := fun _ _ _ => inl [];
     Gokit.watcher_Start := fun _ => start |}.

(** A world in which the pattern list does not compile. *)
Definition walking_bad_pattern : Gokit.Walking :=
  {| Gokit.NewMatcher := fun _ _ => inr "syntax error in pattern";
     Gokit.Glob := fun _ _ _ => inl [];
     Gokit.watcher_Start := fun _ => None |}.

(** *** A supervisor and an event to run the definitions on *)

(** [guard -- echo {{op}} {{path}}], as [Guard] builds it. *)
Definition guard_echo : Gokit.GuardContext :=
  @Gokit.Guard color ["echo"; "{{op}}"; "{{path}}"].

(** The matcher of the world [walking]. *)
Definition match_all : Gokit.Matcher := fun _ _ => (true, None).

(** An instant of the year 2026. *)
Definition now : Time.Time := 63929000000000000000.

(** A write to [sub/b.txt] under the current directory. *)
Definition write_b : Watcher.Event :=
  {| Watcher.Op_ := Watcher.Write; Watcher.Path := "/home/u/proj/sub/b.txt";
     Watcher.OldPath := ""; Watcher.IsDir := false |}.

End Reference.


(** ** The notions the properties are stated with *)
Module Spec.

(** The quotient of [a] by [b], rounded up. *)
Definition ceil_div (a b : Z) : Z := (a + b - 1) / b.

(** A run of events, each with what the loop observes while serving it. *)
Definition events (evs : list (Watcher.Event * Gokit.Obs)) : list Gokit.Msg :=
  map (fun eo => Gokit.OnEvent eo.1 eo.2) evs.

(** The observation of an event served at the instant [t]. *)
Definition at_time (t : Time.Time) (started : bool) : Gokit.Obs :=
  {| Gokit.now_since := t; Gokit.now_set := t; Gokit.cmd_started := started |}.

(** The clock does not run backwards: within the service of an event, and
    from one event to the next. *)
Fixpoint clock_ordered (l : list Gokit.Obs) : Prop :=
  match l with
  | [] => True
  | o :: rest =>
      Gokit.now_since o <= Gokit.now_set o
      /\ match rest with
         | [] => True
         | o' :: _ => Gokit.now_set o <= Gokit.now_since o'
         end
      /\ clock_ordered rest
  end.

(** Every event of the run is admitted by the matcher. *)
Definition all_matched (matcher : Gokit.Matcher)
    (evs : list (Watcher.Event * Gokit.Obs)) : Prop :=
  Forall (fun eo => (matcher (Watcher.Path eo.1) (Watcher.IsDir eo.1)).1 = true) evs.

(** The effects of a served event up to its [go run(&e)]. *)
Definition served_before `{Filepath} `{Gokit.Walking} `{Color}
    (ctx : Gokit.GuardContext) (matcher : Gokit.Matcher)
    (e : Watcher.Event) (o : Gokit.Obs) (err : option error)
    : list Gokit.Effect :=
  match err with Some x => [Gokit.EErr x] | None => [] end
  ++ [Gokit.ELogEvent e]
  ++ (if bool_decide (Watcher.Op_ e = Watcher.Create) then
        if Watcher.IsDir e then
          match Gokit.watchFiles ctx matcher (Watcher.Path e) with
          | (eff, Some x) => eff ++ [Gokit.EErr x]
          | (eff, None) => eff
          end
        else [Gokit.EAdd (Watcher.Path e)]
      else [])
  ++ (if Gokit.cmd_started o then [Gokit.EKillTree; Gokit.EAwait] else []).

(** A line that its newline ends, and a last line that lacks one. *)
Definition terminated (l : list PkgExec.rune) : Prop :=
  exists body, (PkgExec.newline_rune ∉ body) /\ l = body ++ [PkgExec.newline_rune].

Definition unterminated (l : list PkgExec.rune) : Prop :=
  l <> [] /\ PkgExec.newline_rune ∉ l.

(** The lines of an input, in the words of the specification: maximal runs
    that a newline ends, and what is left at the end of the input. *)
Inductive line_split : list PkgExec.rune -> list (list PkgExec.rune) -> Prop :=
| split_nil : line_split [] []
| split_last (l : list PkgExec.rune) :
    unterminated l -> line_split l [l]
| split_cons (l rest : list PkgExec.rune) (ls : list (list PkgExec.rune)) :
    terminated l -> line_split rest ls -> line_split (l ++ rest) (l :: ls).

(** The same lines, computed. *)
Fixpoint lines (input : list PkgExec.rune) : list (list PkgExec.rune) :=
  match input with
  | [] => []
  | r :: rest =>
      if r =? PkgExec.newline_rune then [r] :: lines rest
      else match lines rest with
           | [] => [[r]]
           | l :: ls => (r :: l) :: ls
           end
  end.

(** Every line behind the prefix. *)
Definition prefixed (prefix : string) (input : list PkgExec.rune)
    : list PkgExec.Chunk :=
  concat (map (fun line => PkgExec.WPrefix prefix :: map PkgExec.WRune line)
              (lines input)).

(** The writes of the loop of [run] for the runes of the child: all but the
    write that follows the failed read. *)
Fixpoint emitted (prefix : string) (newline : bool) (input : list PkgExec.rune)
    : list PkgExec.Chunk :=
  match input with
  | [] => []
  | r :: rest =>
      (if newline then [PkgExec.WPrefix prefix] else [])
      ++ PkgExec.WRune r :: emitted prefix (r =? PkgExec.newline_rune) rest
  end.

(** In a sequence of writes, a write is the prefix exactly when the write
    before it is a newline. *)
Definition prefix_follows_newline (prefix : string) (l : list PkgExec.Chunk) : Prop :=
  forall xs a b ys,
    l = xs ++ a :: b :: ys ->
    (b = PkgExec.WPrefix prefix <-> a = PkgExec.WRune PkgExec.newline_rune).

(** The same, the last write set apart: a write is the prefix exactly when
    the write before it is a newline and a further write follows it. *)
Definition prefix_starts_line (prefix : string) (l : list PkgExec.Chunk) : Prop :=
  forall xs a b ys,
    l = xs ++ a :: b :: ys ->
    (b = PkgExec.WPrefix prefix
     <-> a = PkgExec.WRune PkgExec.newline_rune /\ ys <> []).

(** The path the templates receive for an event: the event's path made
    absolute, relative to the working directory made absolute. *)
Definition rel_path `{Filepath} (ctx_dir : string) (e : Watcher.Event) : string :=
  (filepath_Rel (filepath_Abs ctx_dir).1 (filepath_Abs (Watcher.Path e)).1).1.

(** The substitution map the templates of a run are rendered with. *)
Definition substitution `{Filepath} (ctx_dir : string) (e : Watcher.Event)
    : gmap string string :=
  {[ "path" := rel_path ctx_dir e; "op" := Watcher.Op_String (Watcher.Op_ e) ]}.

(** Letters of the ASCII alphabet in the other case. *)
Definition lower (c : ascii) : ascii :=
  let n := N_of_ascii c in
  if ((65 <=? n) && (n <=? 90))%N then ascii_of_N (n + 32) else c.

Definition upper (c : ascii) : ascii :=
  let n := N_of_ascii c in
  if ((97 <=? n) && (n <=? 122))%N then ascii_of_N (n - 32) else c.

Fixpoint map_string (f : ascii -> ascii) (s : string) : string :=
  match s with
  | EmptyString => EmptyString
  | String c rest => String (f c) (map_string f rest)
  end.

Definition ToLower (s : string) : string := map_string lower s.
Definition ToUpper (s : string) : string := map_string upper s.

(** [s] without the prefix [old], when it has it. *)
Fixpoint strip_prefix (old s : string) : option string :=
  match old, s with
  | EmptyString, _ => Some s
  | String a old', String b s' =>
      if Ascii.eqb a b then strip_prefix old' s' else None
  | String _ _, EmptyString => None
  end.

(** [s] with every occurrence of the non-empty [old] replaced by [new],
    from left to right; [n] bounds the bytes still to be read. *)
Fixpoint replace_upto (n : nat) (old new s : string) : string :=
  match n with
  | O => s
  | S n' =>
      match strip_prefix old s with
      | Some rest => new +:+ replace_upto n' old new rest
      | None =>
          match s with
          | EmptyString => EmptyString
          | String c rest => String c (replace_upto n' old new rest)
          end
      end
  end.

Definition replace_all (old new s : string) : string :=
  replace_upto (S (String.length s)) old new s.

(** A token with its [{{path}}] and [{{op}}] replaced, in the words of the
    specification. *)
Definition substitute (path op token : string) : string :=
  replace_all "{{op}}" op (replace_all "{{path}}" path token).

End Spec.


(** ** Further notions the properties are stated with *)
Module More.

(** The partitions of a command line put together again, with the
    separator between them. *)
Fixpoint unsplit (parts : list (list string)) : list string :=
  match parts with
  | [] => []
  | [p] => p
  | p :: rest => p ++ "---" :: unsplit rest
  end.

(** [split] as a recursion over the arguments: [tmp] is the partition being
    read. *)
Fixpoint split_from (tmp : list string) (a : list string) : list (list string) :=
  match a with
  | [] => [tmp]
  | arg :: rest =>
      if bool_decide (arg = "---") then tmp :: split_from [] rest
      else split_from (tmp ++ [arg]) rest
  end.

(** A string with a line break in it. *)
Fixpoint has_break (s : string) : bool :=
  match s with
  | EmptyString => false
  | String c rest => Regexp.is_break c || has_break rest
  end.

(** A message the loop lets pass: an error of the watcher, or an event the
    matcher does not admit. *)
Definition passed_over (matcher : Gokit.Matcher) (m : Gokit.Msg) : Prop :=
  match m with
  | Gokit.OnEvent e _ => (matcher (Watcher.Path e) (Watcher.IsDir e)).1 = false
  | Gokit.OnError _ => True
  | Gokit.OnClosed => True
  end.

(** An effect that is a line of the log. *)
Definition is_log (x : Gokit.Effect) : bool :=
  match x with
  | Gokit.EErr _ | Gokit.ELogError _ => true
  | _ => false
  end.

(** Every event of a run is served less than [d] after the time recorded
    before it. *)
Fixpoint within (d : Time.Duration) (lastRun : Time.Time) (l : list Gokit.Obs) : Prop :=
  match l with
  | [] => True
  | o :: rest =>
      Time.Since (Gokit.now_since o) lastRun < d /\ within d (Gokit.now_set o) rest
  end.

(** Every event of a run is served at least [d] after the time recorded
    before it. *)
Fixpoint spaced (d : Time.Duration) (lastRun : Time.Time) (l : list Gokit.Obs) : Prop :=
  match l with
  | [] => True
  | o :: rest =>
      d <= Time.Since (Gokit.now_since o) lastRun /\ spaced d (Gokit.now_set o) rest
  end.

(** The time recorded after a run of matched events. *)
Definition last_set (lastRun : Time.Time) (l : list Gokit.Obs) : Time.Time :=
  match last l with
  | Some o => Gokit.now_set o
  | None => lastRun
  end.

(** In a trace, the child is killed only to be awaited and run again. *)
Definition kill_then_run (t : list Gokit.Effect) : Prop :=
  forall xs ys,
    t = xs ++ Gokit.EKillTree :: ys ->
    exists e ys', ys = Gokit.EAwait :: Gokit.EGoRun e :: ys'.

(** An effect that extends the watch set or reports on it. *)
Definition is_watch (x : Gokit.Effect) : bool :=
  match x with
  | Gokit.EAdd _ | Gokit.ELogWatched _ _ => true
  | _ => false
  end.

(** The runes and the prefixes among the writes of the output loop. *)
Definition runes_of (l : list PkgExec.Chunk) : list PkgExec.rune :=
  flat_map (fun c => match c with PkgExec.WRune r => [r] | PkgExec.WPrefix _ => [] end) l.

Definition prefixes_of (l : list PkgExec.Chunk) : list string :=
  flat_map (fun c => match c with PkgExec.WPrefix p => [p] | PkgExec.WRune _ => [] end) l.

(** The runs of a supervisor, one after the other: each starts from the
    context the one before it left. *)
Fixpoint runs `{Filepath} `{Mustache} (ctx : Gokit.GuardContext)
    (es : list (option Watcher.Event)) : list Gokit.Run :=
  match es with
  | [] => []
  | e :: rest => (Gokit.run ctx e).2 :: runs (Gokit.run ctx e).1 rest
  end.

(** The supervisor as these runs leave it. *)
Fixpoint after_runs `{Filepath} `{Mustache} (ctx : Gokit.GuardContext)
    (es : list (option Watcher.Event)) : Gokit.GuardContext :=
  match es with
  | [] => ctx
  | e :: rest => after_runs (Gokit.run ctx e).1 rest
  end.

(** A supervisor with another value of its counter. *)
Definition with_count (ctx : Gokit.GuardContext) (n : Z) : Gokit.GuardContext :=
  {| Gokit.args := Gokit.args ctx; Gokit.patterns := Gokit.patterns ctx;
     Gokit.dir := Gokit.dir ctx; Gokit.clearScreen := Gokit.clearScreen ctx;
     Gokit.interval := Gokit.interval ctx; Gokit.execCtx := Gokit.execCtx ctx;
     Gokit.debounce := Gokit.debounce ctx; Gokit.noInitRun := Gokit.noInitRun ctx;
     Gokit.prefix := Gokit.prefix ctx; Gokit.count := n |}.

(** The run of a supervisor for an event, when it is the run with number
    [n]. *)
Definition run_numbered `{Filepath} `{Mustache} (ctx : Gokit.GuardContext)
    (n : Z) (e : option Watcher.Event) : Gokit.Run :=
  {| Gokit.run_cleared := Gokit.clearScreen ctx;
     Gokit.run_count := n;
     Gokit.run_exec :=
       Gokit.Exec_Args (Gokit.unescapeArgs (Gokit.dir ctx) (Gokit.args ctx) e).1
         (Gokit.Exec_Dir (Gokit.dir ctx) (default Gokit.Exec (Gokit.execCtx ctx)));
     Gokit.run_logged := (Gokit.unescapeArgs (Gokit.dir ctx) (Gokit.args ctx) e).2 |}.

End More.

(** ** pkg/os/fs.go: files and directories *)
Module PkgOs.

(** The calls that change the file system, in the order they are made. *)
Inductive Call : Type :=
| MkdirAll (path : string) (perm : Z)
| WriteFile (p : string) (bin : string) (perm : Z)
| Rename (from to : string).

(** The operating system and the libraries [fs.go] calls: [os.Stat] (of the
    [os.FileInfo] only [IsDir] is asked), [os.MkdirAll], [ioutil.WriteFile],
    [os.Rename], [path.Dir] and [json.MarshalIndent] over the values that are
    neither bytes nor a string. *)
Class Sys : Type := {
  json_value : Type;
  os_Stat : string -> bool + error;
  os_MkdirAll : string -> Z -> option error;
  ioutil_WriteFile : string -> string -> Z -> option error;
  os_Rename : string -> string -> option error;
  path_Dir : string -> string;
  json_MarshalIndent : json_value -> string -> string -> string + error
}.

(** The [interface{}] handed to [OutputFile], by the cases of its type
    switch. *)
Inductive Data `{Sys} : Type :=
| Bytes (b : string)
| Str (s : string)
| Other (v : json_value).

Record MkdirOptions : Type := { perm : Z }.

Record OutputFileOptions : Type := {
  DirPerm : Z;
  FilePerm : Z;
  JSONPrefix : string;
  JSONIndent : string
}.

(** The permissions [0775] and [0664]. *)
Definition perm_0775 : Z := 7 * 64 + 7 * 8 + 5.
Definition perm_0664 : Z := 6 * 64 + 6 * 8 + 4.

Definition Mkdir `{Sys} (path : string) (options : option MkdirOptions)
    : list Call * option error :=
  let options :=
    match options with
    | None => {| perm := perm_0775 |}
    | Some o => o
    end in
  ([MkdirAll path (perm options)], os_MkdirAll path (perm options)).

Definition OutputFile `{Sys} (p : string) (data : Data)
    (options : option OutputFileOptions) : list Call * option error :=
  let options :=
    match options with
    | None => {| DirPerm := perm_0775; FilePerm := perm_0664;
                 JSONPrefix := ""; JSONIndent := "    " |}
    | Some o => o
    end in
  let dir := path_Dir p in
  let '(calls, err) := Mkdir dir (Some {| perm := DirPerm options |}) in
  match err with
  | Some e => (calls, Some e)
  | None =>
      let marshalled :=
        match data with
        | Bytes t => inl t
        | Str t => inl t
        | Other v => json_MarshalIndent v (JSONPrefix options) (JSONIndent options)
        end in
      match marshalled with
      | inr e => (calls, Some e)
      | inl bin =>
          (calls ++ [WriteFile p bin (FilePerm options)],
           ioutil_WriteFile p bin (FilePerm options))
      end
  end.

(** [Move]; the permission handed in is a [*os.FileMode]. *)
Definition Move `{Sys} (from to : string) (perm : option Z)
    : list Call * option error :=
  let '(calls, err) := Mkdir (path_Dir to) None in
  match err with
  | Some e => (calls, Some e)
  | None => (calls ++ [Rename from to], os_Rename from to)
  end.

Definition Exists `{Sys} (path : string) : bool :=
  match os_Stat path with
  | inl _ => true
  | inr _ => false
  end.

Definition FileExists `{Sys} (path : string) : bool :=
  match os_Stat path with
  | inr _ => false
  | inl isDir => if isDir then false else true
  end.

Definition DirExists `{Sys} (path : string) : bool :=
  match os_Stat path with
  | inr _ => false
  | inl isDir => if negb isDir then false else true
  end.

End PkgOs.

(** ** The request builder of the http package *)
Module PkgHttp.

(** An argument of type [interface{}]: a string, or a value of another
    type. *)
Inductive Param (V : Type) : Type :=
| PString (s : string)
| POther (v : V).
Arguments PString {V} s.
Arguments POther {V} v.

(** [ReqContext], of which the builders below use the headers: a list of
    two-element slices. *)
Record ReqContext : Type := mkReq {
  method : string;
  url : string;
  header : list (list string)
}.

Definition Req (u : string) : ReqContext :=
  {| method := ""; url := u; header := [] |}.

(** The loop of [Header]: [params[i+1]] is out of range when a key is left
    without value. *)
Fixpoint Header_loop (hs : list (list string)) (params : list string)
    : outcome (list (list string)) :=
  match params with
  | [] => Ret hs
  | [k] => Panic "runtime error: index out of range"
  | k :: v :: rest => Header_loop (hs ++ [[k; v]]) rest
  end.

(** [ctx.Header(params...)]; what a recovered panic would leave in the
    context is not kept. *)
Definition Header (params : list string) (ctx : ReqContext) : outcome ReqContext :=
  hs ← Header_loop (header ctx) params;
  Ret {| method := method ctx; url := url ctx; header := hs |}.

(** [paramsToForm] as the later source has it: every second argument is a
    key, a key must be a string and must have a value. *)
Fixpoint paramsToForm_loop {V : Type} (f : gmap string (Param V))
    (params : list (Param V)) : outcome (gmap string (Param V)) :=
  match params with
  | [] => Ret f
  | POther _ :: _ => Panic "interface conversion: interface {} is not string"
  | [PString k] => Panic "runtime error: index out of range"
  | PString k :: v :: rest => paramsToForm_loop (<[k := v]> f) rest
  end.

Definition paramsToForm {V : Type} (params : list (Param V))
    : outcome (gmap string (Param V)) :=
  paramsToForm_loop ∅ params.

(** [paramsToForm] as the earlier source has it: the loop stops before the
    last argument, so a key without value is left out. *)
Fixpoint paramsToForm_earlier_loop {V : Type} (f : gmap string (Param V))
    (params : list (Param V)) : outcome (gmap string (Param V)) :=
  match params with
  | [] => Ret f
  | [_] => Ret f
  | POther _ :: _ :: _ => Panic "interface conversion: interface {} is not string"
  | PString k :: v :: rest => paramsToForm_earlier_loop (<[k := v]> f) rest
  end.

Definition paramsToForm_earlier {V : Type} (params : list (Param V))
    : outcome (gmap string (Param V)) :=
  paramsToForm_earlier_loop ∅ params.

(** The arguments a list of key-value pairs is written as. *)
Definition flatten {V : Type} (pairs : list (string * Param V)) : list (Param V) :=
  flat_map (fun kv => [PString kv.1; kv.2]) pairs.

End PkgHttp.

(** ** Further worlds to run the definitions in *)
Module Worlds.

(** A matcher that admits no path. *)
Definition match_none : Gokit.Matcher := fun _ _ => (false, None).

(** A created file under the current directory. *)
Definition create_c : Watcher.Event :=
  {| Watcher.Op_ := Watcher.Create; Watcher.Path := "/home/u/proj/sub/c.txt";
     Watcher.OldPath := ""; Watcher.IsDir := false |}.

(** A file system on which every call succeeds, where [/srv/app] is a
    directory and every other path a file; no value is marshalled. *)
Definition sys : PkgOs.Sys :=
  {| PkgOs.json_value := Empty_set;
     PkgOs.os_Stat := fun p => inl (bool_decide (p = "/srv/app"));
     PkgOs.os_MkdirAll := fun _ _ => None;
     PkgOs.ioutil_WriteFile := fun _ _ _ => None;
     PkgOs.os_Rename := fun _ _ => None;
     PkgOs.path_Dir := Reference.Dir;
     PkgOs.json_MarshalIndent := fun v _ _ => match v with end |}.

End Worlds.


(** * Properties *)

(** ** Patterns: the default set and the filter of the command line *)

Section Patterns.
Context {K : Color}.

Lemma len_zero_cases {A : Type} (s : slice A) :
  len s = 0 <-> s = None \/ s = Some [].
Proof.
  unfold len, elems. split.
  - destruct s as [[|x l]|]; simpl; intros Hl; auto. lia.
  - intros [-> | ->]; reflexivity.
Qed.

Lemma Do_patterns_empty (ctx : Gokit.GuardContext) :
  len (Gokit.patterns ctx) = 0 ->
  Gokit.Do_patterns ctx = Some Gokit.GuardDefaultPatterns.
Proof.
  intros Hl. unfold Gokit.Do_patterns.
  destruct (Gokit.patterns ctx) as [ps|] eqn:E; [|reflexivity].
  rewrite Hl. reflexivity.
Qed.

Lemma Do_patterns_nonempty (ctx : Gokit.GuardContext) (p : string) (ps : list string) :
  Gokit.patterns ctx = Some (p :: ps) ->
  Gokit.Do_patterns ctx = Some (p :: ps).
Proof.
  intros E. unfold Gokit.Do_patterns. rewrite E.
  unfold len, elems. simpl. destruct (Z.eqb_spec (Z.pos (Pos.of_succ_nat (length ps))) 0); [lia | reflexivity].
Qed.

(** C6. When the supervisor is run with no patterns (the slice is nil, as
    [Guard] leaves it, or empty), the patterns [Do] works with, and hands to
    [NewMatcher], are exactly ["**"] followed by ["!g"]. *)
Theorem default_patterns_when_none (ctx : Gokit.GuardContext) :
  Gokit.patterns ctx = None \/ Gokit.patterns ctx = Some [] ->
  Gokit.Do_patterns ctx = Some ["**"; "!g"]
  /\ Gokit.patterns (Gokit.Do_defaults ctx) = Some ["**"; "!g"]
  /\ forall (F : Filepath) (W : Gokit.Walking),
       Gokit.Do ctx = Gokit.Do (Gokit.Patterns (Some ["**"; "!g"]) ctx).
Proof.
  intros Hnone. apply len_zero_cases in Hnone.
  pose proof (Do_patterns_empty ctx Hnone) as Hp.
  split; [exact Hp|]. split; [exact Hp|].
  intros F W. unfold Gokit.Do.
  replace (Gokit.Do_defaults (Gokit.Patterns (Some ["**"; "!g"]) ctx))
    with (Gokit.Do_defaults ctx); [reflexivity|].
  unfold Gokit.Do_defaults. rewrite Hp. reflexivity.
Qed.

Lemma filterEmpty_acc (acc l : list string) :
  foldl (fun newList el =>
           if bool_decide (el ≠ "") then newList ++ [el] else newList) acc l
  = acc ++ filter (fun el => el ≠ "") l.
Proof.
  revert acc. induction l as [|el l IH]; intros acc; simpl.
  - rewrite app_nil_r. reflexivity.
  - rewrite IH. rewrite filter_cons.
    destruct (decide (el ≠ "")) as [Hne|Heq].
    + rewrite bool_decide_eq_true_2 by exact Hne. rewrite <- app_assoc. reflexivity.
    + rewrite bool_decide_eq_false_2 by exact Heq. reflexivity.
Qed.

Lemma filterEmpty_filter (l : list string) :
  Main.filterEmpty l = filter (fun el => el ≠ "") l.
Proof. unfold Main.filterEmpty. apply filterEmpty_acc. Qed.

Lemma filterEmpty_all_empty (l : list string) :
  Forall (fun el => el = "") l -> Main.filterEmpty l = [].
Proof.
  intros Hall. rewrite filterEmpty_filter.
  induction Hall as [|el l Hel _ IH]; [reflexivity|].
  rewrite filter_cons. destruct (decide (el ≠ "")); [contradiction | exact IH].
Qed.

Lemma guard_of_patterns (opts : Main.options) (guard : Gokit.GuardContext) :
  Main.guard_of opts = Ret guard ->
  Gokit.patterns guard = Some (Main.filterEmpty (elems (Main.patterns opts))).
Proof.
  unfold Main.guard_of. destruct (Main.genPrefix _ _) as [p| |]; simpl; try discriminate.
  intros [= <-].
  destruct (Main.clearScreen opts), (Main.noInitRun opts); reflexivity.
Qed.

(** C10. The supervisor built from the command line holds the [--watch]
    patterns without the empty ones, in their order; when every pattern given
    is empty, [Do] falls back to the default pattern set, as it does when no
    pattern is given. *)
Theorem empty_watch_patterns_filtered (opts : Main.options) (guard : Gokit.GuardContext) :
  Main.guard_of opts = Ret guard ->
  Gokit.patterns guard
    = Some (filter (fun el => el ≠ "") (elems (Main.patterns opts)))
  /\ ("" ∉ elems (Gokit.patterns guard))
  /\ (Forall (fun el => el = "") (elems (Main.patterns opts)) ->
      Gokit.patterns (Gokit.Do_defaults guard) = Some Gokit.GuardDefaultPatterns
      /\ Gokit.patterns (Gokit.Do_defaults guard)
         = Gokit.patterns (Gokit.Do_defaults (Gokit.Guard (elems (Main.cmd opts))))).
Proof.
  intros Hg. pose proof (guard_of_patterns opts guard Hg) as Hp.
  split; [rewrite Hp, filterEmpty_filter; reflexivity|].
  split.
  - rewrite Hp, filterEmpty_filter. simpl.
    intros Hin. apply list_elem_of_filter in Hin. destruct Hin as [Hne _]. congruence.
  - intros Hall. rewrite (filterEmpty_all_empty _ Hall) in Hp.
    assert (Gokit.patterns (Gokit.Do_defaults guard) = Some Gokit.GuardDefaultPatterns) as Hd.
    { simpl. apply Do_patterns_empty. rewrite Hp. reflexivity. }
    split; [exact Hd|]. rewrite Hd. reflexivity.
Qed.

End Patterns.

(** C6, on the supervisor [Guard] builds for [echo hi]. *)
Lemma default_patterns_when_none_witness :
  Gokit.Do_patterns (@Gokit.Guard Reference.color ["echo"; "hi"]) = Some ["**"; "!g"].
Proof.
  apply (@default_patterns_when_none Reference.color
           (@Gokit.Guard Reference.color ["echo"; "hi"])).
  left. reflexivity.
Defined.

(** C10, on [guard -w "" -w "" -- echo hi]. *)
Lemma empty_watch_patterns_filtered_witness :
  let opts :=
    {| Main.patterns := Some [""; ""]; Main.dir := ""; Main.cmd := Some ["echo"; "hi"];
       Main.prefix := "auto"; Main.clearScreen := false; Main.noInitRun := false;
       Main.raw := false; Main.poll := 300000000; Main.debounce := 300000000 |} in
  exists guard,
    @Main.guard_of Reference.color opts = Ret guard
    /\ Gokit.patterns (Gokit.Do_defaults guard) = Some ["**"; "!g"].
Proof.
  intros opts.
  destruct (@Main.guard_of Reference.color opts) as [guard| |] eqn:E;
    [| (vm_compute in E; discriminate E) ..].
  exists guard. split; [reflexivity|].
  apply (@empty_watch_patterns_filtered Reference.color opts guard E).
  repeat constructor.
Defined.

(** ** The debounce gate of the event loop *)

Section Debounce.
Context {F : Filepath} {W : Gokit.Walking} {K : Color}.
Variable ctx : Gokit.GuardContext.
Variable matcher : Gokit.Matcher.

Lemma restarts_app (a b : list Gokit.Effect) :
  Gokit.restarts (a ++ b) = Gokit.restarts a + Gokit.restarts b.
Proof. unfold Gokit.restarts. rewrite filter_app, length_app. lia. Qed.

Lemma restarts_nonneg (a : list Gokit.Effect) : 0 <= Gokit.restarts a.
Proof. unfold Gokit.restarts. lia. Qed.

Lemma restarts_adds (l : list string) : Gokit.restarts (map Gokit.EAdd l) = 0.
Proof. induction l as [|p l IH]; [reflexivity | exact IH]. Qed.

Lemma restarts_watchFiles (d : string) :
  Gokit.restarts (Gokit.watchFiles ctx matcher d).1 = 0.
Proof.
  unfold Gokit.watchFiles. destruct (Gokit.Glob _ _ _) as [l|err]; simpl; [|reflexivity].
  rewrite restarts_app, restarts_adds. reflexivity.
Qed.

Lemma restarts_served_before e o err : Gokit.restarts (Spec.served_before ctx matcher e o err) = 0.
Proof.
  unfold Spec.served_before. rewrite !restarts_app.
  assert (Gokit.restarts (match err with Some x => [Gokit.EErr x] | None => [] end) = 0) as ->
    by (destruct err; reflexivity).
  assert (Gokit.restarts (if Gokit.cmd_started o then [Gokit.EKillTree; Gokit.EAwait] else []) = 0) as ->
    by (destruct (Gokit.cmd_started o); reflexivity).
  change (Gokit.restarts [Gokit.ELogEvent e]) with 0.
  destruct (bool_decide _); [|reflexivity].
  destruct (Watcher.IsDir e); [|reflexivity].
  pose proof (restarts_watchFiles (Watcher.Path e)) as Hw.
  destruct (Gokit.watchFiles ctx matcher (Watcher.Path e)) as [eff [x|]]; simpl in *.
  - rewrite restarts_app, Hw. reflexivity.
  - rewrite Hw. reflexivity.
Qed.

Lemma on_event_unmatched d lastRun e o err :
  matcher (Watcher.Path e) (Watcher.IsDir e) = (false, err) ->
  Gokit.on_event ctx matcher d lastRun e o
  = (lastRun, match err with Some x => [Gokit.EErr x] | None => [] end).
Proof. intros Hm. unfold Gokit.on_event. rewrite Hm. reflexivity. Qed.

Lemma on_event_dropped d lastRun e o err :
  matcher (Watcher.Path e) (Watcher.IsDir e) = (true, err) ->
  Time.Since (Gokit.now_since o) lastRun < d ->
  Gokit.on_event ctx matcher d lastRun e o
  = (Gokit.now_set o, match err with Some x => [Gokit.EErr x] | None => [] end).
Proof.
  intros Hm Hlt. unfold Gokit.on_event. rewrite Hm. simpl.
  destruct (Z.ltb_spec (Time.Since (Gokit.now_since o) lastRun) d); [reflexivity | lia].
Qed.

Lemma on_event_served d lastRun e o err :
  matcher (Watcher.Path e) (Watcher.IsDir e) = (true, err) ->
  d <= Time.Since (Gokit.now_since o) lastRun ->
  Gokit.on_event ctx matcher d lastRun e o
  = (Gokit.now_set o, Spec.served_before ctx matcher e o err ++ [Gokit.EGoRun e]).
Proof.
  intros Hm Hge. unfold Gokit.on_event. rewrite Hm. simpl.
  destruct (Z.ltb_spec (Time.Since (Gokit.now_since o) lastRun) d); [lia|].
  unfold Spec.served_before. rewrite <- !app_assoc. reflexivity.
Qed.

Lemma not_restart_logged (e : Watcher.Event) (err : option error) :
  Gokit.EGoRun e ∉ match err with Some x => [Gokit.EErr x] | None => [] end.
Proof.
  destruct err; intros Hin.
  - apply list_elem_of_singleton in Hin. discriminate Hin.
  - apply elem_of_nil in Hin. exact Hin.
Qed.

(** C1. A matched event is let through exactly when the time since the last
    recorded event is at least the debounce interval: then the loop goes on
    to [go run(&e)]; otherwise the event produces nothing (but the log line
    of a matcher error).  In both cases the recorded time becomes the
    current time. *)
Theorem debounce_gate (d : Time.Duration) (lastRun : Time.Time)
    (e : Watcher.Event) (o : Gokit.Obs) (err : option error) :
  matcher (Watcher.Path e) (Watcher.IsDir e) = (true, err) ->
  let elapsed := Time.Since (Gokit.now_since o) lastRun in
  let r := Gokit.on_event ctx matcher d lastRun e o in
  r.1 = Gokit.now_set o
  /\ (Gokit.EGoRun e ∈ r.2 <-> d <= elapsed)
  /\ (d <= elapsed -> Gokit.restarts r.2 = 1)
  /\ (elapsed < d ->
      r.2 = match err with Some x => [Gokit.EErr x] | None => [] end
      /\ Gokit.restarts r.2 = 0).
Proof.
  intros Hm elapsed r. subst r.
  destruct (Z.lt_ge_cases elapsed d) as [Hlt|Hge].
  - rewrite (on_event_dropped d lastRun e o err Hm Hlt). simpl.
    split; [reflexivity|]. split; [|split].
    + split; [|lia]. intros Hin. exfalso. exact (not_restart_logged e err Hin).
    + lia.
    + intros _. split; [reflexivity|]. destruct err; reflexivity.
  - rewrite (on_event_served d lastRun e o err Hm Hge). simpl.
    split; [reflexivity|]. split; [|split].
    + split; [intros _; exact Hge|]. intros _.
      apply elem_of_app. right. apply list_elem_of_singleton. reflexivity.
    + intros _. rewrite restarts_app, restarts_served_before. reflexivity.
    + lia.
Qed.

End Debounce.

(** ** Restarts over a run of events *)

Section Restarts.
Context {F : Filepath} {W : Gokit.Walking} {K : Color}.
Variable ctx : Gokit.GuardContext.
Variable matcher : Gokit.Matcher.
Variable d : Time.Duration.
Hypothesis d_pos : 0 < d.

(** A clamped difference that reaches a positive [d] comes from a true
    difference that reaches it. *)
Lemma Since_reaches (now last : Time.Time) :
  d <= Time.Since now last -> d <= now - last.
Proof.
  unfold Time.Since, Time.Sub, Time.minDuration, Time.maxDuration.
  destruct (Z.ltb_spec (now - last) (- 2 ^ 63)); [lia|].
  destruct (Z.ltb_spec (2 ^ 63 - 1) (now - last)); lia.
Qed.

(** What one matched event does to the recorded time and to the count. *)
Lemma on_event_matched_cases (lastRun : Time.Time) (e : Watcher.Event) (o : Gokit.Obs) :
  (matcher (Watcher.Path e) (Watcher.IsDir e)).1 = true ->
  let r := Gokit.on_event ctx matcher d lastRun e o in
  r.1 = Gokit.now_set o
  /\ (Gokit.restarts r.2 = 0
      \/ (Gokit.restarts r.2 = 1 /\ d <= Gokit.now_since o - lastRun)).
Proof.
  intros Hm r. subst r.
  destruct (matcher (Watcher.Path e) (Watcher.IsDir e)) as [m err] eqn:E.
  simpl in Hm. subst m.
  destruct (Z.lt_ge_cases (Time.Since (Gokit.now_since o) lastRun) d) as [Hlt|Hge].
  - rewrite (on_event_dropped ctx matcher d lastRun e o err E Hlt).
    split; [reflexivity|]. left. destruct err; reflexivity.
  - rewrite (on_event_served ctx matcher d lastRun e o err E Hge).
    split; [reflexivity|]. right. split; [|apply Since_reaches; exact Hge].
    cbn [snd]. rewrite restarts_app, restarts_served_before. reflexivity.
Qed.

Lemma event_loop_cons (lastRun : Time.Time) (e : Watcher.Event) (o : Gokit.Obs)
    (rest : list Gokit.Msg) :
  (Gokit.event_loop ctx matcher d lastRun (Gokit.OnEvent e o :: rest)).2
  = (Gokit.on_event ctx matcher d lastRun e o).2
    ++ (Gokit.event_loop ctx matcher d (Gokit.on_event ctx matcher d lastRun e o).1 rest).2.
Proof.
  simpl. destruct (Gokit.on_event ctx matcher d lastRun e o) as [l' eff].
  cbn [fst snd].
  destruct (Gokit.event_loop ctx matcher d l' rest) as [final effs]. reflexivity.
Qed.

(** The invariant of the loop: from a recorded time [lastRun] that is not
    after the first event, [d] times the number of restarts fits into the
    time that passes until the last event. *)
Lemma restarts_fit (evs : list (Watcher.Event * Gokit.Obs)) :
  forall (lastRun : Time.Time) (first last_ : Watcher.Event * Gokit.Obs),
    Spec.all_matched matcher evs ->
    Spec.clock_ordered (map snd evs) ->
    head evs = Some first -> last evs = Some last_ ->
    lastRun <= Gokit.now_since first.2 ->
    d * Gokit.restarts (Gokit.event_loop ctx matcher d lastRun (Spec.events evs)).2
    <= Gokit.now_since last_.2 - lastRun.
Proof.
  induction evs as [|[e o] rest IH]; intros lastRun first last_ Hall Hord Hh Hl Hle;
    [discriminate Hh|].
  simpl in Hh. injection Hh as <-. simpl in Hle.
  apply Forall_cons in Hall. destruct Hall as [Hm Hall].
  change (Spec.events ((e, o) :: rest)) with (Gokit.OnEvent e o :: Spec.events rest).
  rewrite event_loop_cons, restarts_app.
  destruct (on_event_matched_cases lastRun e o Hm) as [Hset Hcount].
  rewrite Hset.
  destruct rest as [|[e' o'] rest'].
  - simpl in Hl. injection Hl as <-. simpl.
    change (Gokit.restarts []) with 0.
    destruct Hcount as [-> | [-> Hd]]; lia.
  - destruct Hord as (Ho & Hnext & Hrest).
    assert (last ((e', o') :: rest') = Some last_) as Hl' by exact Hl.
    specialize (IH (Gokit.now_set o) (e', o') last_ Hall Hrest eq_refl Hl' Hnext).
    destruct Hcount as [-> | [-> Hd]]; simpl in *; lia.
Qed.

(** C2, as the code has it.  Over a run of matched events served at times
    that do not decrease, the restarts number at most the whole multiples of
    the debounce interval between the first and the last event, plus one
    (the first event itself may restart); hence at most the rounded-up
    quotient plus one. *)
Theorem restarts_bounded (lastRun : Time.Time)
    (evs : list (Watcher.Event * Gokit.Obs)) (first last_ : Watcher.Event * Gokit.Obs) :
  Spec.all_matched matcher evs ->
  Spec.clock_ordered (map snd evs) ->
  head evs = Some first -> last evs = Some last_ ->
  let n := Gokit.restarts (Gokit.event_loop ctx matcher d lastRun (Spec.events evs)).2 in
  let span := Gokit.now_since last_.2 - Gokit.now_since first.2 in
  n <= span / d + 1 /\ n <= Spec.ceil_div span d + 1.
Proof.
  intros Hall Hord Hh Hl n span.
  assert (n <= span / d + 1) as Hfloor.
  { subst n span. destruct evs as [|[e o] rest]; [discriminate Hh|].
    simpl in Hh. injection Hh as <-.
    apply Forall_cons in Hall. destruct Hall as [Hm Hall].
    change (Spec.events ((e, o) :: rest)) with (Gokit.OnEvent e o :: Spec.events rest).
    rewrite event_loop_cons, restarts_app.
    destruct (on_event_matched_cases lastRun e o Hm) as [Hset Hcount].
    rewrite Hset.
    assert (Gokit.restarts (Gokit.on_event ctx matcher d lastRun e o).2 <= 1) as H1
      by (destruct Hcount as [-> | [-> _]]; lia).
    destruct rest as [|[e' o'] rest'].
    - simpl in Hl. injection Hl as <-. simpl.
      change (Gokit.restarts []) with 0.
      rewrite Z.sub_diag, Z.div_0_l by lia. lia.
    - destruct Hord as (Ho & Hnext & Hrest).
      assert (last ((e', o') :: rest') = Some last_) as Hl' by exact Hl.
      pose proof (restarts_fit ((e', o') :: rest') (Gokit.now_set o) (e', o') last_
                    Hall Hrest eq_refl Hl' Hnext) as Hfit.
      cbn [fst snd] in *.
      assert (Gokit.restarts
                (Gokit.event_loop ctx matcher d (Gokit.now_set o)
                   (Spec.events ((e', o') :: rest'))).2
              <= (Gokit.now_since last_.2 - Gokit.now_since o) / d) as Hq.
      { apply Z.div_le_lower_bound; [exact d_pos|]. lia. }
      lia. }
  split; [exact Hfloor|].
  assert (span / d <= Spec.ceil_div span d) as Hc.
  { unfold Spec.ceil_div. apply Z.div_le_mono; lia. }
  lia.
Qed.

End Restarts.

(** C1, on a write served 100 ms after the last recorded event, with the
    default debounce interval: the event is dropped and the time recorded. *)
Lemma debounce_gate_witness :
  let o := Spec.at_time (Reference.now + 100000000) false in
  let r := @Gokit.on_event Reference.filepath (Reference.walking None) Reference.color
             Reference.guard_echo Reference.match_all 300000000 Reference.now
             Reference.write_b o in
  r.1 = Gokit.now_set o
  /\ (Gokit.EGoRun Reference.write_b ∈ r.2
      <-> 300000000 <= Time.Since (Gokit.now_since o) Reference.now)
  /\ (300000000 <= Time.Since (Gokit.now_since o) Reference.now -> Gokit.restarts r.2 = 1)
  /\ (Time.Since (Gokit.now_since o) Reference.now < 300000000 ->
      r.2 = [] /\ Gokit.restarts r.2 = 0).
Proof.
  exact (@debounce_gate Reference.filepath (Reference.walking None) Reference.color
           Reference.guard_echo Reference.match_all 300000000 Reference.now
           Reference.write_b (Spec.at_time (Reference.now + 100000000) false) None
           eq_refl).
Defined.

(** C2 as it is worded fails on a single event: it restarts the command
    once, while the rounded-up quotient of the empty time span is zero.  It
    fails as well on three events that are one debounce interval apart: each
    restarts the command, and the quotient is two. *)
Lemma restarts_exceed_ceiling :
  let d := Gokit.Do_debounce Reference.guard_echo in
  let count evs :=
    Gokit.restarts
      (@Gokit.Do_event_loop Reference.filepath (Reference.walking None)
         Reference.color Reference.guard_echo Reference.match_all
         (Spec.events evs)).2 in
  let one := [(Reference.write_b, Spec.at_time Reference.now false)] in
  let three := [(Reference.write_b, Spec.at_time Reference.now false);
                (Reference.write_b, Spec.at_time (Reference.now + d) true);
                (Reference.write_b, Spec.at_time (Reference.now + 2 * d) true)] in
  d = 300000000
  /\ count one = 1
  /\ Spec.ceil_div (Reference.now - Reference.now) d = 0
  /\ ~ count one <= Spec.ceil_div (Reference.now - Reference.now) d
  /\ count three = 3
  /\ Spec.ceil_div (Reference.now + 2 * d - Reference.now) d = 2
  /\ ~ count three <= Spec.ceil_div (Reference.now + 2 * d - Reference.now) d.
Proof. vm_compute. repeat split; intros Hle; apply Hle; reflexivity. Qed.

(** C2, on three writes served at 0, 100 and 400 ms: two restarts, within
    the bound of one whole interval plus one. *)
Lemma restarts_bounded_witness :
  let evs := [(Reference.write_b, Spec.at_time Reference.now false);
              (Reference.write_b, Spec.at_time (Reference.now + 100000000) true);
              (Reference.write_b, Spec.at_time (Reference.now + 400000000) true)] in
  let n := Gokit.restarts
             (@Gokit.event_loop Reference.filepath (Reference.walking None)
                Reference.color Reference.guard_echo Reference.match_all
                300000000 Time.zero (Spec.events evs)).2 in
  n <= 400000000 / 300000000 + 1 /\ n <= Spec.ceil_div 400000000 300000000 + 1.
Proof.
  intros evs.
  assert (0 < 300000000) as Hd by lia.
  assert (Spec.all_matched Reference.match_all evs) as Hall
    by (repeat constructor).
  assert (Spec.clock_ordered (map snd evs)) as Hord
    by (simpl; unfold Reference.now; lia).
  exact (@restarts_bounded Reference.filepath (Reference.walking None) Reference.color
           Reference.guard_echo Reference.match_all 300000000 Hd Time.zero evs
           (Reference.write_b, Spec.at_time Reference.now false)
           (Reference.write_b, Spec.at_time (Reference.now + 400000000) true)
           Hall Hord eq_refl eq_refl).
Defined.

(** ** The output loop of the child runner *)

Section OutputLoop.
Variable prefix : string.

Local Abbreviation pl := (fun line => PkgExec.WPrefix prefix :: map PkgExec.WRune line).

Lemma output_loop_emitted (newline : bool) (input : list PkgExec.rune) :
  PkgExec.output_loop prefix newline input
  = Spec.emitted prefix newline input ++ [PkgExec.WRune 0].
Proof.
  revert newline. induction input as [|r rest IH]; intros newline; [reflexivity|].
  simpl. destruct newline; simpl;
    destruct (r =? PkgExec.newline_rune); rewrite IH; reflexivity.
Qed.

Lemma lines_cons (r : PkgExec.rune) (rest : list PkgExec.rune) :
  Spec.lines (r :: rest)
  = if r =? PkgExec.newline_rune then [r] :: Spec.lines rest
    else match Spec.lines rest with
         | [] => [[r]]
         | l :: ls => (r :: l) :: ls
         end.
Proof. reflexivity. Qed.

(** At the start of a line the loop writes the lines behind their prefix;
    inside a line it completes the line first. *)
Lemma emitted_lines (input : list PkgExec.rune) :
  Spec.emitted prefix true input = concat (map pl (Spec.lines input))
  /\ Spec.emitted prefix false input
     = match Spec.lines input with
       | [] => []
       | l :: ls => map PkgExec.WRune l ++ concat (map pl ls)
       end.
Proof.
  induction input as [|r rest [IHt IHf]]; [split; reflexivity|].
  rewrite lines_cons.
  change (Spec.emitted prefix true (r :: rest))
    with (PkgExec.WPrefix prefix :: PkgExec.WRune r
            :: Spec.emitted prefix (r =? PkgExec.newline_rune) rest).
  change (Spec.emitted prefix false (r :: rest))
    with (PkgExec.WRune r :: Spec.emitted prefix (r =? PkgExec.newline_rune) rest).
  destruct (r =? PkgExec.newline_rune).
  - rewrite IHt. split; reflexivity.
  - rewrite IHf. destruct (Spec.lines rest) as [|l ls]; split; reflexivity.
Qed.

Lemma lines_split (input : list PkgExec.rune) :
  Spec.line_split input (Spec.lines input).
Proof.
  induction input as [|r rest IH]; [constructor|].
  rewrite lines_cons. destruct (Z.eqb_spec r PkgExec.newline_rune) as [->|Hne].
  - apply (Spec.split_cons [PkgExec.newline_rune] rest); [|exact IH].
    exists []. split; [apply not_elem_of_nil | reflexivity].
  - inversion IH as [Hi Hl | l [Hnil Hno] Hi Hl | l rest' ls [body [Hno ->]] Hrest Hi Hl].
    + apply Spec.split_last. split; [discriminate|].
      intros Hin. apply list_elem_of_singleton in Hin. congruence.
    + apply Spec.split_last. split; [discriminate|].
      intros Hin. apply elem_of_cons in Hin. destruct Hin as [Heq|Hin]; [congruence|].
      exact (Hno Hin).
    + apply (Spec.split_cons (r :: body ++ [PkgExec.newline_rune]) rest' ls); [|exact Hrest].
      exists (r :: body). split; [|reflexivity].
      intros Hin. apply elem_of_cons in Hin. destruct Hin as [Heq|Hin]; [congruence|].
      exact (Hno Hin).
Qed.

Lemma follows_nil : Spec.prefix_follows_newline prefix [].
Proof. intros [|x xs] a b ys Heq; discriminate Heq. Qed.

Lemma follows_one (a : PkgExec.Chunk) : Spec.prefix_follows_newline prefix [a].
Proof.
  intros [|x [|y xs]] a' b ys Heq; discriminate Heq.
Qed.

Lemma follows_cons (a b : PkgExec.Chunk) (l : list PkgExec.Chunk) :
  (b = PkgExec.WPrefix prefix <-> a = PkgExec.WRune PkgExec.newline_rune) ->
  Spec.prefix_follows_newline prefix (b :: l) ->
  Spec.prefix_follows_newline prefix (a :: b :: l).
Proof.
  intros Hab Hl [|x xs] a' b' ys Heq.
  - injection Heq as <- <- _. exact Hab.
  - injection Heq as _ Heq. exact (Hl xs a' b' ys Heq).
Qed.

Lemma emitted_follows (input : list PkgExec.rune) (newline : bool) :
  Spec.prefix_follows_newline prefix (Spec.emitted prefix newline input).
Proof.
  revert newline. induction input as [|r rest IH]; intros newline; [apply follows_nil|].
  assert (Spec.prefix_follows_newline prefix
            (PkgExec.WRune r :: Spec.emitted prefix (r =? PkgExec.newline_rune) rest))
    as Hr.
  { specialize (IH (r =? PkgExec.newline_rune)).
    destruct rest as [|r' rest']; [apply follows_one|].
    change (Spec.emitted prefix (r =? PkgExec.newline_rune) (r' :: rest'))
      with ((if r =? PkgExec.newline_rune then [PkgExec.WPrefix prefix] else [])
            ++ PkgExec.WRune r'
               :: Spec.emitted prefix (r' =? PkgExec.newline_rune) rest') in *.
    destruct (Z.eqb_spec r PkgExec.newline_rune) as [->|Hne]; simpl in *.
    - apply follows_cons; [|exact IH]. split; reflexivity.
    - apply follows_cons; [|exact IH]. split; [discriminate|].
      intros [= Heq]. contradiction. }
  simpl. destruct newline; simpl; [|exact Hr].
  apply follows_cons; [|exact Hr]. split; discriminate.
Qed.

Lemma starts_one (a : PkgExec.Chunk) : Spec.prefix_starts_line prefix [a].
Proof.
  intros [|x [|y xs]] a' b ys Heq; discriminate Heq.
Qed.

Lemma starts_cons (a b : PkgExec.Chunk) (l : list PkgExec.Chunk) :
  (b = PkgExec.WPrefix prefix
   <-> a = PkgExec.WRune PkgExec.newline_rune /\ l <> []) ->
  Spec.prefix_starts_line prefix (b :: l) ->
  Spec.prefix_starts_line prefix (a :: b :: l).
Proof.
  intros Hab Hl [|x xs] a' b' ys Heq.
  - injection Heq as <- <- <-. exact Hab.
  - injection Heq as _ Heq. exact (Hl xs a' b' ys Heq).
Qed.

(** In all the loop writes, the zero rune of the failed read included, the
    prefix comes exactly after a newline that is not the last rune of the
    child. *)
Lemma loop_starts (input : list PkgExec.rune) (newline : bool) :
  Spec.prefix_starts_line prefix
    (Spec.emitted prefix newline input ++ [PkgExec.WRune 0]).
Proof.
  revert newline. induction input as [|r rest IH]; intros newline; [apply starts_one|].
  assert (Spec.prefix_starts_line prefix
            (PkgExec.WRune r
               :: Spec.emitted prefix (r =? PkgExec.newline_rune) rest
                  ++ [PkgExec.WRune 0]))
    as Hr.
  { specialize (IH (r =? PkgExec.newline_rune)).
    destruct rest as [|r' rest'].
    - apply starts_cons; [|exact IH].
      split; [discriminate | intros [_ Hne]; contradiction].
    - change (Spec.emitted prefix (r =? PkgExec.newline_rune) (r' :: rest'))
        with ((if r =? PkgExec.newline_rune then [PkgExec.WPrefix prefix] else [])
              ++ PkgExec.WRune r'
                 :: Spec.emitted prefix (r' =? PkgExec.newline_rune) rest') in *.
      destruct (Z.eqb_spec r PkgExec.newline_rune) as [->|Hne]; simpl in *.
      + apply starts_cons; [|exact IH].
        split; [intros _; split; [reflexivity | discriminate] | reflexivity].
      + apply starts_cons; [|exact IH].
        split; [discriminate | intros [[= Heq] _]; contradiction]. }
  simpl. destruct newline; simpl; [|exact Hr].
  apply starts_cons; [|exact Hr]. split; [discriminate | intros [Heq _]; discriminate Heq].
Qed.

(** C5, as the code has it.  The loop writes every line of the child's
    output behind the prefix: the lines are the maximal runs that a newline
    ends, and the rest of the input when it does not end in a newline, so an
    unfinished last line has its prefix too.  After the last rune of the
    child the loop writes one more rune, the zero rune of the failed read,
    without prefix.  So among the writes for the child's runes the prefix
    comes exactly after a newline (and at the very start), and among all
    the writes exactly after a newline that another rune of the child
    follows. *)
Theorem prefix_per_line (input : list PkgExec.rune) :
  PkgExec.run_output prefix input
  = concat (map (fun line => PkgExec.WPrefix prefix :: map PkgExec.WRune line)
                (Spec.lines input))
    ++ [PkgExec.WRune 0]
  /\ Spec.line_split input (Spec.lines input)
  /\ Spec.prefix_follows_newline prefix (Spec.prefixed prefix input)
  /\ Spec.prefix_starts_line prefix (PkgExec.run_output prefix input).
Proof.
  split; [|split; [|split]].
  - unfold PkgExec.run_output. rewrite output_loop_emitted.
    rewrite (proj1 (emitted_lines input)). reflexivity.
  - apply lines_split.
  - unfold Spec.prefixed. rewrite <- (proj1 (emitted_lines input)).
    apply emitted_follows.
  - unfold PkgExec.run_output. rewrite output_loop_emitted. apply loop_starts.
Qed.

End OutputLoop.

(** C5 as it is worded fails for a child that writes [a] and a newline: the
    loop writes the prefix, the two runes and the zero rune of the failed
    read, so the rune written before the last one is a newline and no
    prefix comes after it. *)
Lemma no_prefix_after_last_newline :
  PkgExec.run_output "app | " [97; 10]
  = [PkgExec.WPrefix "app | "; PkgExec.WRune 97; PkgExec.WRune 10; PkgExec.WRune 0]
  /\ ~ Spec.prefix_follows_newline "app | " (PkgExec.run_output "app | " [97; 10]).
Proof.
  split; [reflexivity|].
  intros Hall.
  destruct (Hall [PkgExec.WPrefix "app | "; PkgExec.WRune 97]
              (PkgExec.WRune 10) (PkgExec.WRune 0) [] eq_refl) as [_ Hback].
  discriminate (Hback eq_refl).
Qed.

(** ** The output prefix of the command line *)

(** The model of the hash agrees with the published FNV-1a test vectors. *)
Example fnv32a_vectors :
  Fnv.Sum32a (bytes "") = 0x811c9dc5
  /\ Fnv.Sum32a (bytes "a") = 0xe40c292c
  /\ Fnv.Sum32a (bytes "foobar") = 0xbf9cf968.
Proof. repeat split; reflexivity. Qed.

Section Prefix.
Context {K : Color}.

(** C8. With the value [auto] the prefix is the first token of the command
    followed by [" | "], coloured by [kit.C] with the decimal colour number
    that is the FNV-1a hash (32 bits) of the tokens joined with nothing between
    them, modulo 256;
    any other value is the prefix as it is. *)
Theorem genPrefix_auto_or_given :
  (forall (a0 : string) (rest : list string),
     let h := Fnv.Sum32a (bytes (Join (a0 :: rest) "")) in
     Main.genPrefix "auto" (a0 :: rest)
       = Ret (kit_C (a0 +:+ " | ") (Sprint_uint (h mod 256)))
     /\ 0 <= h mod 256 < 256)
  /\ (forall (p : string) (a : list string),
        p <> "auto" -> Main.genPrefix p a = Ret p).
Proof.
  split.
  - intros a0 rest h. split; [|apply Z.mod_pos_bound; lia].
    unfold Main.genPrefix. rewrite bool_decide_eq_true_2 by reflexivity.
    reflexivity.
  - intros p a Hp. unfold Main.genPrefix.
    rewrite bool_decide_eq_false_2 by exact Hp. reflexivity.
Qed.

End Prefix.

(** C8, on [--prefix "my-app | "] and on the default prefix of [go test]. *)
Lemma genPrefix_auto_or_given_witness :
  @Main.genPrefix Reference.color "my-app | " ["go"; "test"] = Ret "my-app | "
  /\ @Main.genPrefix Reference.color "auto" ["go"; "test"]
     = Ret (Reference.C "go | " "31").
Proof.
  destruct (@genPrefix_auto_or_given Reference.color) as [Hauto Hgiven].
  split.
  - apply Hgiven. discriminate.
  - destruct (Hauto "go" ["test"]) as [Heq _]. exact Heq.
Defined.

(** ** Arguments read from a file *)

Section ConfigFile.
Context {Fs : Files}.

Lemma argsFromConfigFile_loop_skip (a pre rest : list string) :
  Forall (fun x => Main.is_config_ref x = false) pre ->
  Main.argsFromConfigFile_loop a (pre ++ rest) = Main.argsFromConfigFile_loop a rest.
Proof.
  intros Hpre. induction Hpre as [|x pre Hx _ IH]; [reflexivity|].
  simpl. rewrite Hx. exact IH.
Qed.

Lemma is_config_ref_spec (elem : string) :
  Main.is_config_ref elem = true
  <-> exists c rest, elem = String "@" (String c rest).
Proof.
  split.
  - destruct elem as [|c0 [|c1 rest]]; simpl; try discriminate.
    intros Hc. apply Ascii.eqb_eq in Hc. subst c0. eauto.
  - intros (c & rest & ->). reflexivity.
Qed.

(** C9. Of the arguments only the first one that is longer than one byte and
    starts with [@] names a file.  When that file cannot be read the
    arguments come back as they were given, the token included; when it can,
    its lines replace them, whatever follows the token.  A lone [@] names no
    file, and arguments without such a token come back as they are. *)
Theorem argsFromConfigFile_first_ref :
  (forall (pre : list string) (e : string) (post : list string),
     Forall (fun x => Main.is_config_ref x = false) pre ->
     Main.is_config_ref e = true ->
     Main.argsFromConfigFile (pre ++ e :: post)
     = match kit_ReadFile (Main.tail1 e) with
       | inr _ => pre ++ e :: post
       | inl f => Regexp.Split f
       end)
  /\ (forall a : list string,
        Forall (fun x => Main.is_config_ref x = false) a ->
        Main.argsFromConfigFile a = a)
  /\ Main.is_config_ref "@" = false
  /\ (forall elem : string,
        Main.is_config_ref elem = true
        <-> exists c rest, elem = String "@" (String c rest)).
Proof.
  split; [|split; [|split]].
  - intros pre e post Hpre He. unfold Main.argsFromConfigFile.
    rewrite argsFromConfigFile_loop_skip by exact Hpre.
    simpl. rewrite He. reflexivity.
  - intros a Ha. unfold Main.argsFromConfigFile.
    rewrite <- (app_nil_r a) at 2.
    rewrite argsFromConfigFile_loop_skip by exact Ha. reflexivity.
  - reflexivity.
  - apply is_config_ref_spec.
Qed.

End ConfigFile.

(** C9, where the first file named cannot be read and a later one could. *)
Lemma argsFromConfigFile_first_ref_witness :
  let a := ["-c"; "@"; "@missing.conf"; "@guard.conf"; "--"; "ls"] in
  @Main.argsFromConfigFile Reference.files a = a.
Proof.
  intros a.
  destruct (@argsFromConfigFile_first_ref Reference.files) as [Hfirst _].
  exact (Hfirst ["-c"; "@"] "@missing.conf" ["@guard.conf"; "--"; "ls"]
           ltac:(repeat constructor) eq_refl).
Defined.

(** ** Rendering the argv templates *)

Section Rendering.
Context {F : Filepath} {M : Mustache} {W : Gokit.Walking} {K : Color}.

Lemma unescapeArg_render (ctx_dir : string) (e : Watcher.Event) (arg : string) :
  (Gokit.unescapeArg ctx_dir e arg).1
  = mustache_Render arg (Spec.substitution ctx_dir e).
Proof.
  unfold Gokit.unescapeArg, Spec.substitution, Spec.rel_path.
  destruct (filepath_Abs ctx_dir) as [d err1].
  destruct (filepath_Abs (Watcher.Path e)) as [p err2]. cbn [fst].
  destruct (filepath_Rel d p) as [p' err3]. reflexivity.
Qed.

Lemma unescapeArgs_acc (ctx_dir : string) (e : Watcher.Event)
    (a : list string) (acc : list string) (logged : list error) :
  (foldl (fun '(newArgs, logged) arg =>
            let '(r, l) := Gokit.unescapeArg ctx_dir e arg in
            (newArgs ++ [r], logged ++ l))
         (acc, logged) a).1
  = acc ++ map (fun arg => (Gokit.unescapeArg ctx_dir e arg).1) a.
Proof.
  revert acc logged. induction a as [|arg a IH]; intros acc logged; simpl.
  - rewrite app_nil_r. reflexivity.
  - destruct (Gokit.unescapeArg ctx_dir e arg) as [r l]. rewrite IH.
    rewrite <- app_assoc. reflexivity.
Qed.

Lemma unescapeArgs_map (ctx_dir : string) (a : list string) (e : option Watcher.Event) :
  (Gokit.unescapeArgs ctx_dir a e).1
  = map (fun arg =>
           mustache_Render arg (Spec.substitution ctx_dir (default Watcher.Event_zero e)))
        a.
Proof.
  unfold Gokit.unescapeArgs. rewrite unescapeArgs_acc. simpl.
  apply map_ext. intros arg. apply unescapeArg_render.
Qed.

Lemma run_exec_args (ctx : Gokit.GuardContext) (e : option Watcher.Event) :
  Gokit.exec_args (Gokit.run_exec (Gokit.run ctx e).2)
  = (Gokit.unescapeArgs (Gokit.dir ctx) (Gokit.args ctx) e).1.
Proof.
  unfold Gokit.run.
  destruct (Gokit.unescapeArgs (Gokit.dir ctx) (Gokit.args ctx) e) as [rendered logged].
  reflexivity.
Qed.

(** C3, as the code has it.  On the initial run the templates are rendered
    for the zero event: [op] is the name of the zero event kind, [CREATE],
    and [path] is the current directory relative to the working directory,
    which is ["."] when the supervisor has no working directory of its
    own. *)
Theorem initial_run_substitution (ctx : Gokit.GuardContext) (r : Gokit.Run) :
  Gokit.Do_initial_run ctx = Some r ->
  Gokit.exec_args (Gokit.run_exec r)
  = map (fun arg =>
           mustache_Render arg
             {[ "path" := Spec.rel_path (Gokit.dir ctx) Watcher.Event_zero;
                "op" := "CREATE" ]})
        (Gokit.args ctx)
  /\ (Gokit.dir ctx = "" ->
      Gokit.exec_args (Gokit.run_exec r)
      = map (fun arg => mustache_Render arg {[ "path" := "."; "op" := "CREATE" ]})
            (Gokit.args ctx)).
Proof.
  unfold Gokit.Do_initial_run.
  destruct (Gokit.NewMatcher _ _) as [matcher|err]; [|discriminate].
  destruct (Gokit.watchFiles _ _ _) as [eff [err|]]; [discriminate|].
  destruct (Gokit.noInitRun _); [discriminate|].
  intros [= <-]. rewrite run_exec_args, unescapeArgs_map.
  change (Gokit.dir (Gokit.Do_defaults ctx)) with (Gokit.dir ctx).
  change (Gokit.args (Gokit.Do_defaults ctx)) with (Gokit.args ctx).
  split; [reflexivity|].
  intros Hdir. rewrite Hdir. unfold Spec.substitution, Spec.rel_path. simpl.
  rewrite filepath_Rel_same. reflexivity.
Qed.

Lemma Op_String_upper (o : Watcher.Op) :
  Spec.ToUpper (Watcher.Op_String o) = Watcher.Op_String o
  /\ Spec.ToLower (Watcher.Op_String o) <> Watcher.Op_String o.
Proof. destruct o; split; (reflexivity || discriminate). Qed.

(** C4, as the code has it.  The run an event starts renders each token
    with [op] bound to the name [Op.String] gives the event kind, which is
    written in capital letters ([WRITE] for a write), and [path] bound to the
    event's path relative to the working directory. *)
Theorem event_run_substitution (ctx : Gokit.GuardContext) (e : Watcher.Event) :
  Gokit.exec_args (Gokit.run_exec (Gokit.run ctx (Some e)).2)
  = map (fun arg =>
           mustache_Render arg
             {[ "path" := Spec.rel_path (Gokit.dir ctx) e;
                "op" := Watcher.Op_String (Watcher.Op_ e) ]})
        (Gokit.args ctx)
  /\ Spec.ToUpper (Watcher.Op_String (Watcher.Op_ e)) = Watcher.Op_String (Watcher.Op_ e)
  /\ Spec.ToLower (Watcher.Op_String (Watcher.Op_ e)) <> Watcher.Op_String (Watcher.Op_ e)
  /\ (Watcher.Op_ e = Watcher.Write -> Watcher.Op_String (Watcher.Op_ e) = "WRITE").
Proof.
  split; [|split; [|split]].
  - rewrite run_exec_args, unescapeArgs_map. reflexivity.
  - apply Op_String_upper.
  - apply Op_String_upper.
  - intros ->. reflexivity.
Qed.

End Rendering.

(** C3 as it is worded fails for [guard -- echo {{op}} {{path}}]: the initial
    run is [echo CREATE .], not [echo] with two empty arguments. *)
Lemma initial_run_not_empty :
  let rendered :=
    (@Gokit.unescapeArgs Reference.filepath Reference.mustache
       (Gokit.dir Reference.guard_echo) (Gokit.args Reference.guard_echo) None).1 in
  rendered = ["echo"; "CREATE"; "."]
  /\ map (Spec.substitute "" "") (Gokit.args Reference.guard_echo) = ["echo"; ""; ""]
  /\ rendered <> map (Spec.substitute "" "") (Gokit.args Reference.guard_echo).
Proof. vm_compute. repeat split. discriminate. Qed.

(** C3, on the same supervisor. *)
Lemma initial_run_substitution_witness :
  exists r,
    @Gokit.Do_initial_run Reference.filepath Reference.mustache
      (Reference.walking None) Reference.color Reference.guard_echo
    = Some r
    /\ Gokit.exec_args (Gokit.run_exec r)
       = map (fun arg =>
                Reference.Render arg {[ "path" := "."; "op" := "CREATE" ]})
             ["echo"; "{{op}}"; "{{path}}"].
Proof.
  eexists. split; [reflexivity|].
  apply (@initial_run_substitution Reference.filepath Reference.mustache
           (Reference.walking None) Reference.color Reference.guard_echo _ eq_refl).
  reflexivity.
Defined.

(** C4 as it is worded fails for a write to [sub/b.txt]: the run is
    [echo WRITE sub/b.txt], not [echo write sub/b.txt]. *)
Lemma event_op_not_lowercase :
  let rendered :=
    (@Gokit.unescapeArgs Reference.filepath Reference.mustache
       (Gokit.dir Reference.guard_echo) (Gokit.args Reference.guard_echo)
       (Some Reference.write_b)).1 in
  rendered = ["echo"; "WRITE"; "sub/b.txt"]
  /\ map (Spec.substitute "sub/b.txt" "write") (Gokit.args Reference.guard_echo)
     = ["echo"; "write"; "sub/b.txt"]
  /\ rendered
     <> map (Spec.substitute "sub/b.txt" "write") (Gokit.args Reference.guard_echo).
Proof. vm_compute. repeat split. discriminate. Qed.

(** C4, on the same write. *)
Lemma event_run_substitution_witness :
  Watcher.Op_String (Watcher.Op_ Reference.write_b) = "WRITE".
Proof.
  apply (@event_run_substitution Reference.filepath Reference.mustache
           Reference.guard_echo Reference.write_b).
  reflexivity.
Defined.

(** ** The exit status of the command *)

Section ExitStatus.
Context {Fs : Files} {Kp : Main.Kingpin} {K : Color} {F : Filepath} {W : Gokit.Walking}.

Lemma indexOf_from_ge (i : Z) (l : list string) (str : string) :
  Main.indexOf_from i l str = -1 \/ i <= Main.indexOf_from i l str.
Proof.
  revert i. induction l as [|x l IH]; intros i; simpl; [left; reflexivity|].
  destruct (bool_decide (x = str)); [right; lia|].
  destruct (IH (i + 1)) as [Hn | Hge]; [left; exact Hn | right; lia].
Qed.

Lemma indexOf_from_absent (i : Z) (l : list string) (str : string) :
  str ∉ l -> Main.indexOf_from i l str = -1.
Proof.
  revert i. induction l as [|x l IH]; intros i Hnin; simpl; [reflexivity|].
  apply not_elem_of_cons in Hnin. destruct Hnin as [Hne Hnin].
  rewrite bool_decide_eq_false_2 by congruence. apply IH. exact Hnin.
Qed.

Lemma parseArgs_no_command (a : list string) :
  "--" ∉ a -> Main.parseArgs a = (a, None).
Proof.
  intros Hnin. unfold Main.parseArgs, Main.indexOf.
  rewrite indexOf_from_absent by exact Hnin. reflexivity.
Qed.

Lemma genOptions_empty_command (a : list string) (flags : Main.options) :
  "--" ∉ a -> Main.kingpin_Parse a = Main.Flags flags ->
  Main.genOptions a = Panic "empty command".
Proof.
  intros Hnin Hp. unfold Main.genOptions.
  rewrite parseArgs_no_command by exact Hnin. rewrite Hp. reflexivity.
Qed.

Lemma genOptions_parse_error (a : list string) (err : error) :
  Main.kingpin_Parse (Main.parseArgs a).1 = Main.ParseError err ->
  Main.genOptions a = Panic err.
Proof.
  unfold Main.genOptions. destruct (Main.parseArgs a) as [appArgs cmdArgs]. simpl.
  intros ->. reflexivity.
Qed.

Lemma genOptions_exit (a : list string) (c : Z) :
  Main.genOptions a = Exit c -> c = 0.
Proof.
  unfold Main.genOptions. destruct (Main.parseArgs a) as [appArgs [cmdArgs|]];
    destruct (Main.kingpin_Parse appArgs); intros Heq; congruence.
Qed.

Lemma mapM_exit {A B : Type} (f : A -> outcome B) (l : list A) (c : Z) :
  mapM f l = Exit c -> exists x, x ∈ l /\ f x = Exit c.
Proof.
  induction l as [|x l IH]; simpl; [discriminate|].
  destruct (f x) as [y|m|c'] eqn:Ex; simpl; [|discriminate|].
  - destruct (mapM f l) as [ys|m|c'] eqn:El; simpl; try discriminate.
    intros Heq. destruct (IH Heq) as (x' & Hin & Hx').
    exists x'. split; [apply elem_of_cons; right; exact Hin | exact Hx'].
  - intros [= ->]. exists x. split; [apply elem_of_cons; left; reflexivity | exact Ex].
Qed.

Lemma mapM_all_ret {A B : Type} (f : A -> outcome B) (l : list A) (ys : list B) :
  Forall2 (fun x y => f x = Ret y) l ys -> mapM f l = Ret ys.
Proof.
  intros Hall. induction Hall as [|x y l ys Hx _ IH]; [reflexivity|].
  simpl. rewrite Hx. simpl. rewrite IH. reflexivity.
Qed.

Lemma mapM_first_panic {A B : Type} (f : A -> outcome B)
    (pre : list A) (x : A) (post : list A) (m : string) :
  Forall (fun y => exists v, f y = Ret v) pre -> f x = Panic m ->
  mapM f (pre ++ x :: post) = Panic m.
Proof.
  intros Hpre Hx. induction Hpre as [|y pre [v Hy] _ IH]; simpl.
  - rewrite Hx. reflexivity.
  - rewrite Hy. simpl. rewrite IH. reflexivity.
Qed.

Lemma MustDo_cases (guard : Gokit.GuardContext) :
  (forall err, Gokit.Do guard = Some err -> Gokit.MustDo guard = Panic err)
  /\ (Gokit.Do guard = None -> Gokit.MustDo guard = Ret tt).
Proof. unfold Gokit.MustDo. split; [intros err ->|intros ->]; reflexivity. Qed.

Lemma supervise_no_exit (opts : Main.options) (c : Z) :
  Main.supervise opts <> Exit c.
Proof.
  unfold Main.supervise, Main.guard_of, Main.genPrefix.
  destruct (bool_decide (Main.prefix opts = "auto")).
  - destruct (elems (Main.cmd opts)) as [|a0 rest]; simpl; [discriminate|].
    unfold Gokit.MustDo. destruct (Gokit.Do _); discriminate.
  - simpl. unfold Gokit.MustDo. destruct (Gokit.Do _); discriminate.
Qed.

Lemma All_exit (fns : list (outcome unit)) (c : Z) :
  Main.All fns = Exit c -> Exit c ∈ fns.
Proof.
  induction fns as [|f fns IH]; simpl; [discriminate|].
  destruct f as [u|m|c']; [|discriminate|].
  - intros Heq. apply elem_of_cons. right. exact (IH Heq).
  - intros [= ->]. apply elem_of_cons. left. reflexivity.
Qed.

Lemma All_all_ret (fns : list (outcome unit)) :
  Forall (fun f => f = Ret tt) fns -> Main.All fns = Ret tt.
Proof.
  intros Hall. induction Hall as [|f fns -> _ IH]; [reflexivity | exact IH].
Qed.

Lemma main_exit (osArgs : list string) (c : Z) :
  Main.main osArgs = Exit c -> c = 0.
Proof.
  unfold Main.main.
  destruct (mapM Main.genOptions (Main.split (Main.argsFromConfigFile osArgs) "---"))
    as [optsList|m|c'] eqn:Em; simpl; [|discriminate|].
  - intros Heq. apply All_exit in Heq.
    apply list_elem_of_fmap in Heq. destruct Heq as (opts & Heq & _).
    symmetry in Heq. exfalso. exact (supervise_no_exit opts c Heq).
  - intros [= ->]. apply mapM_exit in Em. destruct Em as (a & _ & Ha).
    exact (genOptions_exit a c Ha).
Qed.

Lemma mapM_first_exit {A B : Type} (f : A -> outcome B)
    (pre : list A) (x : A) (post : list A) (c : Z) :
  Forall (fun y => exists v, f y = Ret v) pre -> f x = Exit c ->
  mapM f (pre ++ x :: post) = Exit c.
Proof.
  intros Hpre Hx. induction Hpre as [|y pre [v Hy] _ IH]; simpl.
  - rewrite Hx. reflexivity.
  - rewrite Hy. simpl. rewrite IH. reflexivity.
Qed.

Lemma genOptions_terminated (a : list string) :
  Main.kingpin_Parse (Main.parseArgs a).1 = Main.Terminated ->
  Main.genOptions a = Exit 0.
Proof.
  unfold Main.genOptions. destruct (Main.parseArgs a) as [appArgs cmdArgs]. simpl.
  intros ->. reflexivity.
Qed.

(** The errors [Do] returns: a pattern list that does not compile, a walk
    that fails, and whatever the watcher returns once it is closed. *)
Lemma Do_errors (g : Gokit.GuardContext) :
  let ctx := Gokit.Do_defaults g in
  (forall err,
     Gokit.NewMatcher (Gokit.dir ctx) (elems (Gokit.patterns ctx)) = inr err ->
     Gokit.Do g = Some err)
  /\ (forall matcher err,
        Gokit.NewMatcher (Gokit.dir ctx) (elems (Gokit.patterns ctx)) = inl matcher ->
        (Gokit.watchFiles ctx matcher (Gokit.dir ctx)).2 = Some err ->
        Gokit.Do g = Some err)
  /\ (forall matcher,
        Gokit.NewMatcher (Gokit.dir ctx) (elems (Gokit.patterns ctx)) = inl matcher ->
        (Gokit.watchFiles ctx matcher (Gokit.dir ctx)).2 = None ->
        Gokit.Do g = Gokit.watcher_Start (Gokit.Do_interval ctx)).
Proof.
  intros ctx. unfold Gokit.Do. fold ctx. repeat apply conj.
  - intros err ->. reflexivity.
  - intros matcher err ->.
    destruct (Gokit.watchFiles ctx matcher (Gokit.dir ctx)) as [eff res].
    simpl. intros ->. reflexivity.
  - intros matcher ->.
    destruct (Gokit.watchFiles ctx matcher (Gokit.dir ctx)) as [eff res].
    simpl. intros ->. reflexivity.
Qed.

Lemma supervise_error (opts : Main.options) (g : Gokit.GuardContext) (err : error) :
  Main.guard_of opts = Ret g -> Gokit.Do g = Some err ->
  Main.supervise opts = Panic err.
Proof.
  intros Hg Hdo. unfold Main.supervise. rewrite Hg. simpl.
  exact (proj1 (MustDo_cases g) err Hdo).
Qed.

Lemma supervise_stopped (opts : Main.options) (g : Gokit.GuardContext) :
  Main.guard_of opts = Ret g -> Gokit.Do g = None ->
  Main.supervise opts = Ret tt.
Proof.
  intros Hg Hdo. unfold Main.supervise. rewrite Hg. simpl.
  exact (proj2 (MustDo_cases g) Hdo).
Qed.

(** A panic in one of the functions handed to [All] is a panic of [All],
    when none of them leaves the process by itself. *)
Lemma All_some_panic (fns : list (outcome unit)) (m : string) :
  Forall (fun f => forall c, f <> Exit c) fns -> Panic m ∈ fns ->
  exists m', Main.All fns = Panic m'.
Proof.
  intros Hne Hin. induction Hne as [|f fns Hf _ IH].
  - exfalso. exact (not_elem_of_nil _ Hin).
  - simpl. destruct f as [u|m1|c].
    + apply IH. apply elem_of_cons in Hin.
      destruct Hin as [Heq|Hin]; [discriminate Heq | exact Hin].
    + exists m1. reflexivity.
    + exfalso. exact (Hf c eq_refl).
Qed.

Lemma main_supervisor_panic (osArgs : list string) (optsList : list Main.options)
    (opts : Main.options) (m : string) :
  Forall2 (fun a opts => Main.genOptions a = Ret opts)
    (Main.split (Main.argsFromConfigFile osArgs) "---") optsList ->
  opts ∈ optsList -> Main.supervise opts = Panic m ->
  exists m', Main.main osArgs = Panic m'.
Proof.
  intros Hret Hin Hsup. unfold Main.main.
  rewrite (mapM_all_ret Main.genOptions _ optsList Hret). simpl.
  apply (All_some_panic _ m).
  - apply Forall_fmap. apply Forall_forall. intros x _ c. apply supervise_no_exit.
  - rewrite <- Hsup. apply list_elem_of_fmap. exists opts. split; [reflexivity | exact Hin].
Qed.

(** C7, as the code has it.  The command ends with status 0 or 2, never 1.
    It ends with 0 when [main] returns, which it does when every supervisor
    was stopped cleanly, and when kingpin ends the process after printing
    help or the version.  It ends with 2 on every error, for each is a
    panic nothing recovers: in [genOptions] a parse error and a missing
    command, in the supervisors every error [Do] returns to [MustDo], be it
    a pattern list that does not compile, a walk that fails or the error of
    the watcher, and the panic of [genPrefix]. *)
Theorem exit_status_zero_or_two (osArgs : list string) :
  let o := Main.main osArgs in
  let parts := Main.split (Main.argsFromConfigFile osArgs) "---" in
  (Main.exit_status o = 0 \/ Main.exit_status o = 2)
  /\ (forall (pre : list (list string)) (a : list string) (post : list (list string)),
        parts = pre ++ a :: post ->
        Forall (fun b => exists opts, Main.genOptions b = Ret opts) pre ->
        (forall m : string,
           Main.genOptions a = Panic m -> o = Panic m /\ Main.exit_status o = 2)
        /\ (forall flags : Main.options,
              "--" ∉ a -> Main.kingpin_Parse a = Main.Flags flags ->
              o = Panic "empty command" /\ Main.exit_status o = 2)
        /\ (forall err : error,
              Main.kingpin_Parse (Main.parseArgs a).1 = Main.ParseError err ->
              o = Panic err /\ Main.exit_status o = 2)
        /\ (Main.kingpin_Parse (Main.parseArgs a).1 = Main.Terminated ->
            o = Exit 0 /\ Main.exit_status o = 0))
  /\ (forall optsList : list Main.options,
        Forall2 (fun a opts => Main.genOptions a = Ret opts) parts optsList ->
        (Forall (fun opts => Main.supervise opts = Ret tt) optsList ->
         o = Ret tt /\ Main.exit_status o = 0)
        /\ (Forall (fun opts => exists g, Main.guard_of opts = Ret g
                                          /\ Gokit.Do g = None) optsList ->
            o = Ret tt /\ Main.exit_status o = 0)
        /\ (forall (opts : Main.options) (m : string),
              opts ∈ optsList -> Main.supervise opts = Panic m ->
              (exists m', o = Panic m') /\ Main.exit_status o = 2)
        /\ (forall (opts : Main.options) (g : Gokit.GuardContext) (err : error),
              opts ∈ optsList -> Main.guard_of opts = Ret g ->
              Gokit.Do g = Some err ->
              (exists m', o = Panic m') /\ Main.exit_status o = 2)
        /\ (forall (opts : Main.options) (g : Gokit.GuardContext) (err : error),
              opts ∈ optsList -> Main.guard_of opts = Ret g ->
              Gokit.NewMatcher (Gokit.dir (Gokit.Do_defaults g))
                (elems (Gokit.patterns (Gokit.Do_defaults g))) = inr err ->
              (exists m', o = Panic m') /\ Main.exit_status o = 2)
        /\ (forall (opts : Main.options) (g : Gokit.GuardContext)
                   (matcher : Gokit.Matcher) (err : error),
              opts ∈ optsList -> Main.guard_of opts = Ret g ->
              Gokit.NewMatcher (Gokit.dir (Gokit.Do_defaults g))
                (elems (Gokit.patterns (Gokit.Do_defaults g))) = inl matcher ->
              (Gokit.watchFiles (Gokit.Do_defaults g) matcher
                 (Gokit.dir (Gokit.Do_defaults g))).2 = Some err
              \/ ((Gokit.watchFiles (Gokit.Do_defaults g) matcher
                     (Gokit.dir (Gokit.Do_defaults g))).2 = None
                  /\ Gokit.watcher_Start (Gokit.Do_interval (Gokit.Do_defaults g))
                     = Some err) ->
              (exists m', o = Panic m') /\ Main.exit_status o = 2))
  /\ (forall (a : list string) (flags : Main.options),
        "--" ∉ a -> Main.kingpin_Parse a = Main.Flags flags ->
        Main.genOptions a = Panic "empty command")
  /\ (forall (a : list string) (err : error),
        Main.kingpin_Parse (Main.parseArgs a).1 = Main.ParseError err ->
        Main.genOptions a = Panic err)
  /\ (forall (guard : Gokit.GuardContext) (err : error),
        Gokit.Do guard = Some err ->
        Main.exit_status (Gokit.MustDo guard) = 2)
  /\ (forall guard : Gokit.GuardContext,
        Gokit.Do guard = None -> Main.exit_status (Gokit.MustDo guard) = 0).
Proof.
  intros o parts.
  assert (forall pre a post m,
            parts = pre ++ a :: post ->
            Forall (fun b => exists opts, Main.genOptions b = Ret opts) pre ->
            Main.genOptions a = Panic m -> o = Panic m /\ Main.exit_status o = 2)
    as Hpanic.
  { intros pre a post m Hparts Hpre Ha.
    assert (o = Panic m) as ->; [|split; reflexivity].
    subst o. unfold Main.main. fold parts. rewrite Hparts.
    rewrite (mapM_first_panic Main.genOptions pre a post m Hpre Ha). reflexivity. }
  assert (forall optsList opts m,
            Forall2 (fun a opts => Main.genOptions a = Ret opts) parts optsList ->
            opts ∈ optsList -> Main.supervise opts = Panic m ->
            (exists m', o = Panic m') /\ Main.exit_status o = 2)
    as Hsup.
  { intros optsList opts m Hret Hin Hm.
    destruct (main_supervisor_panic osArgs optsList opts m Hret Hin Hm) as [m' Hm'].
    subst o. rewrite Hm'. split; [exists m'|]; reflexivity. }
  assert (forall optsList,
            Forall2 (fun a opts => Main.genOptions a = Ret opts) parts optsList ->
            Forall (fun opts => Main.supervise opts = Ret tt) optsList ->
            o = Ret tt /\ Main.exit_status o = 0)
    as Hclean.
  { intros optsList Hret Hall.
    assert (o = Ret tt) as ->; [|split; reflexivity].
    subst o. unfold Main.main. fold parts.
    rewrite (mapM_all_ret Main.genOptions parts optsList Hret). simpl.
    apply All_all_ret. apply Forall_fmap. exact Hall. }
  repeat apply conj.
  - destruct o as [u|m|c] eqn:Eo; simpl; [left; reflexivity | right; reflexivity|].
    left. exact (main_exit osArgs c Eo).
  - intros pre a post Hparts Hpre. repeat apply conj.
    + intros m. exact (Hpanic pre a post m Hparts Hpre).
    + intros flags Hnin Hp.
      exact (Hpanic pre a post _ Hparts Hpre (genOptions_empty_command a flags Hnin Hp)).
    + intros err Hp.
      exact (Hpanic pre a post _ Hparts Hpre (genOptions_parse_error a err Hp)).
    + intros Hp.
      assert (o = Exit 0) as ->; [|split; reflexivity].
      subst o. unfold Main.main. fold parts. rewrite Hparts.
      rewrite (mapM_first_exit Main.genOptions pre a post 0 Hpre
                 (genOptions_terminated a Hp)).
      reflexivity.
  - intros optsList Hret. repeat apply conj.
    + exact (Hclean optsList Hret).
    + intros Hall. apply (Hclean optsList Hret).
      eapply Forall_impl; [exact Hall|].
      intros opts (g & Hg & Hdo). exact (supervise_stopped opts g Hg Hdo).
    + intros opts m. exact (Hsup optsList opts m Hret).
    + intros opts g err Hin Hg Hdo.
      exact (Hsup optsList opts err Hret Hin (supervise_error opts g err Hg Hdo)).
    + intros opts g err Hin Hg Hm.
      apply (Hsup optsList opts err Hret Hin). apply (supervise_error opts g err Hg).
      exact (proj1 (Do_errors g) err Hm).
    + intros opts g matcher err Hin Hg Hm Hcase.
      apply (Hsup optsList opts err Hret Hin). apply (supervise_error opts g err Hg).
      destruct (Do_errors g) as (_ & Hwalk & Hstart).
      destruct Hcase as [Hw | [Hw Hs]].
      * exact (Hwalk matcher err Hm Hw).
      * rewrite (Hstart matcher Hm Hw). exact Hs.
  - apply genOptions_empty_command.
  - apply genOptions_parse_error.
  - intros guard err Hdo. rewrite (proj1 (MustDo_cases guard) err Hdo). reflexivity.
  - intros guard Hdo. rewrite (proj2 (MustDo_cases guard) Hdo). reflexivity.
Qed.

End ExitStatus.

(** C7 as it is worded fails for [guard -w "*.go"], a command line without
    command: the process panics with [empty command] and leaves with status
    2, not 1.  So it does, in a world where patterns do not compile, for
    [guard -- ls]. *)
Lemma empty_command_exits_two :
  let run := @Main.main Reference.files Reference.kingpin Reference.color
               Reference.filepath in
  run (Reference.walking None) ["-w"; "*.go"] = Panic "empty command"
  /\ Main.exit_status (run (Reference.walking None) ["-w"; "*.go"]) = 2
  /\ Main.exit_status (run (Reference.walking None) ["-w"; "*.go"]) <> 1
  /\ Main.exit_status (run Reference.walking_bad_pattern ["--"; "ls"]) = 2.
Proof. vm_compute. repeat split. discriminate. Qed.

(** C7, on [guard -- ls] stopped cleanly, on the same command line when the
    patterns do not compile and when the watcher fails, and on
    [guard --help]. *)
Lemma exit_status_zero_or_two_witness :
  let run := @Main.main Reference.files Reference.kingpin Reference.color
               Reference.filepath in
  Main.exit_status (run (Reference.walking None) ["--"; "ls"]) = 0
  /\ Main.exit_status (run Reference.walking_bad_pattern ["--"; "ls"]) = 2
  /\ Main.exit_status (run (Reference.walking (Some "watcher: failed")) ["--"; "ls"]) = 2
  /\ Main.exit_status (run (Reference.walking None) ["--help"]) = 0.
Proof.
  intros run.
  destruct (@Main.genOptions Reference.kingpin ["--"; "ls"]) as [opts| |] eqn:Eo;
    [| (vm_compute in Eo; discriminate Eo) ..].
  destruct (@Main.guard_of Reference.color opts) as [g| |] eqn:Eg;
    [| (vm_compute in Eo; injection Eo as <-; vm_compute in Eg; discriminate Eg) ..].
  assert (Forall2 (fun a opts => @Main.genOptions Reference.kingpin a = Ret opts)
            [["--"; "ls"]] [opts]) as Hret
    by (constructor; [exact Eo | constructor]).
  assert (opts ∈ [opts]) as Hin by (apply elem_of_cons; left; reflexivity).
  repeat apply conj.
  - destruct (@exit_status_zero_or_two Reference.files Reference.kingpin Reference.color
                Reference.filepath (Reference.walking None) ["--"; "ls"])
      as (_ & _ & Hsup & _).
    destruct (Hsup [opts] Hret) as (_ & Hclean & _).
    apply Hclean. constructor; [|constructor].
    exists g. split; [exact Eg|].
    vm_compute in Eo. injection Eo as <-. vm_compute in Eg. injection Eg as <-.
    reflexivity.
  - destruct (@exit_status_zero_or_two Reference.files Reference.kingpin Reference.color
                Reference.filepath Reference.walking_bad_pattern ["--"; "ls"])
      as (_ & _ & Hsup & _).
    destruct (Hsup [opts] Hret) as (_ & _ & _ & _ & Hpattern & _).
    apply (Hpattern opts g "syntax error in pattern" Hin Eg). reflexivity.
  - destruct (@exit_status_zero_or_two Reference.files Reference.kingpin Reference.color
                Reference.filepath (Reference.walking (Some "watcher: failed"))
                ["--"; "ls"])
      as (_ & _ & Hsup & _).
    destruct (Hsup [opts] Hret) as (_ & _ & _ & _ & _ & Hrun).
    apply (Hrun opts g Reference.match_all "watcher: failed" Hin Eg); [reflexivity|].
    right. split; reflexivity.
  - destruct (@exit_status_zero_or_two Reference.files Reference.kingpin Reference.color
                Reference.filepath (Reference.walking None) ["--help"])
      as (_ & Hfirst & _).
    destruct (Hfirst [] ["--help"] [] eq_refl (Forall_nil_2 _)) as (_ & _ & _ & Hend).
    apply Hend. reflexivity.
Defined.


(** * Further properties *)

(** ** Cutting the command line *)

Section CommandLine.

Lemma indexOf_from_first (i : Z) (pre : list string) (str : string) (post : list string) :
  str ∉ pre ->
  Main.indexOf_from i (pre ++ str :: post) str = i + Z.of_nat (length pre).
Proof.
  revert i. induction pre as [|x pre IH]; intros i Hnin; simpl.
  - rewrite bool_decide_eq_true_2 by reflexivity. lia.
  - apply not_elem_of_cons in Hnin. destruct Hnin as [Hne Hnin].
    rewrite bool_decide_eq_false_2 by congruence.
    rewrite IH by exact Hnin. lia.
Qed.

(** X1.  [indexOf] finds the first occurrence: it answers [-1] exactly when the
    string does not occur, and otherwise the number of elements before the
    first occurrence. *)
Theorem indexOf_first_occurrence (l : list string) (str : string) :
  (Main.indexOf l str = -1 <-> str ∉ l)
  /\ (forall pre post : list string,
        l = pre ++ str :: post -> str ∉ pre ->
        Main.indexOf l str = Z.of_nat (length pre)
        /\ l !! Z.to_nat (Main.indexOf l str) = Some str).
Proof.
  split.
  - split.
    + intros Hi Hin. apply (list_elem_of_split_l l str) in Hin.
      destruct Hin as (pre & post & -> & Hpre).
      unfold Main.indexOf in Hi. rewrite indexOf_from_first in Hi by exact Hpre. lia.
    + apply indexOf_from_absent.
  - intros pre post -> Hpre. unfold Main.indexOf.
    rewrite indexOf_from_first by exact Hpre. split; [lia|].
    rewrite Z.add_0_l, Nat2Z.id. apply list_lookup_middle. reflexivity.
Qed.

Lemma parseArgs_at_separator (pre post : list string) :
  "--" ∉ pre -> Main.parseArgs (pre ++ "--" :: post) = (pre, Some post).
Proof.
  intros Hpre. unfold Main.parseArgs, Main.indexOf.
  rewrite indexOf_from_first by exact Hpre. rewrite Z.add_0_l.
  destruct (Z.eqb_spec (Z.of_nat (length pre)) (-1)) as [Hneg|_]; [lia|].
  rewrite Nat2Z.id.
  replace (Z.to_nat (Z.of_nat (length pre) + 1)) with (S (length pre)) by lia.
  rewrite take_app_length.
  change (pre ++ "--" :: post) with (pre ++ ["--"] ++ post).
  rewrite app_assoc.
  replace (S (length pre)) with (length (pre ++ ["--"]))
    by (rewrite length_app; simpl; lia).
  rewrite drop_app_length. reflexivity.
Qed.

(** X2.  [parseArgs] cuts at the first ["--"]: what precedes it are the flags,
    what follows it, later ["--"] included, is the command, which is not
    nil even when it is empty.  Without a ["--"] the command is nil. *)
Theorem parseArgs_first_separator :
  (forall a : list string, "--" ∉ a -> Main.parseArgs a = (a, None))
  /\ (forall pre post : list string,
        "--" ∉ pre -> Main.parseArgs (pre ++ "--" :: post) = (pre, Some post)).
Proof.
  split.
  - intros a Hnin. unfold Main.parseArgs, Main.indexOf.
    rewrite indexOf_from_absent by exact Hnin. reflexivity.
  - apply parseArgs_at_separator.
Qed.

Lemma split_from_nonempty (tmp a : list string) : More.split_from tmp a <> [].
Proof.
  revert tmp. induction a as [|arg a IH]; intros tmp; simpl; [discriminate|].
  destruct (bool_decide (arg = "---")); [discriminate | apply IH].
Qed.

Lemma split_foldl (a : list string) (l : list (list string)) (tmp : list string) :
  (let '(l', tmp') :=
     foldl (fun '(l, tmp) arg =>
              if bool_decide (arg = "---") then (l ++ [tmp], [])
              else (l, tmp ++ [arg]))
           (l, tmp) a in
   l' ++ [tmp'])
  = l ++ More.split_from tmp a.
Proof.
  revert l tmp. induction a as [|arg a IH]; intros l tmp; simpl; [reflexivity|].
  destruct (bool_decide (arg = "---")).
  - rewrite IH. rewrite <- app_assoc. reflexivity.
  - apply IH.
Qed.

Lemma split_split_from (a : list string) (sep : string) :
  Main.split a sep = More.split_from [] a.
Proof. unfold Main.split. apply (split_foldl a [] []). Qed.

Lemma unsplit_cons (p : list string) (rest : list (list string)) :
  rest <> [] -> More.unsplit (p :: rest) = p ++ "---" :: More.unsplit rest.
Proof. destruct rest; [congruence | reflexivity]. Qed.

Lemma unsplit_split_from (tmp a : list string) :
  More.unsplit (More.split_from tmp a) = tmp ++ a.
Proof.
  revert tmp. induction a as [|arg a IH]; intros tmp; simpl.
  - rewrite app_nil_r. reflexivity.
  - destruct (bool_decide_reflect (arg = "---")) as [->|Hne].
    + rewrite unsplit_cons by apply split_from_nonempty. rewrite IH. reflexivity.
    + rewrite IH. rewrite <- app_assoc. reflexivity.
Qed.

Lemma split_from_clean (tmp a : list string) :
  "---" ∉ tmp -> Forall (fun p => "---" ∉ p) (More.split_from tmp a).
Proof.
  revert tmp. induction a as [|arg a IH]; intros tmp Htmp; simpl.
  - constructor; [exact Htmp | constructor].
  - destruct (bool_decide_reflect (arg = "---")) as [->|Hne].
    + constructor; [exact Htmp|]. apply IH. apply not_elem_of_nil.
    + apply IH. intros Hin. apply elem_of_app in Hin. destruct Hin as [Hin|Hin].
      * exact (Htmp Hin).
      * apply list_elem_of_singleton in Hin. congruence.
Qed.

Lemma split_from_app (tmp p a : list string) :
  "---" ∉ p -> More.split_from tmp (p ++ a) = More.split_from (tmp ++ p) a.
Proof.
  revert tmp. induction p as [|x p IH]; intros tmp Hp; simpl.
  - rewrite app_nil_r. reflexivity.
  - apply not_elem_of_cons in Hp. destruct Hp as [Hne Hp].
    rewrite bool_decide_eq_false_2 by congruence.
    rewrite IH by exact Hp. rewrite <- app_assoc. reflexivity.
Qed.

Lemma split_from_sep (tmp a : list string) :
  More.split_from tmp ("---" :: a) = tmp :: More.split_from [] a.
Proof. reflexivity. Qed.

Lemma split_from_unsplit (tmp : list string) (p : list string) (rest : list (list string)) :
  Forall (fun q => "---" ∉ q) (p :: rest) ->
  More.split_from tmp (More.unsplit (p :: rest)) = (tmp ++ p) :: rest.
Proof.
  revert tmp p. induction rest as [|q rest IH]; intros tmp p Hall.
  - simpl. apply Forall_cons in Hall. destruct Hall as [Hp _].
    rewrite <- (app_nil_r p) at 1. rewrite split_from_app by exact Hp.
    reflexivity.
  - apply Forall_cons in Hall. destruct Hall as [Hp Hall].
    rewrite unsplit_cons by discriminate.
    rewrite split_from_app by exact Hp. rewrite split_from_sep.
    rewrite (IH [] q Hall). reflexivity.
Qed.

(** X3.  [split] loses nothing: the partitions, put together with ["---"]
    between them, are the arguments again; none contains ["---"], there is
    always at least one, and the separator handed to [split] plays no
    part. *)
Theorem split_unsplit (a : list string) (sep : string) :
  More.unsplit (Main.split a sep) = a
  /\ Forall (fun p => "---" ∉ p) (Main.split a sep)
  /\ Main.split a sep <> []
  /\ Main.split a sep = Main.split a "---".
Proof.
  rewrite !split_split_from. repeat apply conj.
  - apply (unsplit_split_from [] a).
  - apply split_from_clean. apply not_elem_of_nil.
  - apply split_from_nonempty.
  - reflexivity.
Qed.

(** X4.  Conversely, partitions free of ["---"] that are put together are found
    again by [split]. *)
Theorem split_of_unsplit (parts : list (list string)) (sep : string) :
  parts <> [] ->
  Forall (fun p => "---" ∉ p) parts ->
  Main.split (More.unsplit parts) sep = parts.
Proof.
  intros Hne Hall. destruct parts as [|p rest]; [congruence|].
  rewrite split_split_from. apply (split_from_unsplit [] p rest Hall).
Qed.

End CommandLine.

(** Membership in a list of literals, decided by evaluation. *)
Ltac decide_by_evaluation := apply (bool_decide_unpack _); vm_compute; exact I.

(** On [guard -c -- ls -- -l]. *)
Lemma indexOf_first_occurrence_witness :
  Main.indexOf ["-c"; "--"; "ls"; "--"; "-l"] "--" = 1.
Proof.
  destruct (indexOf_first_occurrence ["-c"; "--"; "ls"; "--"; "-l"] "--") as [_ Hfirst].
  destruct (Hfirst ["-c"] ["ls"; "--"; "-l"] eq_refl) as [Hi _]; [|exact Hi].
  decide_by_evaluation.
Defined.

Lemma parseArgs_first_separator_witness :
  Main.parseArgs ["-c"; "--"; "ls"; "--"; "-l"] = (["-c"], Some ["ls"; "--"; "-l"]).
Proof.
  destruct parseArgs_first_separator as [_ Hcut].
  apply (Hcut ["-c"] ["ls"; "--"; "-l"]). decide_by_evaluation.
Defined.

(** On the partitions of [-w a/* -- ls a --- -w b/* -- ls b]. *)
Lemma split_of_unsplit_witness :
  Main.split ["-w"; "a/*"; "--"; "ls"; "a"; "---"; "-w"; "b/*"; "--"; "ls"; "b"] ""
  = [["-w"; "a/*"; "--"; "ls"; "a"]; ["-w"; "b/*"; "--"; "ls"; "b"]].
Proof.
  apply (split_of_unsplit
           [["-w"; "a/*"; "--"; "ls"; "a"]; ["-w"; "b/*"; "--"; "ls"; "b"]] "").
  - discriminate.
  - repeat constructor; decide_by_evaluation.
Defined.

(** ** Arguments read from a file, continued *)

Section ConfigLines.
Context {Fs : Files}.

Lemma append_cons (c : ascii) (s t : string) :
  String c s +:+ t = String c (s +:+ t).
Proof. reflexivity. Qed.

Lemma has_break_snoc (s : string) (c : ascii) :
  More.has_break (s +:+ String c EmptyString) = More.has_break s || Regexp.is_break c.
Proof.
  induction s as [|x s IH].
  - simpl. rewrite orb_false_r. reflexivity.
  - rewrite append_cons. simpl. rewrite IH. rewrite orb_assoc. reflexivity.
Qed.

Lemma append_snoc_assoc (cur : string) (c : ascii) (s : string) :
  (cur +:+ String c EmptyString) +:+ s = cur +:+ String c s.
Proof.
  induction cur as [|x cur IH]; [reflexivity|].
  rewrite !append_cons. rewrite IH. reflexivity.
Qed.

Lemma append_empty_r (s : string) : s +:+ EmptyString = s.
Proof.
  induction s as [|x s IH]; [reflexivity|]. rewrite append_cons, IH. reflexivity.
Qed.

Lemma split_breaks_nonempty (s cur : string) (in_run : bool) :
  Regexp.split_breaks s cur in_run <> [].
Proof.
  revert cur in_run. induction s as [|c s IH]; intros cur in_run; simpl; [discriminate|].
  destruct (Regexp.is_break c); [destruct in_run; [apply IH | discriminate] | apply IH].
Qed.

Lemma split_breaks_no_break (s cur : string) (in_run : bool) :
  More.has_break cur = false ->
  Forall (fun piece => More.has_break piece = false) (Regexp.split_breaks s cur in_run).
Proof.
  revert cur in_run. induction s as [|c s IH]; intros cur in_run Hcur; simpl.
  - constructor; [exact Hcur | constructor].
  - destruct (Regexp.is_break c) eqn:Ec.
    + destruct in_run; [apply IH; exact Hcur|].
      constructor; [exact Hcur | apply IH; reflexivity].
    + apply IH. rewrite has_break_snoc, Hcur, Ec. reflexivity.
Qed.

Lemma split_breaks_plain (s cur : string) :
  More.has_break s = false ->
  Regexp.split_breaks s cur false = [cur +:+ s].
Proof.
  revert cur. induction s as [|c s IH]; intros cur Hs; simpl in *.
  - rewrite append_empty_r. reflexivity.
  - apply orb_false_elim in Hs. destruct Hs as [Hc Hs]. rewrite Hc.
    rewrite IH by exact Hs. rewrite append_snoc_assoc. reflexivity.
Qed.

(** While a run of breaks is read, the piece being read is empty. *)
Lemma split_breaks_trailing (s cur : string) (in_run : bool) (c : ascii) :
  Regexp.is_break c = true ->
  (in_run = true -> cur = EmptyString) ->
  last (Regexp.split_breaks (s +:+ String c EmptyString) cur in_run) = Some EmptyString.
Proof.
  intros Hc. revert cur in_run. induction s as [|x s IH]; intros cur in_run Hinv.
  - simpl. rewrite Hc. destruct in_run; [rewrite (Hinv eq_refl)|]; reflexivity.
  - rewrite append_cons. simpl. destruct (Regexp.is_break x).
    + destruct in_run; [apply IH; exact Hinv|].
      rewrite last_cons. rewrite IH by reflexivity. reflexivity.
    + apply IH. discriminate.
Qed.

(** X7.  The arguments read from a file are its lines: there is at least one,
    none holds a line break, a file without line break is one argument, and
    a file that ends in a line break gives an empty last argument. *)
Theorem config_file_lines (pre : list string) (e : string) (post : list string)
    (f : string) :
  Forall (fun x => Main.is_config_ref x = false) pre ->
  Main.is_config_ref e = true ->
  kit_ReadFile (Main.tail1 e) = inl f ->
  let r := Main.argsFromConfigFile (pre ++ e :: post) in
  r <> []
  /\ Forall (fun x => More.has_break x = false) r
  /\ (More.has_break f = false -> r = [f])
  /\ (forall (f' : string) (c : ascii),
        f = f' +:+ String c EmptyString -> Regexp.is_break c = true ->
        last r = Some EmptyString).
Proof.
  intros Hpre He Hf r.
  assert (r = Regexp.Split f) as ->.
  { subst r. unfold Main.argsFromConfigFile.
    rewrite argsFromConfigFile_loop_skip by exact Hpre.
    simpl. rewrite He, Hf. reflexivity. }
  unfold Regexp.Split. repeat apply conj.
  - apply split_breaks_nonempty.
  - apply split_breaks_no_break. reflexivity.
  - intros Hplain. exact (split_breaks_plain f EmptyString Hplain).
  - intros f' c -> Hc. apply split_breaks_trailing; [exact Hc | discriminate].
Qed.

End ConfigLines.

(** On [guard @guard.conf], whose file holds five lines and no final line
    break. *)
Lemma config_file_lines_witness :
  Forall (fun x => More.has_break x = false)
    (@Main.argsFromConfigFile Reference.files ["@guard.conf"]).
Proof.
  eapply (@config_file_lines Reference.files [] "@guard.conf" []).
  - constructor.
  - reflexivity.
  - reflexivity.
Defined.

(** ** The supervisor the command line builds *)

Section CliSupervisor.
Context {Kp : Main.Kingpin} {K : Color} {F : Filepath} {M : Mustache} {W : Gokit.Walking}.

(** X6.  A command line whose ["--"] is its last token passes the check for an
    empty command: the command is the empty, non-nil slice.  With the
    default prefix the supervisor is then never built, because [genPrefix]
    reads [args[0]] and panics. *)
Theorem bare_separator_command (app : list string) (flags : Main.options) :
  "--" ∉ app ->
  Main.kingpin_Parse app = Main.Flags flags ->
  exists opts,
    Main.genOptions (app ++ ["--"]) = Ret opts
    /\ Main.cmd opts = Some []
    /\ Main.prefix opts = Main.prefix flags
    /\ (Main.prefix flags = "auto" ->
        exists m, Main.guard_of opts = Panic m /\ Main.supervise opts = Panic m)
    /\ (Main.prefix flags <> "auto" -> exists g, Main.guard_of opts = Ret g).
Proof.
  intros Hnin Hp. unfold Main.genOptions.
  rewrite (parseArgs_at_separator app [] Hnin). rewrite Hp.
  eexists. split; [reflexivity|]. simpl. split; [reflexivity|]. split; [reflexivity|].
  unfold Main.supervise, Main.guard_of, Main.genPrefix. simpl. split.
  - intros ->. rewrite bool_decide_eq_true_2 by reflexivity. simpl. eauto.
  - intros Hne. rewrite bool_decide_eq_false_2 by exact Hne. simpl. eauto.
Qed.

(** X8.  The supervisor built from the options never has a working directory of
    its own: [--dir] goes to the exec context only, and each run overrides
    it there with the supervisor's empty one.  The exec context is in raw
    mode whatever [--raw] says, and [--raw] is not read at all.  The
    debounce and poll intervals are those of the options, so the defaults
    of [Do] do not apply. *)
Theorem cli_supervisor_shape (opts : Main.options) (g : Gokit.GuardContext) :
  Main.guard_of opts = Ret g ->
  Gokit.dir g = ""
  /\ Gokit.args g = elems (Main.cmd opts)
  /\ Gokit.Do_debounce g = Main.debounce opts
  /\ Gokit.Do_interval g = Main.poll opts
  /\ Gokit.clearScreen g = Main.clearScreen opts
  /\ Gokit.noInitRun g = Main.noInitRun opts
  /\ (exists c, Gokit.execCtx g = Some c
                /\ Gokit.exec_dir c = Main.dir opts
                /\ Gokit.exec_raw c = true
                /\ forall e : option Watcher.Event,
                     let r := Gokit.run_exec (Gokit.run (Gokit.Do_defaults g) e).2 in
                     Gokit.exec_dir r = ""
                     /\ Gokit.exec_raw r = true
                     /\ Gokit.exec_prefix r = Gokit.exec_prefix c)
  /\ (forall b : bool,
        Main.guard_of
          {| Main.patterns := Main.patterns opts; Main.dir := Main.dir opts;
             Main.cmd := Main.cmd opts; Main.prefix := Main.prefix opts;
             Main.clearScreen := Main.clearScreen opts;
             Main.noInitRun := Main.noInitRun opts; Main.raw := b;
             Main.poll := Main.poll opts; Main.debounce := Main.debounce opts |}
        = Ret g).
Proof.
  unfold Main.guard_of.
  destruct (Main.genPrefix (Main.prefix opts) (elems (Main.cmd opts))) as [p| |] eqn:Ep;
    simpl; try discriminate.
  intros [= <-].
  repeat apply conj;
    try (destruct (Main.clearScreen opts), (Main.noInitRun opts); reflexivity).
  - eexists. split; [destruct (Main.clearScreen opts), (Main.noInitRun opts); reflexivity|].
    split; [reflexivity|]. split; [reflexivity|].
    intros e.
    destruct (Main.clearScreen opts), (Main.noInitRun opts);
      unfold Gokit.run;
      destruct (Gokit.unescapeArgs _ _ e) as [rendered logged];
      repeat split.
  - intros b. rewrite Ep. reflexivity.
Qed.

End CliSupervisor.

(** On [guard --], with the flags kingpin gives an empty flag list. *)
Lemma bare_separator_command_witness :
  exists opts,
    @Main.genOptions Reference.kingpin ([] ++ ["--"]) = Ret opts
    /\ Main.cmd opts = Some []
    /\ exists m, @Main.supervise Reference.color Reference.filepath
                   (Reference.walking None) opts = Panic m.
Proof.
  destruct (@bare_separator_command Reference.kingpin Reference.color Reference.filepath
              (Reference.walking None) [] Reference.flag_defaults)
    as (opts & Hgen & Hcmd & _ & Hauto & _).
  - decide_by_evaluation.
  - reflexivity.
  - exists opts. split; [exact Hgen|]. split; [exact Hcmd|].
    destruct (Hauto eq_refl) as (m & _ & Hs). exists m. exact Hs.
Defined.

(** On [guard -d sub --raw -p ls -- ls]. *)
Lemma cli_supervisor_shape_witness :
  let opts :=
    {| Main.patterns := None; Main.dir := "sub"; Main.cmd := Some ["ls"];
       Main.prefix := "ls"; Main.clearScreen := false; Main.noInitRun := false;
       Main.raw := true; Main.poll := 300000000; Main.debounce := 300000000 |} in
  exists g, @Main.guard_of Reference.color opts = Ret g /\ Gokit.dir g = "".
Proof.
  intros opts.
  destruct (@Main.guard_of Reference.color opts) as [g| |] eqn:E;
    [| (vm_compute in E; discriminate E) ..].
  exists g. split; [reflexivity|].
  apply (@cli_supervisor_shape Reference.color Reference.filepath Reference.mustache
           opts g E).
Defined.

(** ** The event loop, continued *)

Section EventLoop.
Context {F : Filepath} {W : Gokit.Walking} {K : Color}.
Variable ctx : Gokit.GuardContext.
Variable matcher : Gokit.Matcher.
Variable d : Time.Duration.

Lemma event_loop_event (lastRun : Time.Time) (e : Watcher.Event) (o : Gokit.Obs)
    (rest : list Gokit.Msg) :
  Gokit.event_loop ctx matcher d lastRun (Gokit.OnEvent e o :: rest)
  = ((Gokit.event_loop ctx matcher d
        (Gokit.on_event ctx matcher d lastRun e o).1 rest).1,
     (Gokit.on_event ctx matcher d lastRun e o).2
     ++ (Gokit.event_loop ctx matcher d
           (Gokit.on_event ctx matcher d lastRun e o).1 rest).2).
Proof.
  simpl. destruct (Gokit.on_event ctx matcher d lastRun e o) as [l' eff].
  cbn [fst snd].
  destruct (Gokit.event_loop ctx matcher d l' rest) as [final effs]. reflexivity.
Qed.

Lemma event_loop_error (lastRun : Time.Time) (err : error) (rest : list Gokit.Msg) :
  Gokit.event_loop ctx matcher d lastRun (Gokit.OnError err :: rest)
  = ((Gokit.event_loop ctx matcher d lastRun rest).1,
     Gokit.ELogError err :: (Gokit.event_loop ctx matcher d lastRun rest).2).
Proof.
  simpl. destruct (Gokit.event_loop ctx matcher d lastRun rest) as [final effs].
  reflexivity.
Qed.

(** X10.  Once the watcher is closed the loop has returned: what is sent after
    that has no effect, and leaves the recorded time alone. *)
Theorem closed_ends_loop (lastRun : Time.Time) (before after : list Gokit.Msg) :
  Gokit.event_loop ctx matcher d lastRun (before ++ Gokit.OnClosed :: after)
  = Gokit.event_loop ctx matcher d lastRun before.
Proof.
  revert lastRun. induction before as [|m before IH]; intros lastRun; [reflexivity|].
  destruct m as [e o|err|].
  - change ((Gokit.OnEvent e o :: before) ++ Gokit.OnClosed :: after)
      with (Gokit.OnEvent e o :: (before ++ Gokit.OnClosed :: after)).
    rewrite !event_loop_event, IH. reflexivity.
  - change ((Gokit.OnError err :: before) ++ Gokit.OnClosed :: after)
      with (Gokit.OnError err :: (before ++ Gokit.OnClosed :: after)).
    rewrite !event_loop_error, IH. reflexivity.
  - reflexivity.
Qed.

(** X11.  Errors of the watcher and events the matcher does not admit only leave
    lines in the log: the recorded time stays, nothing is added to the
    watcher, no child is killed or run. *)
Theorem passed_over_only_logged (lastRun : Time.Time) (msgs : list Gokit.Msg) :
  Forall (More.passed_over matcher) msgs ->
  (Gokit.event_loop ctx matcher d lastRun msgs).1 = lastRun
  /\ Forall (fun x => More.is_log x = true)
       (Gokit.event_loop ctx matcher d lastRun msgs).2
  /\ Gokit.restarts (Gokit.event_loop ctx matcher d lastRun msgs).2 = 0.
Proof.
  intros Hall. induction Hall as [|m msgs Hm _ (IH1 & IH2 & IH3)].
  - repeat split. constructor.
  - destruct m as [e o|err|].
    + unfold More.passed_over in Hm.
      destruct (matcher (Watcher.Path e) (Watcher.IsDir e)) as [matched merr] eqn:Em.
      cbn [fst] in Hm. rewrite Hm in Em. clear Hm matched.
      rewrite event_loop_event.
      rewrite (on_event_unmatched ctx matcher d lastRun e o merr Em). cbn [fst snd].
      split; [exact IH1|]. split.
      * apply Forall_app. split; [|exact IH2].
        destruct merr; repeat constructor.
      * rewrite restarts_app, IH3. destruct merr; reflexivity.
    + rewrite event_loop_error. cbn [fst snd].
      split; [exact IH1|]. split; [constructor; [reflexivity | exact IH2]|].
      change (Gokit.ELogError err :: (Gokit.event_loop ctx matcher d lastRun msgs).2)
        with ([Gokit.ELogError err] ++ (Gokit.event_loop ctx matcher d lastRun msgs).2).
      rewrite restarts_app, IH3. reflexivity.
    + repeat split. constructor.
Qed.

(** X12.  A burst never restarts: as long as every matched event is served less
    than the debounce interval after the event before it, none is let
    through, however long the burst lasts, and the recorded time follows
    the last event. *)
Theorem burst_never_restarts (lastRun : Time.Time)
    (evs : list (Watcher.Event * Gokit.Obs)) :
  Spec.all_matched matcher evs ->
  More.within d lastRun (map snd evs) ->
  Gokit.restarts (Gokit.event_loop ctx matcher d lastRun (Spec.events evs)).2 = 0
  /\ (Gokit.event_loop ctx matcher d lastRun (Spec.events evs)).1
     = More.last_set lastRun (map snd evs).
Proof.
  revert lastRun. induction evs as [|[e o] rest IH]; intros lastRun Hall Hin.
  - split; reflexivity.
  - apply Forall_cons in Hall. destruct Hall as [Hm Hall].
    destruct Hin as [Hlt Hin].
    cbn [fst] in Hm.
    destruct (matcher (Watcher.Path e) (Watcher.IsDir e)) as [matched merr] eqn:Em.
    cbn [fst] in Hm. subst matched.
    change (Spec.events ((e, o) :: rest)) with (Gokit.OnEvent e o :: Spec.events rest).
    rewrite event_loop_event.
    rewrite (on_event_dropped ctx matcher d lastRun e o merr Em Hlt). cbn [fst snd].
    destruct (IH (Gokit.now_set o) Hall Hin) as [IH1 IH2].
    split.
    + rewrite restarts_app, IH1. destruct merr; reflexivity.
    + rewrite IH2. unfold More.last_set.
      change (map snd ((e, o) :: rest)) with (o :: map snd rest).
      rewrite last_cons. destruct (last (map snd rest)); reflexivity.
Qed.

(** X13.  Events that keep their distance all restart: when every matched event
    is served at least the debounce interval after the one before it, each
    starts a run. *)
Theorem spaced_events_all_restart (lastRun : Time.Time)
    (evs : list (Watcher.Event * Gokit.Obs)) :
  Spec.all_matched matcher evs ->
  More.spaced d lastRun (map snd evs) ->
  Gokit.restarts (Gokit.event_loop ctx matcher d lastRun (Spec.events evs)).2
  = Z.of_nat (length evs)
  /\ (Gokit.event_loop ctx matcher d lastRun (Spec.events evs)).1
     = More.last_set lastRun (map snd evs).
Proof.
  revert lastRun. induction evs as [|[e o] rest IH]; intros lastRun Hall Hsp.
  - split; reflexivity.
  - apply Forall_cons in Hall. destruct Hall as [Hm Hall].
    destruct Hsp as [Hge Hsp].
    cbn [fst] in Hm.
    destruct (matcher (Watcher.Path e) (Watcher.IsDir e)) as [matched merr] eqn:Em.
    cbn [fst] in Hm. subst matched.
    change (Spec.events ((e, o) :: rest)) with (Gokit.OnEvent e o :: Spec.events rest).
    rewrite event_loop_event.
    rewrite (on_event_served ctx matcher d lastRun e o merr Em Hge). cbn [fst snd].
    destruct (IH (Gokit.now_set o) Hall Hsp) as [IH1 IH2].
    split.
    + rewrite !restarts_app, restarts_served_before, IH1.
      change (Gokit.restarts [Gokit.EGoRun e]) with 1.
      change (length ((e, o) :: rest)) with (S (length rest)). lia.
    + rewrite IH2. unfold More.last_set.
      change (map snd ((e, o) :: rest)) with (o :: map snd rest).
      rewrite last_cons. destruct (last (map snd rest)); reflexivity.
Qed.

End EventLoop.

Section KillAndRun.
Context {F : Filepath} {W : Gokit.Walking} {K : Color}.
Variable ctx : Gokit.GuardContext.
Variable matcher : Gokit.Matcher.
Variable d : Time.Duration.

Lemma kill_then_run_without (t : list Gokit.Effect) :
  Gokit.EKillTree ∉ t -> More.kill_then_run t.
Proof.
  intros Hnin xs ys ->. exfalso. apply Hnin.
  apply elem_of_app. right. apply elem_of_cons. left. reflexivity.
Qed.

Lemma kill_then_run_app (a b : list Gokit.Effect) :
  More.kill_then_run a -> More.kill_then_run b -> More.kill_then_run (a ++ b).
Proof.
  intros Ha Hb xs ys Heq.
  apply app_eq_inv in Heq. destruct Heq as [(k & Hxs & Hk) | (k & Hxs & Hk)].
  - destruct k as [|x k].
    + simpl in Hk. rewrite app_nil_r in Hxs. subst.
      exact (Hb [] ys eq_refl).
    + injection Hk as <- ->.
      destruct (Ha xs k Hxs) as (e & ys' & ->).
      exists e, (ys' ++ b). reflexivity.
  - exact (Hb k ys Hk).
Qed.

Lemma kill_then_run_restart (started : bool) (e : Watcher.Event) :
  More.kill_then_run
    ((if started then [Gokit.EKillTree; Gokit.EAwait] else []) ++ [Gokit.EGoRun e]).
Proof.
  destruct started.
  - intros xs ys Heq. destruct xs as [|x xs].
    + injection Heq as <-. eauto.
    + exfalso. injection Heq as _ Heq.
      destruct xs as [|y xs]; [discriminate Heq|].
      injection Heq as _ Heq.
      destruct xs as [|z xs]; [discriminate Heq|].
      injection Heq as _ Heq. destruct xs; discriminate Heq.
  - apply kill_then_run_without. intros Hin.
    apply list_elem_of_singleton in Hin. discriminate Hin.
Qed.

Lemma no_kill_in_adds (l : list string) : Gokit.EKillTree ∉ map Gokit.EAdd l.
Proof.
  intros Hin. apply list_elem_of_fmap in Hin. destruct Hin as (p & Hp & _). discriminate Hp.
Qed.

Lemma no_kill_in_watchFiles (dir : string) :
  Gokit.EKillTree ∉ (Gokit.watchFiles ctx matcher dir).1.
Proof.
  unfold Gokit.watchFiles. destruct (Gokit.Glob _ _ _) as [l|err]; simpl.
  - intros Hin. apply elem_of_app in Hin. destruct Hin as [Hin|Hin].
    + exact (no_kill_in_adds _ Hin).
    + apply list_elem_of_singleton in Hin. discriminate Hin.
  - apply not_elem_of_nil.
Qed.

Lemma no_kill_logged (err : option error) :
  Gokit.EKillTree ∉ match err with Some x => [Gokit.EErr x] | None => [] end.
Proof.
  destruct err; intros Hin.
  - apply list_elem_of_singleton in Hin. discriminate Hin.
  - apply elem_of_nil in Hin. exact Hin.
Qed.

Lemma no_kill_created (e : Watcher.Event) :
  Gokit.EKillTree
  ∉ (if bool_decide (Watcher.Op_ e = Watcher.Create) then
       if Watcher.IsDir e then
         match Gokit.watchFiles ctx matcher (Watcher.Path e) with
         | (eff, Some x) => eff ++ [Gokit.EErr x]
         | (eff, None) => eff
         end
       else [Gokit.EAdd (Watcher.Path e)]
     else []).
Proof.
  destruct (bool_decide _); [|apply not_elem_of_nil].
  destruct (Watcher.IsDir e).
  - pose proof (no_kill_in_watchFiles (Watcher.Path e)) as Hw.
    destruct (Gokit.watchFiles ctx matcher (Watcher.Path e)) as [eff [x|]]; simpl in Hw.
    + intros Hin. apply elem_of_app in Hin. destruct Hin as [Hin|Hin]; [exact (Hw Hin)|].
      apply list_elem_of_singleton in Hin. discriminate Hin.
    + exact Hw.
  - intros Hin. apply list_elem_of_singleton in Hin. discriminate Hin.
Qed.

Lemma on_event_kill_then_run (lastRun : Time.Time) (e : Watcher.Event) (o : Gokit.Obs) :
  More.kill_then_run (Gokit.on_event ctx matcher d lastRun e o).2.
Proof.
  unfold Gokit.on_event.
  destruct (matcher (Watcher.Path e) (Watcher.IsDir e)) as [matched merr].
  destruct matched; simpl; [|apply kill_then_run_without, no_kill_logged].
  destruct (Time.Since (Gokit.now_since o) lastRun <? d); simpl;
    [apply kill_then_run_without, no_kill_logged|].
  apply kill_then_run_app; [apply kill_then_run_without, no_kill_logged|].
  apply (kill_then_run_app [Gokit.ELogEvent e]).
  { apply kill_then_run_without. intros Hin.
    apply list_elem_of_singleton in Hin. discriminate Hin. }
  apply kill_then_run_app; [apply kill_then_run_without, no_kill_created|].
  apply kill_then_run_restart.
Qed.

(** X14.  The child is never killed without being awaited and replaced: in the
    trace of the loop every [KillTree] is followed at once by the wait for
    the run that ended and by the start of the next run.  An event that is
    served while a command is started does kill it first. *)
Theorem kill_is_awaited_then_run (lastRun : Time.Time) (msgs : list Gokit.Msg) :
  More.kill_then_run (Gokit.event_loop ctx matcher d lastRun msgs).2
  /\ (forall (e : Watcher.Event) (o : Gokit.Obs) (err : option error),
        matcher (Watcher.Path e) (Watcher.IsDir e) = (true, err) ->
        d <= Time.Since (Gokit.now_since o) lastRun ->
        Gokit.cmd_started o = true ->
        exists before,
          (Gokit.on_event ctx matcher d lastRun e o).2
          = before ++ [Gokit.EKillTree; Gokit.EAwait; Gokit.EGoRun e]).
Proof.
  split.
  - revert lastRun. induction msgs as [|m msgs IH]; intros lastRun.
    + apply kill_then_run_without, not_elem_of_nil.
    + destruct m as [e o|err|].
      * simpl. destruct (Gokit.on_event ctx matcher d lastRun e o) as [l' eff] eqn:Eo.
        specialize (IH l').
        destruct (Gokit.event_loop ctx matcher d l' msgs) as [final effs].
        cbn [snd] in *. apply kill_then_run_app; [|exact IH].
        pose proof (on_event_kill_then_run lastRun e o) as Hk.
        rewrite Eo in Hk. exact Hk.
      * simpl. specialize (IH lastRun).
        destruct (Gokit.event_loop ctx matcher d lastRun msgs) as [final effs].
        cbn [snd] in *. apply (kill_then_run_app [Gokit.ELogError err]); [|exact IH].
        apply kill_then_run_without. intros Hin.
        apply list_elem_of_singleton in Hin. discriminate Hin.
      * apply kill_then_run_without, not_elem_of_nil.
  - intros e o err Hm Hge Hst.
    rewrite (on_event_served ctx matcher d lastRun e o err Hm Hge). cbn [snd].
    unfold Spec.served_before. rewrite Hst.
    exists (match err with Some x => [Gokit.EErr x] | None => [] end
            ++ [Gokit.ELogEvent e]
            ++ (if bool_decide (Watcher.Op_ e = Watcher.Create) then
                  if Watcher.IsDir e then
                    match Gokit.watchFiles ctx matcher (Watcher.Path e) with
                    | (eff, Some x) => eff ++ [Gokit.EErr x]
                    | (eff, None) => eff
                    end
                  else [Gokit.EAdd (Watcher.Path e)]
                else [])).
    rewrite <- !app_assoc. reflexivity.
Qed.

(** X15.  Only the creation of a path extends the watch set: an event of another
    kind adds nothing to the watcher; a created file that is served is added
    itself, a created directory is walked. *)
Theorem watch_set_grows_on_create (lastRun : Time.Time)
    (e : Watcher.Event) (o : Gokit.Obs) :
  let eff := (Gokit.on_event ctx matcher d lastRun e o).2 in
  (Watcher.Op_ e <> Watcher.Create ->
   Forall (fun x => More.is_watch x = false) eff)
  /\ (forall err : option error,
        matcher (Watcher.Path e) (Watcher.IsDir e) = (true, err) ->
        d <= Time.Since (Gokit.now_since o) lastRun ->
        Watcher.Op_ e = Watcher.Create ->
        filter (fun x => More.is_watch x = true) eff
        = if Watcher.IsDir e
          then filter (fun x => More.is_watch x = true)
                 (Gokit.watchFiles ctx matcher (Watcher.Path e)).1
          else [Gokit.EAdd (Watcher.Path e)]).
Proof.
  intros eff. subst eff. split.
  - intros Hop. unfold Gokit.on_event.
    destruct (matcher (Watcher.Path e) (Watcher.IsDir e)) as [matched merr].
    assert (Forall (fun x => More.is_watch x = false)
              match merr with Some x => [Gokit.EErr x] | None => [] end) as Hlog
      by (destruct merr; repeat constructor).
    destruct matched; simpl; [|exact Hlog].
    destruct (Time.Since (Gokit.now_since o) lastRun <? d); simpl; [exact Hlog|].
    rewrite bool_decide_eq_false_2 by exact Hop.
    apply Forall_app. split; [exact Hlog|].
    destruct (Gokit.cmd_started o); repeat constructor.
  - intros err Hm Hge Hop.
    rewrite (on_event_served ctx matcher d lastRun e o err Hm Hge). cbn [snd].
    unfold Spec.served_before. rewrite bool_decide_eq_true_2 by exact Hop.
    rewrite !filter_app.
    assert (filter (fun x => More.is_watch x = true)
              match err with Some x => [Gokit.EErr x] | None => [] end = []) as ->
      by (destruct err; reflexivity).
    assert (filter (fun x => More.is_watch x = true)
              (if Gokit.cmd_started o then [Gokit.EKillTree; Gokit.EAwait] else []) = [])
      as -> by (destruct (Gokit.cmd_started o); reflexivity).
    change (filter (fun x => More.is_watch x = true) [Gokit.ELogEvent e]) with (@nil Gokit.Effect).
    change (filter (fun x => More.is_watch x = true) [Gokit.EGoRun e]) with (@nil Gokit.Effect).
    simpl. rewrite !app_nil_r.
    destruct (Watcher.IsDir e); [|reflexivity].
    destruct (Gokit.watchFiles ctx matcher (Watcher.Path e)) as [weff [x|]]; simpl;
      [|reflexivity].
    rewrite filter_app. change (filter _ [Gokit.EErr x]) with (@nil Gokit.Effect).
    rewrite app_nil_r. reflexivity.
Qed.

End KillAndRun.

(** ** The files the supervisor watches *)

Section WatchFiles.
Context {F : Filepath}.

Local Abbreviation step :=
  (fun '(dict, adds) p =>
     let d := filepath_Dir p in
     if bool_decide (d ∈ dict) then (dict, adds ++ [p])
     else (({[ d ]} ∪ dict : gset string), adds ++ [d; p])).

(** What holds of the dictionary and of the additions after each turn of the
    second loop of [watchFiles] over the list [l]. *)
Lemma watchFiles_adds_invariant (l : list string) :
  forall (rest done : list string) (dict : gset string) (adds : list string),
    l = done ++ rest ->
    (forall x, x ∈ dict <-> x ∈ l \/ x ∈ adds) ->
    (forall p, p ∈ done -> p ∈ adds /\ (filepath_Dir p ∈ adds \/ filepath_Dir p ∈ l)) ->
    (forall x, x ∈ adds -> x ∈ l \/ exists p, p ∈ l /\ x = filepath_Dir p) ->
    let adds' := (foldl step (dict, adds) rest).2 in
    (forall p, p ∈ l -> p ∈ adds' /\ (filepath_Dir p ∈ adds' \/ filepath_Dir p ∈ l))
    /\ (forall x, x ∈ adds' -> x ∈ l \/ exists p, p ∈ l /\ x = filepath_Dir p).
Proof.
  induction rest as [|p rest IH]; intros done dict adds Hl Hdict Hdone Hadds.
  - simpl. rewrite app_nil_r in Hl. subst done. split; [exact Hdone | exact Hadds].
  - assert (p ∈ l) as Hpl
      by (rewrite Hl; apply elem_of_app; right; apply elem_of_cons; left; reflexivity).
    simpl foldl. destruct (bool_decide_reflect (filepath_Dir p ∈ dict)) as [Hin|Hnin].
    + apply (IH (done ++ [p])).
      * rewrite <- app_assoc. exact Hl.
      * intros x. rewrite Hdict, elem_of_app, list_elem_of_singleton.
        split; [tauto|]. intros [Hx|[Hx|Hx]]; [tauto | tauto | subst x; tauto].
      * intros q Hq. apply elem_of_app in Hq. destruct Hq as [Hq|Hq].
        -- destruct (Hdone q Hq) as [H1 H2]. rewrite !elem_of_app. tauto.
        -- apply list_elem_of_singleton in Hq. subst q.
           rewrite !elem_of_app, list_elem_of_singleton.
           apply Hdict in Hin. tauto.
      * intros x Hx. apply elem_of_app in Hx. destruct Hx as [Hx|Hx]; [auto|].
        apply list_elem_of_singleton in Hx. subst x. left. exact Hpl.
    + apply (IH (done ++ [p])).
      * rewrite <- app_assoc. exact Hl.
      * intros x. rewrite elem_of_union, elem_of_singleton, Hdict, elem_of_app.
        rewrite elem_of_cons, list_elem_of_singleton.
        split; [tauto|]. intros [Hx|[Hx|[Hx|Hx]]]; try tauto. subst x. tauto.
      * intros q Hq. apply elem_of_app in Hq. destruct Hq as [Hq|Hq].
        -- destruct (Hdone q Hq) as [H1 H2]. rewrite !elem_of_app. tauto.
        -- apply list_elem_of_singleton in Hq. subst q.
           rewrite !elem_of_app, !elem_of_cons. tauto.
      * intros x Hx. apply elem_of_app in Hx. destruct Hx as [Hx|Hx]; [auto|].
        apply elem_of_cons in Hx. destruct Hx as [->|Hx]; [right; eauto|].
        apply list_elem_of_singleton in Hx. subst x. left. exact Hpl.
Qed.

Lemma watchFiles_adds_nodup (l : list string) :
  NoDup l ->
  forall (rest done : list string) (dict : gset string) (adds : list string),
    l = done ++ rest ->
    (forall x, x ∈ dict <-> x ∈ l \/ x ∈ adds) ->
    NoDup adds ->
    (forall x, x ∈ adds -> x ∈ l -> x ∈ done) ->
    NoDup (foldl step (dict, adds) rest).2.
Proof.
  intros Hnd. induction rest as [|p rest IH]; intros done dict adds Hl Hdict Hnda Hdone.
  - exact Hnda.
  - assert (p ∈ l) as Hpl
      by (rewrite Hl; apply elem_of_app; right; apply elem_of_cons; left; reflexivity).
    assert (p ∉ done) as Hpd.
    { rewrite Hl in Hnd. apply NoDup_app in Hnd. destruct Hnd as (_ & Hdisj & _).
      intros Hin. apply (Hdisj p Hin). apply elem_of_cons. left. reflexivity. }
    assert (p ∉ adds) as Hpa by (intros Hin; apply Hpd; auto).
    simpl foldl. destruct (bool_decide_reflect (filepath_Dir p ∈ dict)) as [Hin|Hnin].
    + apply (IH (done ++ [p])).
      * rewrite <- app_assoc. exact Hl.
      * intros x. rewrite Hdict, elem_of_app, list_elem_of_singleton.
        split; [tauto|]. intros [Hx|[Hx|Hx]]; [tauto | tauto | subst x; tauto].
      * apply NoDup_app. split; [exact Hnda|]. split; [|apply NoDup_singleton].
        intros x Hx Hxp. apply list_elem_of_singleton in Hxp. subst x. exact (Hpa Hx).
      * intros x Hx Hxl. apply elem_of_app in Hx. rewrite elem_of_app.
        destruct Hx as [Hx|Hx]; [left; auto | right; exact Hx].
    + assert ((filepath_Dir p ∉ l) /\ (filepath_Dir p ∉ adds)) as [Hdl Hda]
        by (split; intros Hx; apply Hnin, Hdict; tauto).
      apply (IH (done ++ [p])).
      * rewrite <- app_assoc. exact Hl.
      * intros x. rewrite elem_of_union, elem_of_singleton, Hdict, elem_of_app.
        rewrite elem_of_cons, list_elem_of_singleton.
        split; [tauto|]. intros [Hx|[Hx|[Hx|Hx]]]; try tauto. subst x. tauto.
      * apply NoDup_app. split; [exact Hnda|]. split.
        -- intros x Hx Hxp. apply elem_of_cons in Hxp. destruct Hxp as [->|Hxp].
           ++ exact (Hda Hx).
           ++ apply list_elem_of_singleton in Hxp. subst x. exact (Hpa Hx).
        -- apply NoDup_cons. split; [|apply NoDup_singleton].
           intros Hx. apply list_elem_of_singleton in Hx. rewrite Hx in Hdl. exact (Hdl Hpl).
      * intros x Hx Hxl. apply elem_of_app in Hx. rewrite elem_of_app.
        destruct Hx as [Hx|Hx]; [left; auto|].
        apply elem_of_cons in Hx. destruct Hx as [->|Hx]; [contradiction|].
        right. exact Hx.
Qed.

(** X16.  [watchFiles] hands every listed path to the watcher, and with it its
    directory; it hands over nothing else; and when the list has no path
    twice, no path is handed over twice. *)
Theorem watchFiles_adds_cover (l : list string) :
  (forall p, p ∈ l ->
     p ∈ Gokit.watchFiles_adds l /\ filepath_Dir p ∈ Gokit.watchFiles_adds l)
  /\ (forall x, x ∈ Gokit.watchFiles_adds l ->
        x ∈ l \/ exists p, p ∈ l /\ x = filepath_Dir p)
  /\ (NoDup l -> NoDup (Gokit.watchFiles_adds l)).
Proof.
  assert (forall x, x ∈ (list_to_set l : gset string) <-> x ∈ l \/ x ∈ @nil string) as Hdict.
  { intros x. rewrite elem_of_list_to_set. split; [tauto|].
    intros [Hx|Hx]; [exact Hx | apply elem_of_nil in Hx; contradiction]. }
  destruct (watchFiles_adds_invariant l l [] (list_to_set l) [] eq_refl Hdict) as [Hcov Hsrc].
  { intros p Hp. apply elem_of_nil in Hp. contradiction. }
  { intros x Hx. apply elem_of_nil in Hx. contradiction. }
  repeat apply conj.
  - intros p Hp. destruct (Hcov p Hp) as [H1 [H2|H2]]; split; try assumption.
    exact (proj1 (Hcov _ H2)).
  - exact Hsrc.
  - intros Hnd.
    apply (watchFiles_adds_nodup l Hnd l [] (list_to_set l) [] eq_refl Hdict).
    + apply NoDup_nil. exact I.
    + intros x Hx. apply elem_of_nil in Hx. contradiction.
Qed.

End WatchFiles.

(** ** The output loop, continued *)

Section OutputBytes.
Variable prefix : string.

Lemma runes_of_app (a b : list PkgExec.Chunk) :
  More.runes_of (a ++ b) = More.runes_of a ++ More.runes_of b.
Proof. unfold More.runes_of. apply flat_map_app. Qed.

Lemma prefixes_of_app (a b : list PkgExec.Chunk) :
  More.prefixes_of (a ++ b) = More.prefixes_of a ++ More.prefixes_of b.
Proof. unfold More.prefixes_of. apply flat_map_app. Qed.

Lemma runes_of_emitted (newline : bool) (input : list PkgExec.rune) :
  More.runes_of (Spec.emitted prefix newline input) = input.
Proof.
  revert newline. induction input as [|r rest IH]; intros newline; [reflexivity|].
  simpl. rewrite runes_of_app. destruct newline; simpl; rewrite IH; reflexivity.
Qed.

Lemma prefixes_of_line (line : list PkgExec.rune) :
  More.prefixes_of (map PkgExec.WRune line) = [].
Proof. induction line as [|r line IH]; [reflexivity | exact IH]. Qed.

Lemma prefixes_of_lines (ls : list (list PkgExec.rune)) :
  More.prefixes_of
    (concat (map (fun line => PkgExec.WPrefix prefix :: map PkgExec.WRune line) ls))
  = replicate (length ls) prefix.
Proof.
  induction ls as [|line ls IH]; [reflexivity|].
  simpl. rewrite prefixes_of_app, prefixes_of_line, IH. reflexivity.
Qed.

Lemma lines_nil_iff (input : list PkgExec.rune) :
  Spec.lines input = [] <-> input = [].
Proof.
  split; [|intros ->; reflexivity].
  destruct input as [|r rest]; [reflexivity|]. simpl.
  destruct (r =? PkgExec.newline_rune); [discriminate|].
  destruct (Spec.lines rest); discriminate.
Qed.

Lemma lines_count (input : list PkgExec.rune) :
  length (Spec.lines input)
  = (length (filter (fun r : Z => r = PkgExec.newline_rune) input)
     + match last input with
       | Some r => if (r =? PkgExec.newline_rune)%Z then 0 else 1
       | None => 0
       end)%nat.
Proof.
  induction input as [|r rest IH]; [reflexivity|].
  rewrite lines_cons, filter_cons.
  destruct (Z.eqb_spec r PkgExec.newline_rune) as [->|Hne].
  - rewrite decide_True by reflexivity. simpl length. rewrite IH.
    destruct rest as [|r' rest']; [reflexivity|]. rewrite last_cons_cons. reflexivity.
  - rewrite decide_False by exact Hne.
    destruct rest as [|r' rest'].
    + simpl. destruct (Z.eqb_spec r PkgExec.newline_rune); [contradiction | reflexivity].
    + rewrite last_cons_cons.
      transitivity (length (Spec.lines (r' :: rest'))); [|exact IH].
      destruct (Spec.lines (r' :: rest')) as [|l ls] eqn:El; [|reflexivity].
      apply lines_nil_iff in El. discriminate El.
Qed.

(** X17.  The loop loses and reorders nothing: the runes it writes are those of
    the child, in their order, followed by the zero rune of the failed read.
    It writes the prefix once per line, that is once per newline and once
    more for an unfinished last line; for a child that writes nothing, not
    at all. *)
Theorem output_keeps_runes (input : list PkgExec.rune) :
  More.runes_of (PkgExec.run_output prefix input) = input ++ [0]
  /\ More.prefixes_of (PkgExec.run_output prefix input)
     = replicate (length (Spec.lines input)) prefix
  /\ length (Spec.lines input)
     = (length (filter (fun r : Z => r = PkgExec.newline_rune) input)
        + match last input with
          | Some r => if (r =? PkgExec.newline_rune)%Z then 0 else 1
          | None => 0
          end)%nat.
Proof.
  unfold PkgExec.run_output. rewrite output_loop_emitted. repeat apply conj.
  - rewrite runes_of_app, runes_of_emitted. reflexivity.
  - rewrite prefixes_of_app, (proj1 (emitted_lines prefix input)), prefixes_of_lines.
    simpl. rewrite app_nil_r. reflexivity.
  - apply lines_count.
Qed.

(** X18.  The bytes that reach standard output: for every line the bytes of the
    prefix and the encodings of the line's runes, and one zero byte at the
    end. *)
Theorem output_bytes_per_line (input : list PkgExec.rune) :
  PkgExec.run_bytes prefix input
  = concat (map (fun line => bytes prefix ++ concat (map PkgExec.rune_bytes line))
                (Spec.lines input))
    ++ [0].
Proof.
  unfold PkgExec.run_bytes, PkgExec.run_output.
  rewrite output_loop_emitted, (proj1 (emitted_lines prefix input)).
  rewrite map_app, concat_app. f_equal.
  induction (Spec.lines input) as [|line ls IH]; [reflexivity|].
  simpl. rewrite map_app, concat_app, IH. rewrite map_map.
  rewrite <- app_assoc. reflexivity.
Qed.

End OutputBytes.

(** ** Files and directories *)

Section FileSystem.
Context {Os : PkgOs.Sys}.

(** X19.  A path exists exactly when it is a file or a directory, and it is never
    both: it is a file when [os.Stat] succeeds on something that is not a
    directory, a directory when it succeeds on a directory, and neither when
    [os.Stat] fails. *)
Theorem exists_file_or_dir (path : string) :
  PkgOs.Exists path = PkgOs.FileExists path || PkgOs.DirExists path
  /\ PkgOs.FileExists path && PkgOs.DirExists path = false
  /\ (PkgOs.FileExists path = true <-> PkgOs.os_Stat path = inl false)
  /\ (PkgOs.DirExists path = true <-> PkgOs.os_Stat path = inl true).
Proof.
  unfold PkgOs.Exists, PkgOs.FileExists, PkgOs.DirExists.
  destruct (PkgOs.os_Stat path) as [[|]|e]; repeat split;
    intros; first [reflexivity | discriminate].
Qed.

(** X20.  [Move] first creates the directory of the target, with mode 0775, and
    renames only when that succeeded; the mode handed to [Move] plays no
    part. *)
Theorem Move_creates_then_renames (from to : string) (perm : option Z) :
  PkgOs.Move from to perm = PkgOs.Move from to None
  /\ (forall e, PkgOs.os_MkdirAll (PkgOs.path_Dir to) 509 = Some e ->
        PkgOs.Move from to perm
        = ([PkgOs.MkdirAll (PkgOs.path_Dir to) 509], Some e))
  /\ (PkgOs.os_MkdirAll (PkgOs.path_Dir to) 509 = None ->
        PkgOs.Move from to perm
        = ([PkgOs.MkdirAll (PkgOs.path_Dir to) 509; PkgOs.Rename from to],
           PkgOs.os_Rename from to)).
Proof.
  unfold PkgOs.Move, PkgOs.Mkdir. cbn [PkgOs.perm].
  change PkgOs.perm_0775 with 509.
  repeat apply conj; [reflexivity | intros e -> | intros ->]; reflexivity.
Qed.

(** X21.  [OutputFile] writes at most once, and only after the directory of the
    file is there: its calls are the one [MkdirAll], or that and one
    [WriteFile] after it.  When [MkdirAll] fails, or the value cannot be
    marshalled, nothing is written and that error is returned.  Bytes and a
    string of the same content are written alike, any other value is written
    as [json.MarshalIndent] renders it, and without options the directory
    gets mode 0775, the file mode 0664, and the indent is four spaces. *)
Theorem OutputFile_writes_after_mkdir (p : string) (data : PkgOs.Data)
    (options : option PkgOs.OutputFileOptions) :
  let dir_perm := match options with Some o => PkgOs.DirPerm o | None => 509 end in
  let file_perm := match options with Some o => PkgOs.FilePerm o | None => 436 end in
  let json_prefix := match options with Some o => PkgOs.JSONPrefix o | None => "" end in
  let json_indent :=
    match options with Some o => PkgOs.JSONIndent o | None => "    " end in
  let mkdir := PkgOs.MkdirAll (PkgOs.path_Dir p) dir_perm in
  (forall e, PkgOs.os_MkdirAll (PkgOs.path_Dir p) dir_perm = Some e ->
     PkgOs.OutputFile p data options = ([mkdir], Some e))
  /\ (forall t, PkgOs.os_MkdirAll (PkgOs.path_Dir p) dir_perm = None ->
        data = PkgOs.Bytes t \/ data = PkgOs.Str t ->
        PkgOs.OutputFile p data options
        = ([mkdir; PkgOs.WriteFile p t file_perm],
           PkgOs.ioutil_WriteFile p t file_perm))
  /\ (forall v e, PkgOs.os_MkdirAll (PkgOs.path_Dir p) dir_perm = None ->
        data = PkgOs.Other v ->
        PkgOs.json_MarshalIndent v json_prefix json_indent = inr e ->
        PkgOs.OutputFile p data options = ([mkdir], Some e))
  /\ (forall v bin, PkgOs.os_MkdirAll (PkgOs.path_Dir p) dir_perm = None ->
        data = PkgOs.Other v ->
        PkgOs.json_MarshalIndent v json_prefix json_indent = inl bin ->
        PkgOs.OutputFile p data options
        = ([mkdir; PkgOs.WriteFile p bin file_perm],
           PkgOs.ioutil_WriteFile p bin file_perm))
  /\ ((PkgOs.OutputFile p data options).1 = [mkdir]
      \/ exists bin,
           (PkgOs.OutputFile p data options).1
           = [mkdir; PkgOs.WriteFile p bin file_perm]
           /\ PkgOs.os_MkdirAll (PkgOs.path_Dir p) dir_perm = None)
  /\ (forall c, c ∈ (PkgOs.OutputFile p data options).1 ->
        c = mkdir
        \/ exists bin, c = PkgOs.WriteFile p bin file_perm
                       /\ PkgOs.os_MkdirAll (PkgOs.path_Dir p) dir_perm = None).
Proof.
  intros dir_perm file_perm json_prefix json_indent mkdir.
  pose (opts := match options with
                | Some o => o
                | None => {| PkgOs.DirPerm := PkgOs.perm_0775;
                             PkgOs.FilePerm := PkgOs.perm_0664;
                             PkgOs.JSONPrefix := ""; PkgOs.JSONIndent := "    " |}
                end).
  assert (dir_perm = PkgOs.DirPerm opts) as Hd by (destruct options; reflexivity).
  assert (file_perm = PkgOs.FilePerm opts) as Hf by (destruct options; reflexivity).
  assert (json_prefix = PkgOs.JSONPrefix opts) as Hp by (destruct options; reflexivity).
  assert (json_indent = PkgOs.JSONIndent opts) as Hi by (destruct options; reflexivity).
  subst mkdir. unfold PkgOs.OutputFile, PkgOs.Mkdir. cbn [PkgOs.perm]. fold opts.
  rewrite <- Hd, <- Hf, <- Hp, <- Hi. clearbody opts dir_perm file_perm json_prefix json_indent.
  repeat apply conj.
  - intros e ->. reflexivity.
  - intros t -> [-> | ->]; reflexivity.
  - intros v e -> -> ->. reflexivity.
  - intros v bin -> -> ->. reflexivity.
  - destruct (PkgOs.os_MkdirAll (PkgOs.path_Dir p) dir_perm) as [e|] eqn:Em.
    + left. reflexivity.
    + destruct (match data with
                | PkgOs.Bytes t => inl t
                | PkgOs.Str t => inl t
                | PkgOs.Other v => _
                end) as [bin|e]; cbn [fst].
      * right. exists bin. split; reflexivity.
      * left. reflexivity.
  - intros c. destruct (PkgOs.os_MkdirAll (PkgOs.path_Dir p) dir_perm) as [e|] eqn:Em.
    + cbn [fst]. intros Hc. apply list_elem_of_singleton in Hc. left. exact Hc.
    + destruct (match data with
                | PkgOs.Bytes t => inl t
                | PkgOs.Str t => inl t
                | PkgOs.Other v => _
                end) as [bin|e]; cbn [fst]; intros Hc.
      * apply elem_of_app in Hc. destruct Hc as [Hc|Hc];
          apply list_elem_of_singleton in Hc; [left; exact Hc | right; eauto].
      * apply list_elem_of_singleton in Hc. left. exact Hc.
Qed.

End FileSystem.

(** ** The request builder *)

Section Request.
Context {V : Type}.

Lemma Header_loop_pairs (hs : list (list string)) (pairs : list (string * string)) :
  PkgHttp.Header_loop hs (flat_map (fun kv => [kv.1; kv.2]) pairs)
  = Ret (hs ++ map (fun kv => [kv.1; kv.2]) pairs).
Proof.
  revert hs. induction pairs as [|[k v] pairs IH]; intros hs; simpl.
  - rewrite app_nil_r. reflexivity.
  - rewrite IH. rewrite <- app_assoc. reflexivity.
Qed.

Lemma Header_loop_odd (hs : list (list string)) (pairs : list (string * string))
    (k : string) :
  exists m,
    PkgHttp.Header_loop hs (flat_map (fun kv => [kv.1; kv.2]) pairs ++ [k]) = Panic m.
Proof.
  revert hs. induction pairs as [|[k' v] pairs IH]; intros hs; simpl.
  - eauto.
  - apply IH.
Qed.

(** X22.  [Header] takes its arguments two by two: keys with their values are
    added to the headers in their order, behind those already there; a key
    left without value makes the call panic. *)
Theorem Header_appends_pairs (ctx : PkgHttp.ReqContext)
    (pairs : list (string * string)) :
  PkgHttp.Header (flat_map (fun kv => [kv.1; kv.2]) pairs) ctx
  = Ret {| PkgHttp.method := PkgHttp.method ctx; PkgHttp.url := PkgHttp.url ctx;
           PkgHttp.header :=
             PkgHttp.header ctx ++ map (fun kv => [kv.1; kv.2]) pairs |}
  /\ (forall k : string,
        exists m,
          PkgHttp.Header (flat_map (fun kv => [kv.1; kv.2]) pairs ++ [k]) ctx
          = Panic m).
Proof.
  split.
  - unfold PkgHttp.Header. rewrite Header_loop_pairs. reflexivity.
  - intros k. unfold PkgHttp.Header.
    destruct (Header_loop_odd (PkgHttp.header ctx) pairs k) as [m ->].
    exists m. reflexivity.
Qed.

Lemma paramsToForm_loop_pairs (f : gmap string (PkgHttp.Param V))
    (pairs : list (string * PkgHttp.Param V)) :
  PkgHttp.paramsToForm_loop f (PkgHttp.flatten pairs)
  = Ret (foldl (fun m kv => <[kv.1 := kv.2]> m) f pairs)
  /\ PkgHttp.paramsToForm_earlier_loop f (PkgHttp.flatten pairs)
     = Ret (foldl (fun m kv => <[kv.1 := kv.2]> m) f pairs).
Proof.
  revert f. induction pairs as [|[k v] pairs IH]; intros f; [split; reflexivity|].
  destruct (IH (<[k := v]> f)) as [IH1 IH2]. split; simpl.
  - exact IH1.
  - exact IH2.
Qed.

Lemma paramsToForm_loop_odd (f : gmap string (PkgHttp.Param V))
    (pairs : list (string * PkgHttp.Param V)) (x : PkgHttp.Param V) :
  (exists m, PkgHttp.paramsToForm_loop f (PkgHttp.flatten pairs ++ [x]) = Panic m)
  /\ PkgHttp.paramsToForm_earlier_loop f (PkgHttp.flatten pairs ++ [x])
     = Ret (foldl (fun m kv => <[kv.1 := kv.2]> m) f pairs).
Proof.
  revert f. induction pairs as [|[k v] pairs IH]; intros f.
  - split; destruct x; simpl; eauto.
  - destruct (IH (<[k := v]> f)) as [IH1 IH2]. split; simpl.
    + exact IH1.
    + exact IH2.
Qed.

Lemma foldl_insert_lookup (pairs : list (string * PkgHttp.Param V))
    (f : gmap string (PkgHttp.Param V)) (k : string) :
  k ∉ map fst pairs ->
  foldl (fun m kv => <[kv.1 := kv.2]> m) f pairs !! k = f !! k.
Proof.
  revert f. induction pairs as [|[k' v'] pairs IH]; intros f Hnin; [reflexivity|].
  simpl in *. apply not_elem_of_cons in Hnin. destruct Hnin as [Hne Hnin].
  rewrite IH by exact Hnin. apply lookup_insert_ne. congruence.
Qed.

(** X23.  [paramsToForm] reads keys with their values into a map, a later value
    for a key replacing an earlier one.  The two sources differ on a key
    left without value: the earlier one leaves it out, the later one
    panics. *)
Theorem paramsToForm_last_value_wins (pairs : list (string * PkgHttp.Param V)) :
  (exists f,
     PkgHttp.paramsToForm (PkgHttp.flatten pairs) = Ret f
     /\ PkgHttp.paramsToForm_earlier (PkgHttp.flatten pairs) = Ret f
     /\ (forall x, PkgHttp.paramsToForm_earlier (PkgHttp.flatten pairs ++ [x]) = Ret f)
     /\ (forall front back k v,
           pairs = front ++ (k, v) :: back -> k ∉ map fst back -> f !! k = Some v)
     /\ (forall k, k ∉ map fst pairs -> f !! k = None))
  /\ (forall x, exists m,
        PkgHttp.paramsToForm (PkgHttp.flatten pairs ++ [x]) = Panic m).
Proof.
  split.
  - exists (foldl (fun m kv => <[kv.1 := kv.2]> m) ∅ pairs).
    unfold PkgHttp.paramsToForm, PkgHttp.paramsToForm_earlier.
    destruct (paramsToForm_loop_pairs ∅ pairs) as [H1 H2].
    repeat apply conj.
    + exact H1.
    + exact H2.
    + intros x. apply paramsToForm_loop_odd.
    + intros front back k v -> Hback.
      rewrite foldl_app. simpl. rewrite foldl_insert_lookup by exact Hback.
      apply lookup_insert_eq.
    + intros k Hk. rewrite foldl_insert_lookup by exact Hk. apply lookup_empty.
  - intros x. unfold PkgHttp.paramsToForm. apply paramsToForm_loop_odd.
Qed.

End Request.

(** On [Form("a", 1, "b", 2, "a", 3)], written with strings for values. *)
Lemma paramsToForm_last_value_wins_witness :
  exists f,
    @PkgHttp.paramsToForm unit
      (PkgHttp.flatten [("a", PkgHttp.PString "1"); ("b", PkgHttp.PString "2");
                        ("a", PkgHttp.PString "3")]) = Ret f
    /\ f !! "a" = Some (PkgHttp.PString "3").
Proof.
  destruct (@paramsToForm_last_value_wins unit
              [("a", PkgHttp.PString "1"); ("b", PkgHttp.PString "2");
               ("a", PkgHttp.PString "3")]) as [(f & Hf & _ & _ & Hlast & _) _].
  exists f. split; [exact Hf|].
  apply (Hlast [("a", PkgHttp.PString "1"); ("b", PkgHttp.PString "2")] [] "a"
           (PkgHttp.PString "3") eq_refl).
  apply not_elem_of_nil.
Defined.

(** ** Options and runs *)

Section OptionsAndRuns.
Context {Kp : Main.Kingpin} {F : Filepath} {M : Mustache}.

(** X5.  Whatever follows the first ["--"] is the command, token by token: it is
    never parsed as flags, and the flags are those kingpin reads from what
    precedes the ["--"]. *)
Theorem genOptions_command (pre post : list string) (flags : Main.options) :
  "--" ∉ pre ->
  Main.kingpin_Parse pre = Main.Flags flags ->
  Main.genOptions (pre ++ "--" :: post)
  = Ret {| Main.patterns := Main.patterns flags; Main.dir := Main.dir flags;
           Main.cmd := Some post; Main.prefix := Main.prefix flags;
           Main.clearScreen := Main.clearScreen flags;
           Main.noInitRun := Main.noInitRun flags; Main.raw := Main.raw flags;
           Main.poll := Main.poll flags; Main.debounce := Main.debounce flags |}.
Proof.
  intros Hpre Hp. unfold Main.genOptions.
  rewrite (parseArgs_at_separator pre post Hpre), Hp. reflexivity.
Qed.

Lemma run_context (ctx : Gokit.GuardContext) (e : option Watcher.Event) :
  Gokit.count (Gokit.run ctx e).1 = Gokit.count ctx + 1
  /\ Gokit.args (Gokit.run ctx e).1 = Gokit.args ctx
  /\ Gokit.dir (Gokit.run ctx e).1 = Gokit.dir ctx
  /\ Gokit.run_count (Gokit.run ctx e).2 = Gokit.count ctx + 1.
Proof.
  unfold Gokit.run.
  destruct (Gokit.unescapeArgs (Gokit.dir ctx) (Gokit.args ctx) e) as [rendered logged].
  repeat split.
Qed.

Lemma runs_numbered_from (es : list (option Watcher.Event)) :
  forall ctx : Gokit.GuardContext,
    map Gokit.run_count (More.runs ctx es)
    = map (fun k => Gokit.count ctx + Z.of_nat k) (seq 1 (length es))
    /\ Forall2 (fun e r =>
                  Gokit.exec_args (Gokit.run_exec r)
                  = (Gokit.unescapeArgs (Gokit.dir ctx) (Gokit.args ctx) e).1)
         es (More.runs ctx es).
Proof.
  induction es as [|e es IH]; intros ctx; [split; [reflexivity | constructor]|].
  destruct (run_context ctx e) as (Hc & Ha & Hd & Hn).
  destruct (IH (Gokit.run ctx e).1) as [IH1 IH2].
  rewrite Ha, Hd in IH2. split.
  - simpl. rewrite Hn, IH1.
    replace (map (fun k => Gokit.count (Gokit.run ctx e).1 + Z.of_nat k)
               (seq 1 (length es)))
      with (map (fun k => Gokit.count ctx + Z.of_nat k) (seq 2 (length es))).
    + f_equal.
    + rewrite <- (seq_shift (length es) 1), map_map.
      apply map_ext. intros k. rewrite Hc. lia.
  - simpl. constructor; [|exact IH2].
    unfold Gokit.run.
    destruct (Gokit.unescapeArgs (Gokit.dir ctx) (Gokit.args ctx) e) as [rendered logged].
    reflexivity.
Qed.

Lemma run_only_counts (ctx : Gokit.GuardContext) (e : option Watcher.Event) :
  Gokit.run ctx e
  = (More.with_count ctx (Gokit.count ctx + 1),
     More.run_numbered ctx (Gokit.count ctx + 1) e).
Proof.
  unfold Gokit.run, More.run_numbered.
  destruct (Gokit.unescapeArgs (Gokit.dir ctx) (Gokit.args ctx) e) as [rendered logged].
  reflexivity.
Qed.

Lemma with_count_twice (ctx : Gokit.GuardContext) (n m : Z) :
  More.with_count (More.with_count ctx n) m = More.with_count ctx m.
Proof. reflexivity. Qed.

Lemma after_runs_from (es : list (option Watcher.Event)) :
  forall (ctx : Gokit.GuardContext) (n : Z),
    More.after_runs (More.with_count ctx n) es
    = More.with_count ctx (n + Z.of_nat (length es))
    /\ More.runs (More.with_count ctx n) es
       = imap (fun i e => More.run_numbered ctx (n + Z.of_nat (S i)) e) es.
Proof.
  induction es as [|e es IH]; intros ctx n.
  - split; [|reflexivity]. simpl. f_equal. lia.
  - cbn [More.after_runs More.runs]. rewrite run_only_counts. cbn [fst snd].
    rewrite with_count_twice. cbn [Gokit.count More.with_count].
    destruct (IH ctx (n + 1)) as [IHa IHr]. rewrite IHa, IHr. split.
    + f_equal. cbn [length]. lia.
    + rewrite imap_cons. f_equal.
      apply imap_ext. intros i e' _. cbn. f_equal. lia.
Qed.

Lemma with_count_same (ctx : Gokit.GuardContext) :
  More.with_count ctx (Gokit.count ctx) = ctx.
Proof. destruct ctx. reflexivity. Qed.

(** X9.  The runs of a supervisor are numbered one after the other, from the
    counter it starts with, and the counter is all a run changes in the
    supervisor: after any number of runs it is the supervisor it was, with
    the counter advanced by that number.  So every run clears the screen or
    not as the first did, starts from the same exec context and working
    directory, and renders the same argv templates, for its own event. *)
Theorem runs_numbered (ctx : Gokit.GuardContext) (es : list (option Watcher.Event)) :
  map Gokit.run_count (More.runs ctx es)
  = map (fun k => Gokit.count ctx + Z.of_nat k) (seq 1 (length es))
  /\ Forall2 (fun e r =>
                Gokit.exec_args (Gokit.run_exec r)
                = (Gokit.unescapeArgs (Gokit.dir ctx) (Gokit.args ctx) e).1)
       es (More.runs ctx es)
  /\ More.after_runs ctx es
     = More.with_count ctx (Gokit.count ctx + Z.of_nat (length es))
  /\ More.runs ctx es
     = imap (fun i e => More.run_numbered ctx (Gokit.count ctx + Z.of_nat (S i)) e) es.
Proof.
  destruct (runs_numbered_from es ctx) as [Hn Ha].
  destruct (after_runs_from es ctx (Gokit.count ctx)) as [Hc Hr].
  rewrite with_count_same in Hc, Hr.
  repeat apply conj; assumption.
Qed.

End OptionsAndRuns.

(** ** The properties at work *)

(** On [guard -n -- ls -w x], whose [-w x] belongs to the command. *)
Lemma genOptions_command_witness :
  exists opts,
    @Main.genOptions Reference.kingpin (["-n"] ++ "--" :: ["ls"; "-w"; "x"]) = Ret opts
    /\ Main.cmd opts = Some ["ls"; "-w"; "x"]
    /\ Main.patterns opts = None.
Proof.
  eexists. split.
  - apply (@genOptions_command Reference.kingpin ["-n"] ["ls"; "-w"; "x"]).
    + decide_by_evaluation.
    + reflexivity.
  - split; reflexivity.
Defined.

(** Two events that the matcher does not admit, and an error between them. *)
Lemma passed_over_only_logged_witness :
  (@Gokit.event_loop Reference.filepath (Reference.walking None) Reference.color
     Reference.guard_echo Worlds.match_none 300000000 Time.zero
     [Gokit.OnEvent Reference.write_b (Spec.at_time Reference.now true);
      Gokit.OnError "stat: no such file";
      Gokit.OnEvent Worlds.create_c (Spec.at_time (Reference.now + 1) true)]).1
  = Time.zero.
Proof.
  apply (@passed_over_only_logged Reference.filepath (Reference.walking None)
           Reference.color Reference.guard_echo Worlds.match_none 300000000 Time.zero).
  repeat constructor.
Defined.

(** Ten writes, 200 ms apart, two seconds after the last recorded event: the
    first is served at [Reference.now], so the burst starts 200 ms later. *)
Lemma burst_never_restarts_witness :
  let burst := map (fun k => (Reference.write_b,
                              Spec.at_time (Reference.now + 200000000 * Z.of_nat k) true))
                   (seq 1 10) in
  Gokit.restarts
    (@Gokit.event_loop Reference.filepath (Reference.walking None) Reference.color
       Reference.guard_echo Reference.match_all 300000000 Reference.now
       (Spec.events burst)).2 = 0.
Proof.
  intros burst.
  apply (@burst_never_restarts Reference.filepath (Reference.walking None)
           Reference.color Reference.guard_echo Reference.match_all 300000000
           Reference.now burst).
  - repeat constructor.
  - vm_compute. repeat split.
Defined.

(** Three writes, one second apart. *)
Lemma spaced_events_all_restart_witness :
  let evs := map (fun k => (Reference.write_b,
                            Spec.at_time (Reference.now + 1000000000 * Z.of_nat k) true))
                 (seq 0 3) in
  Gokit.restarts
    (@Gokit.event_loop Reference.filepath (Reference.walking None) Reference.color
       Reference.guard_echo Reference.match_all 300000000 Time.zero
       (Spec.events evs)).2 = 3.
Proof.
  intros evs.
  apply (@spaced_events_all_restart Reference.filepath (Reference.walking None)
           Reference.color Reference.guard_echo Reference.match_all 300000000
           Time.zero evs).
  - repeat constructor.
  - vm_compute. repeat split; discriminate.
Defined.

(** A write served while the command runs. *)
Lemma kill_is_awaited_then_run_witness :
  exists before,
    (@Gokit.on_event Reference.filepath (Reference.walking None) Reference.color
       Reference.guard_echo Reference.match_all 300000000 Time.zero
       Reference.write_b (Spec.at_time Reference.now true)).2
    = before ++ [Gokit.EKillTree; Gokit.EAwait; Gokit.EGoRun Reference.write_b].
Proof.
  destruct (@kill_is_awaited_then_run Reference.filepath (Reference.walking None)
              Reference.color Reference.guard_echo Reference.match_all 300000000
              Time.zero []) as [_ Hkill].
  apply (Hkill Reference.write_b (Spec.at_time Reference.now true) None).
  - reflexivity.
  - vm_compute. discriminate.
  - reflexivity.
Defined.

(** A created file and a write, both served. *)
Lemma watch_set_grows_on_create_witness :
  filter (fun x => More.is_watch x = true)
    (@Gokit.on_event Reference.filepath (Reference.walking None) Reference.color
       Reference.guard_echo Reference.match_all 300000000 Time.zero
       Worlds.create_c (Spec.at_time Reference.now true)).2
  = [Gokit.EAdd "/home/u/proj/sub/c.txt"]
  /\ Forall (fun x => More.is_watch x = false)
       (@Gokit.on_event Reference.filepath (Reference.walking None) Reference.color
          Reference.guard_echo Reference.match_all 300000000 Time.zero
          Reference.write_b (Spec.at_time Reference.now true)).2.
Proof.
  split.
  - destruct (@watch_set_grows_on_create Reference.filepath (Reference.walking None)
                Reference.color Reference.guard_echo Reference.match_all 300000000
                Time.zero Worlds.create_c (Spec.at_time Reference.now true))
      as [_ Hcreate].
    apply (Hcreate None); [reflexivity | vm_compute; discriminate | reflexivity].
  - destruct (@watch_set_grows_on_create Reference.filepath (Reference.walking None)
                Reference.color Reference.guard_echo Reference.match_all 300000000
                Time.zero Reference.write_b (Spec.at_time Reference.now true))
      as [Hother _].
    apply Hother. discriminate.
Defined.

(** Two files of one directory and a file of another. *)
Lemma watchFiles_adds_cover_witness :
  NoDup (@Gokit.watchFiles_adds Reference.filepath ["a/x.go"; "a/y.go"; "b/z.go"])
  /\ "a" ∈ @Gokit.watchFiles_adds Reference.filepath ["a/x.go"; "a/y.go"; "b/z.go"].
Proof.
  destruct (@watchFiles_adds_cover Reference.filepath ["a/x.go"; "a/y.go"; "b/z.go"])
    as (Hcov & _ & Hnd).
  split.
  - apply Hnd. apply (bool_decide_unpack _). vm_compute. exact I.
  - apply (Hcov "a/x.go"). decide_by_evaluation.
Defined.

(** Moving a file into [/srv/app/new], where every call succeeds. *)
Lemma Move_creates_then_renames_witness :
  @PkgOs.Move Worlds.sys "/tmp/f" "/srv/app/new/f" (Some 420)
  = ([PkgOs.MkdirAll "/srv/app/new" 509; PkgOs.Rename "/tmp/f" "/srv/app/new/f"], None).
Proof.
  destruct (@Move_creates_then_renames Worlds.sys "/tmp/f" "/srv/app/new/f" (Some 420))
    as (_ & _ & Hok).
  apply Hok. reflexivity.
Defined.

(** Writing a string, without options. *)
Lemma OutputFile_writes_after_mkdir_witness :
  @PkgOs.OutputFile Worlds.sys "/srv/app/readme.md" (@PkgOs.Str Worlds.sys "hello") None
  = ([PkgOs.MkdirAll "/srv/app" 509; PkgOs.WriteFile "/srv/app/readme.md" "hello" 436],
     None).
Proof.
  destruct (@OutputFile_writes_after_mkdir Worlds.sys "/srv/app/readme.md"
              (@PkgOs.Str Worlds.sys "hello") None) as (_ & Hwrite & _).
  apply (Hwrite "hello"); [reflexivity | right; reflexivity].
Defined.
